(** * FSAgent: the QoS calculator, the stats registry and the process lifecycle

    A shallow embedding of [pkg/calculator/qos.go],
    [pkg/metrics/internal_metrics.go] and [cmd/fsagent/main.go], followed by
    the properties of the design document that concern them, and then by
    further properties of the same code and of [pkg/logger/logger.go].

    Conventions.
    - Go strings are [string]; the zero value is the empty string.
    - [float64] is Rocq's primitive binary64 [float]; [int], [int64] are [Z]
      with the 64-bit wrap-around written out ([wrap64]); [uint16] is [Z]
      reduced modulo 2^16.
    - A Go [error] is its message; [nil] is [None].
    - A method that mutates its receiver or an argument returns the new value.
    - Packages that are imported but whose source is not part of this
      development ([connection], [store], [strconv]) appear as interfaces or
      as models written from the design document; each says so. *)

From Stdlib Require Import PrimFloat Uint63 ZArith String Ascii List Bool Lia.
From stdpp Require Import gmap strings pretty.
Import ListNotations.

Local Open Scope string_scope.
Local Open Scope Z_scope.

(** A Go error value, identified with its message. *)
Definition error := string.

(** [fmt.Errorf(prefix + ": %w", err)]. *)
Definition wrapf (prefix : string) (err : error) : error :=
  prefix +:+ ": " +:+ err.

(** Two's-complement reduction to [int64], and [int64] addition. *)
Definition wrap64 (z : Z) : Z := (z + 2^63) mod 2^64 - 2^63.
Definition add64 (a b : Z) : Z := wrap64 (a + b).
Definition max_int64 : Z := 2^63 - 1.
Definition min_int64 : Z := - 2^63.

(** The conversion [uint16(x)]. *)
Definition to_uint16 (x : Z) : Z := x mod 2^16.

(** ** Calls of package [logger]

    A call of one of the logging functions of [pkg/logger], recorded by the
    level of the function called and the message; the fields passed to a
    [..WithFields] function are not kept. Whether a call writes a line is
    decided by the logger, which writes none for a call below its level
    (module [Logger] below). *)
Inductive LogLevel := DEBUG | INFO | WARN | ERROR.

Record LogEntry := { log_level : LogLevel; log_message : string }.

(* ================================================================== *)
(** ** Package [connection]: events *)

Module Connection.

(** Modelled from the spec: [connection.FSEvent] and its method
    [GetHeader] are not among the sources. The design document describes an
    event as a mapping of header name to string value (case-sensitive, last
    write wins); the calculator only ever compares the result of
    [GetHeader] with the empty string, so an absent header reads as the
    empty string. *)
Record FSEvent := { Headers : gmap string string }.

Definition GetHeader (event : FSEvent) (name : string) : string :=
  default "" (Headers event !! name).

End Connection.

(* ================================================================== *)
(** ** Package [store]: the channel-state store *)

Module Store.

(** The fields of [store.ChannelState] that [main.go] initialises. *)
Record ChannelState := {
  ChannelID : string;
  CorrelationID : string;
  DomainName : string;
  InstanceName : string;
  CreatedAt : Z;
  UpdatedAt : Z
}.

(** The interface [store.StateStore], as the calculator uses it. A store
    is a value of type [S]; every request returns the store that results.
    [Get] answers with a state or with an error (not found, expired, or a
    backend failure): the calculator dereferences the state whenever the
    error is [nil], so a [nil] error comes with a state. [Put] is the
    interface's [Set]; the [context.Context] that every request takes is
    left out. *)
Class StateStore (S : Type) := {
  Get : S -> string -> S * (ChannelState + error);
  Put : S -> string -> ChannelState -> Z -> S * option error;
  Delete : S -> string -> S * option error
}.

(** Modelled from the spec: the error with which [Get] answers when there
    is no state under the key ([StateNotFound] of the design document);
    the backends are not among the sources. *)
Definition ErrNotFound : error := "channel state not found".

(** Modelled from the spec: the part of the store contract (design
    document, 4.4 and 8) that single consumption rests on; the backends are
    not among the sources. Once [Delete] has succeeded for a key, the next
    [Get] of that key answers not-found. *)
Class StateStoreContract (S : Type) `{StateStore S} := {
  get_after_delete : forall (s s' : S) (key : string),
    Delete s key = (s', None) ->
    exists s'', Get s' key = (s'', inr ErrNotFound)
}.

(** Modelled from the spec: the in-process backend, whose source is not
    available. Entries carry the instant at which they expire; a read of an
    expired entry behaves as not found and drops it (lazy expiry);
    [Put] overwrites and resets the expiry; [Delete] is idempotent and
    cannot fail. The clock is part of the store. *)
Record MemoryStore := {
  entries : gmap string (ChannelState * Z);
  clock : Z
}.

Definition mem_Get (s : MemoryStore) (key : string)
  : MemoryStore * (ChannelState + error) :=
  match entries s !! key with
  | Some (st, expiry) =>
      if clock s <? expiry then (s, inl st)
      else ({| entries := delete key (entries s); clock := clock s |},
            inr ErrNotFound)
  | None => (s, inr ErrNotFound)
  end.

Definition mem_Put (s : MemoryStore) (key : string) (st : ChannelState)
    (ttl : Z) : MemoryStore * option error :=
  ({| entries := <[key := (st, clock s + ttl)]> (entries s);
      clock := clock s |}, None).

Definition mem_Delete (s : MemoryStore) (key : string)
  : MemoryStore * option error :=
  ({| entries := delete key (entries s); clock := clock s |}, None).

#[global] Instance memoryStore : StateStore MemoryStore :=
  {| Get := mem_Get; Put := mem_Put; Delete := mem_Delete |}.

(** Modelled from the spec: the networked backend, whose source is not
    available. The server keeps the entries; a request can fail
    ([StoreBackendError] of the design document), and then leaves the
    server as it was. [outages] says, for the requests still to come and in
    order, which of them fail. *)
Record RemoteStore := {
  server : MemoryStore;
  outages : list bool
}.

Definition ErrBackend : error := "store backend unavailable".

Definition request {A} (s : RemoteStore)
    (run : MemoryStore -> MemoryStore * A) (failed : A)
  : RemoteStore * A :=
  match outages s with
  | true :: rest => ({| server := server s; outages := rest |}, failed)
  | false :: rest =>
      let '(srv, a) := run (server s) in
      ({| server := srv; outages := rest |}, a)
  | [] =>
      let '(srv, a) := run (server s) in
      ({| server := srv; outages := [] |}, a)
  end.

#[global] Instance remoteStore : StateStore RemoteStore :=
  {| Get := fun s key => request s (fun m => mem_Get m key) (inr ErrBackend);
     Put := fun s key st ttl =>
              request s (fun m => mem_Put m key st ttl) (Some ErrBackend);
     Delete := fun s key =>
                 request s (fun m => mem_Delete m key) (Some ErrBackend) |}.

End Store.

(* ================================================================== *)
(** ** Package [strconv] *)

Module Strconv.

(** Go's standard library is outside the repository: the four parsers the
    calculator calls are an interface. [None] stands for a non-nil error
    (the calculator looks at nothing else when a parse fails). *)
Class Parsers := {
  ParseFloat : string -> Z -> option float;
  ParseInt : string -> Z -> Z -> option Z;
  ParseUint : string -> Z -> Z -> option Z;
  Atoi : string -> option Z
}.

(** An implementation of the interface for plain decimal numerals, used to
    run the calculator on concrete events. On the numerals it accepts it
    agrees with Go: integers are read exactly and range-checked; a float
    with a mantissa below 2^53 and at most 15 fractional digits is the
    quotient of two exactly represented values, hence correctly rounded.
    Everything else (exponents, hexadecimal, infinities, other bases) is
    rejected here. *)
Definition digit (c : ascii) : option Z :=
  let n := Z.of_N (N_of_ascii c) in
  if (48 <=? n) && (n <=? 57) then Some (n - 48) else None.

Fixpoint digits_from (acc : Z) (s : string) : option Z :=
  match s with
  | EmptyString => Some acc
  | String c rest =>
      match digit c with
      | Some d => digits_from (10 * acc + d) rest
      | None => None
      end
  end.

Definition numeral (s : string) : option Z :=
  match s with
  | EmptyString => None
  | _ => digits_from 0 s
  end.

Definition dec_ParseUint (s : string) (base bitSize : Z) : option Z :=
  if base =? 10 then
    match numeral s with
    | Some n => if n <? 2 ^ bitSize then Some n else None
    | None => None
    end
  else None.

Definition split_sign (s : string) : bool * string :=
  match s with
  | String "-" rest => (true, rest)
  | String "+" rest => (false, rest)
  | _ => (false, s)
  end.

Definition dec_ParseInt (s : string) (base bitSize : Z) : option Z :=
  if base =? 10 then
    let '(neg, body) := split_sign s in
    match numeral body with
    | Some n =>
        if neg then (if n <=? 2 ^ (bitSize - 1) then Some (- n) else None)
        else (if n <? 2 ^ (bitSize - 1) then Some n else None)
    | None => None
    end
  else None.

Fixpoint split_point (s : string) : string * option string :=
  match s with
  | EmptyString => (EmptyString, None)
  | String "." rest => (EmptyString, Some rest)
  | String c rest =>
      let '(whole, frac) := split_point rest in (String c whole, frac)
  end.

Definition float_of_Z (n : Z) : float := PrimFloat.of_uint63 (Uint63.of_Z n).

Definition dec_ParseFloat (s : string) (bitSize : Z) : option float :=
  if bitSize =? 64 then
    let '(neg, body) := split_sign s in
    let '(whole, frac) := split_point body in
    let frac := default EmptyString frac in
    let k := Z.of_nat (String.length frac) in
    match numeral (whole +:+ frac) with
    | Some m =>
        if (m <? 2 ^ 53) && (k <=? 15) then
          let x := PrimFloat.div (float_of_Z m) (float_of_Z (10 ^ k)) in
          Some (if neg then PrimFloat.opp x else x)
        else None
    | None => None
    end
  else None.

Definition decimal : Parsers :=
  {| ParseFloat := dec_ParseFloat;
     ParseInt := dec_ParseInt;
     ParseUint := dec_ParseUint;
     Atoi := fun s => dec_ParseInt s 10 64 |}.

End Strconv.

(* ================================================================== *)
(** ** Package [calculator]: [qos.go] *)

Module Calculator.
Import Connection Strconv.

(** [QoSMetrics]; [Timestamp] is the reading of [time.Now()]. *)
Record QoSMetrics := mkQoSMetrics {
  Timestamp : Z;
  InstanceName : string;
  ChannelID : string;
  CorrelationID : string;
  DomainName : string;
  MOSScore : float;
  AvgJitter : float;
  MinJitter : float;
  MaxJitter : float;
  Delta : float;
  TotalPackets : Z;
  PacketLoss : Z;
  TotalBytes : Z;
  CodecName : string;
  CodecPT : Z;
  PTime : Z;
  ClockRate : Z;
  SrcIP : string;
  SrcPort : Z;
  DstIP : string;
  DstPort : Z;
  ReportTimestamp : Z
}.

Definition set_CorrelationID (v : string) (m : QoSMetrics) : QoSMetrics :=
  mkQoSMetrics (Timestamp m) (InstanceName m) (ChannelID m) v (DomainName m)
    (MOSScore m) (AvgJitter m) (MinJitter m) (MaxJitter m) (Delta m)
    (TotalPackets m) (PacketLoss m) (TotalBytes m) (CodecName m) (CodecPT m)
    (PTime m) (ClockRate m) (SrcIP m) (SrcPort m) (DstIP m) (DstPort m)
    (ReportTimestamp m).

Definition set_DomainName (v : string) (m : QoSMetrics) : QoSMetrics :=
  mkQoSMetrics (Timestamp m) (InstanceName m) (ChannelID m) (CorrelationID m)
    v (MOSScore m) (AvgJitter m) (MinJitter m) (MaxJitter m) (Delta m)
    (TotalPackets m) (PacketLoss m) (TotalBytes m) (CodecName m) (CodecPT m)
    (PTime m) (ClockRate m) (SrcIP m) (SrcPort m) (DstIP m) (DstPort m)
    (ReportTimestamp m).

Definition set_MOSScore (v : float) (m : QoSMetrics) : QoSMetrics :=
  mkQoSMetrics (Timestamp m) (InstanceName m) (ChannelID m) (CorrelationID m)
    (DomainName m) v (AvgJitter m) (MinJitter m) (MaxJitter m) (Delta m)
    (TotalPackets m) (PacketLoss m) (TotalBytes m) (CodecName m) (CodecPT m)
    (PTime m) (ClockRate m) (SrcIP m) (SrcPort m) (DstIP m) (DstPort m)
    (ReportTimestamp m).

Definition set_AvgJitter (v : float) (m : QoSMetrics) : QoSMetrics :=
  mkQoSMetrics (Timestamp m) (InstanceName m) (ChannelID m) (CorrelationID m)
    (DomainName m) (MOSScore m) v (MinJitter m) (MaxJitter m) (Delta m)
    (TotalPackets m) (PacketLoss m) (TotalBytes m) (CodecName m) (CodecPT m)
    (PTime m) (ClockRate m) (SrcIP m) (SrcPort m) (DstIP m) (DstPort m)
    (ReportTimestamp m).

Definition set_MinJitter (v : float) (m : QoSMetrics) : QoSMetrics :=
  mkQoSMetrics (Timestamp m) (InstanceName m) (ChannelID m) (CorrelationID m)
    (DomainName m) (MOSScore m) (AvgJitter m) v (MaxJitter m) (Delta m)
    (TotalPackets m) (PacketLoss m) (TotalBytes m) (CodecName m) (CodecPT m)
    (PTime m) (ClockRate m) (SrcIP m) (SrcPort m) (DstIP m) (DstPort m)
    (ReportTimestamp m).

Definition set_MaxJitter (v : float) (m : QoSMetrics) : QoSMetrics :=
  mkQoSMetrics (Timestamp m) (InstanceName m) (ChannelID m) (CorrelationID m)
    (DomainName m) (MOSScore m) (AvgJitter m) (MinJitter m) v (Delta m)
    (TotalPackets m) (PacketLoss m) (TotalBytes m) (CodecName m) (CodecPT m)
    (PTime m) (ClockRate m) (SrcIP m) (SrcPort m) (DstIP m) (DstPort m)
    (ReportTimestamp m).

Definition set_Delta (v : float) (m : QoSMetrics) : QoSMetrics :=
  mkQoSMetrics (Timestamp m) (InstanceName m) (ChannelID m) (CorrelationID m)
    (DomainName m) (MOSScore m) (AvgJitter m) (MinJitter m) (MaxJitter m) v
    (TotalPackets m) (PacketLoss m) (TotalBytes m) (CodecName m) (CodecPT m)
    (PTime m) (ClockRate m) (SrcIP m) (SrcPort m) (DstIP m) (DstPort m)
    (ReportTimestamp m).

Definition set_TotalPackets (v : Z) (m : QoSMetrics) : QoSMetrics :=
  mkQoSMetrics (Timestamp m) (InstanceName m) (ChannelID m) (CorrelationID m)
    (DomainName m) (MOSScore m) (AvgJitter m) (MinJitter m) (MaxJitter m)
    (Delta m) v (PacketLoss m) (TotalBytes m) (CodecName m) (CodecPT m)
    (PTime m) (ClockRate m) (SrcIP m) (SrcPort m) (DstIP m) (DstPort m)
    (ReportTimestamp m).

Definition set_PacketLoss (v : Z) (m : QoSMetrics) : QoSMetrics :=
  mkQoSMetrics (Timestamp m) (InstanceName m) (ChannelID m) (CorrelationID m)
    (DomainName m) (MOSScore m) (AvgJitter m) (MinJitter m) (MaxJitter m)
    (Delta m) (TotalPackets m) v (TotalBytes m) (CodecName m) (CodecPT m)
    (PTime m) (ClockRate m) (SrcIP m) (SrcPort m) (DstIP m) (DstPort m)
    (ReportTimestamp m).

Definition set_TotalBytes (v : Z) (m : QoSMetrics) : QoSMetrics :=
  mkQoSMetrics (Timestamp m) (InstanceName m) (ChannelID m) (CorrelationID m)
    (DomainName m) (MOSScore m) (AvgJitter m) (MinJitter m) (MaxJitter m)
    (Delta m) (TotalPackets m) (PacketLoss m) v (CodecName m) (CodecPT m)
    (PTime m) (ClockRate m) (SrcIP m) (SrcPort m) (DstIP m) (DstPort m)
    (ReportTimestamp m).

Definition set_CodecName (v : string) (m : QoSMetrics) : QoSMetrics :=
  mkQoSMetrics (Timestamp m) (InstanceName m) (ChannelID m) (CorrelationID m)
    (DomainName m) (MOSScore m) (AvgJitter m) (MinJitter m) (MaxJitter m)
    (Delta m) (TotalPackets m) (PacketLoss m) (TotalBytes m) v (CodecPT m)
    (PTime m) (ClockRate m) (SrcIP m) (SrcPort m) (DstIP m) (DstPort m)
    (ReportTimestamp m).

Definition set_CodecPT (v : Z) (m : QoSMetrics) : QoSMetrics :=
  mkQoSMetrics (Timestamp m) (InstanceName m) (ChannelID m) (CorrelationID m)
    (DomainName m) (MOSScore m) (AvgJitter m) (MinJitter m) (MaxJitter m)
    (Delta m) (TotalPackets m) (PacketLoss m) (TotalBytes m) (CodecName m) v
    (PTime m) (ClockRate m) (SrcIP m) (SrcPort m) (DstIP m) (DstPort m)
    (ReportTimestamp m).

Definition set_PTime (v : Z) (m : QoSMetrics) : QoSMetrics :=
  mkQoSMetrics (Timestamp m) (InstanceName m) (ChannelID m) (CorrelationID m)
    (DomainName m) (MOSScore m) (AvgJitter m) (MinJitter m) (MaxJitter m)
    (Delta m) (TotalPackets m) (PacketLoss m) (TotalBytes m) (CodecName m)
    (CodecPT m) v (ClockRate m) (SrcIP m) (SrcPort m) (DstIP m) (DstPort m)
    (ReportTimestamp m).

Definition set_ClockRate (v : Z) (m : QoSMetrics) : QoSMetrics :=
  mkQoSMetrics (Timestamp m) (InstanceName m) (ChannelID m) (CorrelationID m)
    (DomainName m) (MOSScore m) (AvgJitter m) (MinJitter m) (MaxJitter m)
    (Delta m) (TotalPackets m) (PacketLoss m) (TotalBytes m) (CodecName m)
    (CodecPT m) (PTime m) v (SrcIP m) (SrcPort m) (DstIP m) (DstPort m)
    (ReportTimestamp m).

Definition set_SrcIP (v : string) (m : QoSMetrics) : QoSMetrics :=
  mkQoSMetrics (Timestamp m) (InstanceName m) (ChannelID m) (CorrelationID m)
    (DomainName m) (MOSScore m) (AvgJitter m) (MinJitter m) (MaxJitter m)
    (Delta m) (TotalPackets m) (PacketLoss m) (TotalBytes m) (CodecName m)
    (CodecPT m) (PTime m) (ClockRate m) v (SrcPort m) (DstIP m) (DstPort m)
    (ReportTimestamp m).

Definition set_SrcPort (v : Z) (m : QoSMetrics) : QoSMetrics :=
  mkQoSMetrics (Timestamp m) (InstanceName m) (ChannelID m) (CorrelationID m)
    (DomainName m) (MOSScore m) (AvgJitter m) (MinJitter m) (MaxJitter m)
    (Delta m) (TotalPackets m) (PacketLoss m) (TotalBytes m) (CodecName m)
    (CodecPT m) (PTime m) (ClockRate m) (SrcIP m) v (DstIP m) (DstPort m)
    (ReportTimestamp m).

Definition set_DstIP (v : string) (m : QoSMetrics) : QoSMetrics :=
  mkQoSMetrics (Timestamp m) (InstanceName m) (ChannelID m) (CorrelationID m)
    (DomainName m) (MOSScore m) (AvgJitter m) (MinJitter m) (MaxJitter m)
    (Delta m) (TotalPackets m) (PacketLoss m) (TotalBytes m) (CodecName m)
    (CodecPT m) (PTime m) (ClockRate m) (SrcIP m) (SrcPort m) v (DstPort m)
    (ReportTimestamp m).

Definition set_DstPort (v : Z) (m : QoSMetrics) : QoSMetrics :=
  mkQoSMetrics (Timestamp m) (InstanceName m) (ChannelID m) (CorrelationID m)
    (DomainName m) (MOSScore m) (AvgJitter m) (MinJitter m) (MaxJitter m)
    (Delta m) (TotalPackets m) (PacketLoss m) (TotalBytes m) (CodecName m)
    (CodecPT m) (PTime m) (ClockRate m) (SrcIP m) (SrcPort m) (DstIP m) v
    (ReportTimestamp m).

Definition set_ReportTimestamp (v : Z) (m : QoSMetrics) : QoSMetrics :=
  mkQoSMetrics (Timestamp m) (InstanceName m) (ChannelID m) (CorrelationID m)
    (DomainName m) (MOSScore m) (AvgJitter m) (MinJitter m) (MaxJitter m)
    (Delta m) (TotalPackets m) (PacketLoss m) (TotalBytes m) (CodecName m)
    (CodecPT m) (PTime m) (ClockRate m) (SrcIP m) (SrcPort m) (DstIP m)
    (DstPort m) v.


(** The struct literal of [CalculateMetrics]: three fields set, the others
    at their zero values. *)
Definition newQoSMetrics (now : Z) (instanceName channelID : string)
  : QoSMetrics :=
  {| Timestamp := now; InstanceName := instanceName; ChannelID := channelID;
     CorrelationID := ""; DomainName := "";
     MOSScore := 0; AvgJitter := 0; MinJitter := 0; MaxJitter := 0;
     Delta := 0;
     TotalPackets := 0; PacketLoss := 0; TotalBytes := 0;
     CodecName := ""; CodecPT := 0; PTime := 0; ClockRate := 0;
     SrcIP := ""; SrcPort := 0; DstIP := ""; DstPort := 0;
     ReportTimestamp := 0 |}.

(** What the calculator works on: the store behind [qc.store] and the
    calls made to package [logger] so far, in order. *)
Record World (S : Type) := { store : S; logs : list LogEntry }.
Arguments store {S} _.
Arguments logs {S} _.

Definition log {S} (lvl : LogLevel) (msg : string) (w : World S) : World S :=
  {| store := store w;
     logs := (logs w ++ [{| log_level := lvl; log_message := msg |}])%list |}.

(** The pair of a metrics pointer and an error that [CalculateMetrics] returns. *)
Definition Result : Type := option QoSMetrics * option error.

Definition ErrSkip : error :=
  "variable_rtp_use_codec_rate not present, skipping QoS calculation".
Definition ErrNoUniqueID : error :=
  "CHANNEL_DESTROY event missing Unique-ID".

(** The test [s != ""]. *)
Definition nonempty (s : string) : bool := negb (String.eqb s "").

Section WithParsers.
Context {P : Parsers}.

(** The idiom
    [if s := event.GetHeader(name); s != "" { if v, err := parse(s); err == nil { .. v .. } }]:
    the value [v] that reaches the inner block, if any. *)
Definition header_value {A} (event : FSEvent) (name : string)
    (parse : string -> option A) : option A :=
  let s := GetHeader event name in
  if nonempty s then parse s else None.

(** [if v, ok := ..; ok { metrics.F = v }] on a pointer to [metrics]. *)
Definition assign {A} (set : A -> QoSMetrics -> QoSMetrics)
    (v : option A) (metrics : QoSMetrics) : QoSMetrics :=
  match v with
  | Some a => set a metrics
  | None => metrics
  end.

Definition extractQualityMetrics (event : FSEvent) (metrics : QoSMetrics)
  : QoSMetrics * option error :=
  let metrics :=
    assign set_MOSScore
      (header_value event "variable_rtp_audio_in_mos"
         (fun s => ParseFloat s 64)) metrics in
  let metrics :=
    assign set_MinJitter
      (header_value event "variable_rtp_audio_in_jitter_min_variance"
         (fun s => ParseFloat s 64)) metrics in
  let metrics :=
    assign set_MaxJitter
      (header_value event "variable_rtp_audio_in_jitter_max_variance"
         (fun s => ParseFloat s 64)) metrics in
  let metrics :=
    if PrimFloat.ltb 0 (MinJitter metrics)
       || PrimFloat.ltb 0 (MaxJitter metrics)
    then set_AvgJitter
           (PrimFloat.div
              (PrimFloat.add (MinJitter metrics) (MaxJitter metrics)) 2)
           metrics
    else metrics in
  let metrics :=
    assign set_Delta
      (header_value event "variable_rtp_audio_in_mean_interval"
         (fun s => ParseFloat s 64)) metrics in
  (metrics, None).

(** [var n int64] followed by the idiom above with [n = v] inside: the
    local [n] after it. *)
Definition int64_header (event : FSEvent) (name : string) : Z :=
  default 0 (header_value event name (fun s => ParseInt s 10 64)).

Definition extractTrafficMetrics (event : FSEvent) (metrics : QoSMetrics)
  : QoSMetrics * option error :=
  let inboundPackets :=
    int64_header event "variable_rtp_audio_in_packet_count" in
  let outboundPackets :=
    int64_header event "variable_rtp_audio_out_packet_count" in
  let metrics :=
    set_TotalPackets (add64 inboundPackets outboundPackets) metrics in
  let inboundBytes :=
    int64_header event "variable_rtp_audio_in_media_bytes" in
  let outboundBytes :=
    int64_header event "variable_rtp_audio_out_media_bytes" in
  let metrics :=
    set_TotalBytes (add64 inboundBytes outboundBytes) metrics in
  let inboundSkip :=
    int64_header event "variable_rtp_audio_in_skip_packet_count" in
  let outboundSkip :=
    int64_header event "variable_rtp_audio_out_skip_packet_count" in
  let metrics :=
    set_PacketLoss (add64 inboundSkip outboundSkip) metrics in
  (metrics, None).

Definition extractCodecInfo (event : FSEvent) (metrics : QoSMetrics)
  : QoSMetrics * option error :=
  let metrics :=
    assign set_CodecName
      (header_value event "variable_rtp_use_codec_name" Some) metrics in
  let metrics :=
    assign set_CodecPT
      (header_value event "variable_rtp_use_codec_pt" Atoi) metrics in
  let metrics :=
    assign set_PTime
      (header_value event "variable_rtp_use_codec_ptime" Atoi) metrics in
  let metrics :=
    assign set_ClockRate
      (header_value event "variable_rtp_use_codec_rate" Atoi) metrics in
  let metrics :=
    assign set_SrcIP
      (header_value event "variable_local_media_ip" Some) metrics in
  let metrics :=
    assign (fun port => set_SrcPort (to_uint16 port))
      (header_value event "variable_local_media_port"
         (fun s => ParseUint s 10 16)) metrics in
  let metrics :=
    assign set_DstIP
      (header_value event "variable_remote_media_ip" Some) metrics in
  let metrics :=
    assign (fun port => set_DstPort (to_uint16 port))
      (header_value event "variable_remote_media_port"
         (fun s => ParseUint s 10 16)) metrics in
  let metrics :=
    assign set_ReportTimestamp
      (header_value event "Event-Date-Timestamp"
         (fun s => ParseInt s 10 64)) metrics in
  (metrics, None).

Context {S : Type} {SS : Store.StateStore S}.

Definition extractStateAndDomain (w : World S) (event : FSEvent)
    (metrics : QoSMetrics) : World S * QoSMetrics * option error :=
  let channelID := ChannelID metrics in
  let '(s1, got) := Store.Get (store w) channelID in
  match got with
  | inl state =>
      let metrics := set_CorrelationID (Store.CorrelationID state) metrics in
      let metrics := set_DomainName (Store.DomainName state) metrics in
      let '(s2, delErr) := Store.Delete s1 channelID in
      let w2 := {| store := s2; logs := logs w |} in
      let w3 :=
        match delErr with
        | Some _ =>
            log WARN "Failed to delete channel state after QoS calculation" w2
        | None => w2
        end in
      (w3, metrics, None)
  | inr _ =>
      let w1 := {| store := s1; logs := logs w |} in
      let metrics :=
        let correlationID := GetHeader event "Other-Leg-Unique-ID" in
        if nonempty correlationID then set_CorrelationID correlationID metrics
        else
        let correlationID := GetHeader event "Unique-ID" in
        if nonempty correlationID then set_CorrelationID correlationID metrics
        else
        let correlationID := GetHeader event "variable_sip_call_id" in
        if nonempty correlationID then set_CorrelationID correlationID metrics
        else
        let correlationID := GetHeader event "variable_global_call_id" in
        if nonempty correlationID then set_CorrelationID correlationID metrics
        else metrics in
      let metrics :=
        let domainName := GetHeader event "variable_domain_name" in
        if nonempty domainName then set_DomainName domainName metrics
        else
        let domainName := GetHeader event "variable_sip_from_host" in
        if nonempty domainName then set_DomainName domainName metrics
        else
        let domainName := GetHeader event "variable_sip_to_host" in
        if nonempty domainName then set_DomainName domainName metrics
        else metrics in
      (w1, metrics, None)
  end.

Definition CalculateMetrics (w : World S) (now : Z) (event : FSEvent)
    (instanceName : string) : World S * Result :=
  if String.eqb (GetHeader event "variable_rtp_use_codec_rate") "" then
    (w, (None, Some ErrSkip))
  else
  let channelID := GetHeader event "Unique-ID" in
  if String.eqb channelID "" then
    (w, (None, Some ErrNoUniqueID))
  else
  let metrics := newQoSMetrics now instanceName channelID in
  match extractQualityMetrics event metrics with
  | (_, Some err) =>
      (log ERROR "Failed to extract quality metrics" w,
       (None, Some (wrapf "failed to extract quality metrics" err)))
  | (metrics, None) =>
  match extractTrafficMetrics event metrics with
  | (_, Some err) =>
      (log ERROR "Failed to extract traffic metrics" w,
       (None, Some (wrapf "failed to extract traffic metrics" err)))
  | (metrics, None) =>
  match extractCodecInfo event metrics with
  | (_, Some err) =>
      (log ERROR "Failed to extract codec info" w,
       (None, Some (wrapf "failed to extract codec info" err)))
  | (metrics, None) =>
  match extractStateAndDomain w event metrics with
  | (w, _, Some err) =>
      (log ERROR "Failed to extract state and domain" w,
       (None, Some (wrapf "failed to extract state and domain" err)))
  | (w, metrics, None) =>
      (log DEBUG "QoS metrics calculated successfully" w,
       (Some metrics, None))
  end end end end.

(** *** The numeric headers, tabulated

    Which header feeds which field, as the three helpers have it: the
    fields read from one header each (with the parser applied), and the
    totals added up from an inbound and an outbound header. *)
Definition float_fields : list (string * (QoSMetrics -> float)) :=
  [("variable_rtp_audio_in_mos", MOSScore);
   ("variable_rtp_audio_in_jitter_min_variance", MinJitter);
   ("variable_rtp_audio_in_jitter_max_variance", MaxJitter);
   ("variable_rtp_audio_in_mean_interval", Delta)].

Definition integer_fields
  : list (string * (string -> option Z) * (QoSMetrics -> Z)) :=
  [("variable_rtp_use_codec_pt", Atoi, CodecPT);
   ("variable_rtp_use_codec_ptime", Atoi, PTime);
   ("variable_rtp_use_codec_rate", Atoi, ClockRate);
   ("variable_local_media_port", fun s => ParseUint s 10 16, SrcPort);
   ("variable_remote_media_port", fun s => ParseUint s 10 16, DstPort);
   ("Event-Date-Timestamp", fun s => ParseInt s 10 64, ReportTimestamp)].

Definition total_fields : list (string * string * (QoSMetrics -> Z)) :=
  [("variable_rtp_audio_in_packet_count",
    "variable_rtp_audio_out_packet_count", TotalPackets);
   ("variable_rtp_audio_in_media_bytes",
    "variable_rtp_audio_out_media_bytes", TotalBytes);
   ("variable_rtp_audio_in_skip_packet_count",
    "variable_rtp_audio_out_skip_packet_count", PacketLoss)].

End WithParsers.

(** The two priority orders of the fallback. *)
Definition correlation_headers : list string :=
  ["Other-Leg-Unique-ID"; "Unique-ID"; "variable_sip_call_id";
   "variable_global_call_id"].

Definition domain_headers : list string :=
  ["variable_domain_name"; "variable_sip_from_host"; "variable_sip_to_host"].

(** The spec's wording of the fallback: the candidates are tried in order
    and the first non-empty one is taken; with none, the result is empty. *)
Fixpoint first_non_empty (candidates : list string) : string :=
  match candidates with
  | [] => ""
  | c :: rest => if nonempty c then c else first_non_empty rest
  end.

End Calculator.

(* ================================================================== *)
(** ** Package [metrics]: [internal_metrics.go] *)

Module Metrics.

(** Addresses. An [*int64] is the address of a cell; an
    [*InternalMetrics] is the address of a struct. The nil pointer is
    [None] where a pointer may be nil. *)
Definition ptr := positive.

(** The struct, without its mutex (see [State] below). A Go map is a
    reference; no method hands out an inner map, and each is made by the
    method that stores it, so the maps are kept by value. The counters are
    pointers into the cells. *)
Record InternalMetrics := {
  eventsReceived : gmap string (gmap string ptr);
  eventsProcessed : gmap string (gmap string ptr);
  rtcpMessagesProcessed : gmap string (gmap string ptr);
  qosMessagesGenerated : gmap string ptr;
  storageOperations : gmap string (gmap string ptr);
  fsConnections : gmap string ptr
}.

(** The memory of the package: the [int64] cells, the structs allocated so
    far, and the two package-level variables. Every method holds [m.mu] for
    its whole body, and [once.Do] runs its argument under the lock of
    [once]: a call is one step on this state. *)
Record State := {
  cells : gmap ptr Z;
  objects : gmap ptr InternalMetrics;
  globalMetrics : option ptr;
  once : bool
}.

(** Program start: nothing allocated, [globalMetrics] nil, [once] unused. *)
Definition init : State :=
  {| cells := ∅; objects := ∅; globalMetrics := None; once := false |}.

(** The composite literal of [GetMetrics]: six maps made empty. *)
Definition newInternalMetrics : InternalMetrics :=
  {| eventsReceived := ∅; eventsProcessed := ∅; rtcpMessagesProcessed := ∅;
     qosMessagesGenerated := ∅; storageOperations := ∅; fsConnections := ∅ |}.

(** [once.Do(f)]: [f] runs if [once] has not been used, and [once] is then
    used. *)
Definition once_Do (f : State -> State) (s : State) : State :=
  if once s then s
  else
    let s' := f s in
    {| cells := cells s'; objects := objects s';
       globalMetrics := globalMetrics s'; once := true |}.

Definition GetMetrics (s : State) : option ptr * State :=
  let s :=
    once_Do (fun s =>
      let p := fresh (dom (objects s)) in
      {| cells := cells s;
         objects := <[p := newInternalMetrics]> (objects s);
         globalMetrics := Some p;
         once := once s |}) s in
  (globalMetrics s, s).

(** [fam[k1]]: reading a key that is absent yields the nil map, which
    reads as empty. *)
Definition inner (fam : gmap string (gmap string ptr)) (k1 : string)
  : gmap string ptr :=
  default ∅ (fam !! k1).

(** [if _, ok := fam[k1]; !ok { fam[k1] = make(map[string]*int64) }] *)
Definition ensure_map (fam : gmap string (gmap string ptr)) (k1 : string)
  : gmap string (gmap string ptr) :=
  match fam !! k1 with
  | Some _ => fam
  | None => <[k1 := ∅]> fam
  end.

(** [var counter int64; .. = &counter]: a new cell holding zero. *)
Definition new_cell (cs : gmap ptr Z) : ptr * gmap ptr Z :=
  let p := fresh (dom cs) in (p, <[p := 0]> cs).

(** [if _, ok := fam[k1][k2]; !ok { var counter int64; fam[k1][k2] = &counter }] *)
Definition ensure_cell2 (fam : gmap string (gmap string ptr))
    (k1 k2 : string) (cs : gmap ptr Z)
  : gmap string (gmap string ptr) * gmap ptr Z :=
  match inner fam k1 !! k2 with
  | Some _ => (fam, cs)
  | None =>
      let '(p, cs) := new_cell cs in
      (<[k1 := <[k2 := p]> (inner fam k1)]> fam, cs)
  end.

(** [if _, ok := fam[k]; !ok { var counter int64; fam[k] = &counter }] *)
Definition ensure_cell1 (fam : gmap string ptr) (k : string)
    (cs : gmap ptr Z) : gmap string ptr * gmap ptr Z :=
  match fam !! k with
  | Some _ => (fam, cs)
  | None =>
      let '(p, cs) := new_cell cs in (<[k := p]> fam, cs)
  end.

(** [atomic.AddInt64(p, delta)] and [atomic.StoreInt64(p, v)]; [None] is
    the panic on a nil pointer. *)
Definition AddInt64 (p : option ptr) (delta : Z) (cs : gmap ptr Z)
  : option (gmap ptr Z) :=
  p ← p; v ← cs !! p; Some (<[p := add64 v delta]> cs).

Definition StoreInt64 (p : option ptr) (v : Z) (cs : gmap ptr Z)
  : option (gmap ptr Z) :=
  p ← p; _ ← cs !! p; Some (<[p := v]> cs).

(** The body that the four two-level [Increment..] methods share, on the
    map they address. *)
Definition increment2 (fam : gmap string (gmap string ptr))
    (k1 k2 : string) (cs : gmap ptr Z)
  : option (gmap string (gmap string ptr) * gmap ptr Z) :=
  let fam := ensure_map fam k1 in
  let '(fam, cs) := ensure_cell2 fam k1 k2 cs in
  cs ← AddInt64 (inner fam k1 !! k2) 1 cs;
  Some (fam, cs).

(** Writing the struct behind the receiver back. *)
Definition update (m : ptr) (reg : InternalMetrics) (cs : gmap ptr Z)
    (s : State) : State :=
  {| cells := cs; objects := <[m := reg]> (objects s);
     globalMetrics := globalMetrics s; once := once s |}.

(** The methods. The receiver [m] is dereferenced first; [None] is a
    panic. *)
Definition IncrementEventsReceived (m : ptr) (instance eventType : string)
    (s : State) : option State :=
  reg ← objects s !! m;
  '(fam, cs) ← increment2 (eventsReceived reg) instance eventType (cells s);
  Some (update m
          {| eventsReceived := fam;
             eventsProcessed := eventsProcessed reg;
             rtcpMessagesProcessed := rtcpMessagesProcessed reg;
             qosMessagesGenerated := qosMessagesGenerated reg;
             storageOperations := storageOperations reg;
             fsConnections := fsConnections reg |} cs s).

Definition IncrementEventsProcessed (m : ptr) (instance eventType : string)
    (s : State) : option State :=
  reg ← objects s !! m;
  '(fam, cs) ← increment2 (eventsProcessed reg) instance eventType (cells s);
  Some (update m
          {| eventsReceived := eventsReceived reg;
             eventsProcessed := fam;
             rtcpMessagesProcessed := rtcpMessagesProcessed reg;
             qosMessagesGenerated := qosMessagesGenerated reg;
             storageOperations := storageOperations reg;
             fsConnections := fsConnections reg |} cs s).

Definition IncrementRTCPMessagesProcessed (m : ptr)
    (instance direction : string) (s : State) : option State :=
  reg ← objects s !! m;
  '(fam, cs) ←
    increment2 (rtcpMessagesProcessed reg) instance direction (cells s);
  Some (update m
          {| eventsReceived := eventsReceived reg;
             eventsProcessed := eventsProcessed reg;
             rtcpMessagesProcessed := fam;
             qosMessagesGenerated := qosMessagesGenerated reg;
             storageOperations := storageOperations reg;
             fsConnections := fsConnections reg |} cs s).

Definition IncrementQoSMessagesGenerated (m : ptr) (instance : string)
    (s : State) : option State :=
  reg ← objects s !! m;
  let '(fam, cs) :=
    ensure_cell1 (qosMessagesGenerated reg) instance (cells s) in
  cs ← AddInt64 (fam !! instance) 1 cs;
  Some (update m
          {| eventsReceived := eventsReceived reg;
             eventsProcessed := eventsProcessed reg;
             rtcpMessagesProcessed := rtcpMessagesProcessed reg;
             qosMessagesGenerated := fam;
             storageOperations := storageOperations reg;
             fsConnections := fsConnections reg |} cs s).

Definition IncrementStorageOperations (m : ptr) (operation status : string)
    (s : State) : option State :=
  reg ← objects s !! m;
  '(fam, cs) ←
    increment2 (storageOperations reg) operation status (cells s);
  Some (update m
          {| eventsReceived := eventsReceived reg;
             eventsProcessed := eventsProcessed reg;
             rtcpMessagesProcessed := rtcpMessagesProcessed reg;
             qosMessagesGenerated := qosMessagesGenerated reg;
             storageOperations := fam;
             fsConnections := fsConnections reg |} cs s).

Definition SetFSConnectionStatus (m : ptr) (instance : string)
    (connected : bool) (s : State) : option State :=
  reg ← objects s !! m;
  let '(fam, cs) := ensure_cell1 (fsConnections reg) instance (cells s) in
  cs ← (if connected then StoreInt64 (fam !! instance) 1 cs
        else StoreInt64 (fam !! instance) 0 cs);
  Some (update m
          {| eventsReceived := eventsReceived reg;
             eventsProcessed := eventsProcessed reg;
             rtcpMessagesProcessed := rtcpMessagesProcessed reg;
             qosMessagesGenerated := qosMessagesGenerated reg;
             storageOperations := storageOperations reg;
             fsConnections := fam |} cs s).

(** *** Naming a counter

    A counter of the registry is named by its family and its keys. *)
Inductive Family2 :=
  EventsReceived | EventsProcessed | RTCPMessagesProcessed
| StorageOperations.

Inductive Family1 := QoSMessagesGenerated | FSConnections.

Inductive Counter :=
| Counter2 (f : Family2) (k1 k2 : string)
| Counter1 (f : Family1) (k : string).

#[global] Instance Family2_eq_dec : EqDecision Family2.
Proof. solve_decision. Defined.

#[global] Instance Family1_eq_dec : EqDecision Family1.
Proof. solve_decision. Defined.

#[global] Instance Counter_eq_dec : EqDecision Counter.
Proof. solve_decision. Defined.

Definition family2 (f : Family2) (reg : InternalMetrics)
  : gmap string (gmap string ptr) :=
  match f with
  | EventsReceived => eventsReceived reg
  | EventsProcessed => eventsProcessed reg
  | RTCPMessagesProcessed => rtcpMessagesProcessed reg
  | StorageOperations => storageOperations reg
  end.

Definition family1 (f : Family1) (reg : InternalMetrics) : gmap string ptr :=
  match f with
  | QoSMessagesGenerated => qosMessagesGenerated reg
  | FSConnections => fsConnections reg
  end.

(** The pointer stored for a counter, if the registry has it. *)
Definition address (reg : InternalMetrics) (c : Counter) : option ptr :=
  match c with
  | Counter2 f k1 k2 => inner (family2 f reg) k1 !! k2
  | Counter1 f k => family1 f reg !! k
  end.

(** What [atomic.LoadInt64] reads for counter [c] of the struct at [m];
    [None] when the registry has no such counter. *)
Definition value (s : State) (m : ptr) (c : Counter) : option Z :=
  reg ← objects s !! m; p ← address reg c; cells s !! p.

(** The representation invariant: every counter of every registry points
    to an allocated cell, and no cell is shared by two counters; the cells
    hold [int64] values; [globalMetrics] is set exactly when [once] has
    been used, and then points to an allocated struct, the only one. *)
Record wf (s : State) : Prop := {
  wf_allocated : forall m reg c p,
    objects s !! m = Some reg -> address reg c = Some p ->
    is_Some (cells s !! p);
  wf_separate : forall m1 reg1 c1 m2 reg2 c2 p,
    objects s !! m1 = Some reg1 -> address reg1 c1 = Some p ->
    objects s !! m2 = Some reg2 -> address reg2 c2 = Some p ->
    m1 = m2 /\ c1 = c2;
  wf_int64 : forall p v,
    cells s !! p = Some v -> min_int64 <= v <= max_int64;
  wf_global : forall p,
    globalMetrics s = Some p -> is_Some (objects s !! p);
  wf_single : forall m,
    is_Some (objects s !! m) -> globalMetrics s = Some m;
  wf_once : once s = true <-> is_Some (globalMetrics s)
}.

(** The frame that the methods leave: every counter but [c0] of [m] reads
    as before. *)
Definition others_unchanged (s s' : State) (m : ptr) (c0 : Counter) : Prop :=
  forall m' c', (m', c') <> (m, c0) -> value s' m' c' = value s m' c'.

(** The calls of the package, and running a sequence of them. *)
Inductive Call :=
| CallGetMetrics
| CallIncrementEventsReceived (m : ptr) (instance eventType : string)
| CallIncrementEventsProcessed (m : ptr) (instance eventType : string)
| CallIncrementRTCPMessagesProcessed (m : ptr) (instance direction : string)
| CallIncrementQoSMessagesGenerated (m : ptr) (instance : string)
| CallIncrementStorageOperations (m : ptr) (operation status : string)
| CallSetFSConnectionStatus (m : ptr) (instance : string) (connected : bool).

Definition step (c : Call) (s : State) : option State :=
  match c with
  | CallGetMetrics => Some (snd (GetMetrics s))
  | CallIncrementEventsReceived m i e => IncrementEventsReceived m i e s
  | CallIncrementEventsProcessed m i e => IncrementEventsProcessed m i e s
  | CallIncrementRTCPMessagesProcessed m i d =>
      IncrementRTCPMessagesProcessed m i d s
  | CallIncrementQoSMessagesGenerated m i => IncrementQoSMessagesGenerated m i s
  | CallIncrementStorageOperations m o st => IncrementStorageOperations m o st s
  | CallSetFSConnectionStatus m i c => SetFSConnectionStatus m i c s
  end.

Fixpoint run (calls : list Call) (s : State) : option State :=
  match calls with
  | [] => Some s
  | c :: rest => s' ← step c s; run rest s'
  end.

End Metrics.

(* ================================================================== *)
(** ** Command [fsagent]: [main.go] *)

Module Main.

(** The calls [main.go] makes into the other packages that can fail or
    that start and stop a component, one name per call site (the state
    store and the exporter are constructed twice: once for validation and
    once for use). Constructors that return no error and the printing of
    the banner are not traced. *)
Inductive Call :=
| config_Load
| validation_NewStateStore
| validation_Set
| validation_Get
| validation_Delete
| validation_Close
| validation_NewMetricsExporter
| validation_Start
| validation_Stop
| store_NewStateStore
| exporter_NewMetricsExporter
| eventProcessor_Start
| connManager_Start
| httpServer_Start
| cancel
| httpServer_Stop
| connManager_Stop
| eventProcessor_Stop
| metricsExporter_Stop
| stateStore_Close.

(** [connection.ConnectionStatus], as far as [main] reads it. *)
Record ConnectionStatus := { Connected : bool }.

(** What [flag.Parse] makes of the command line. The flag package belongs
    to Go's standard library; [main.go] uses its default flag set, whose
    error handling is [flag.ExitOnError]. On a malformed command line (a
    flag that is not defined, a value that does not parse) [Parse] prints
    the error and the usage and ends the process with status 2; on [-h],
    which [main.go] does not define, it prints the usage and ends the
    process with status 0; otherwise it returns, and the flags hold their
    values. *)
Inductive CommandLine := WellFormed | AsksUsage | Malformed.

(** What a run of the process meets: the command line and, when it is
    well formed, the values of the flags; the error each call returns
    ([None] is nil); the statuses that [connManager.GetStatus()] reports;
    and whether an interrupt or termination signal ever arrives. *)
Record Env := {
  command_line : CommandLine;
  version : bool;
  help : bool;
  returns : Call -> option error;
  GetStatus : list ConnectionStatus;
  signalled : bool
}.

Inductive Action :=
| Invoke (c : Call)
| Log (lvl : LogLevel) (msg : string).

(** How the process stands at the end of the trace: ended by [os.Exit] or
    by the return of [main] (status 0), or still waiting for a signal. *)
Inductive Outcome := Exited (code : Z) | Running.

(** A computation of [main.go]: the actions performed, then either the
    way the process ended or a value to continue with. *)
Definition Proc (A : Type) : Type := list Action * (Outcome + A).

Definition ret {A} (a : A) : Proc A := ([], inr a).

Definition bind {A B} (c : Proc A) (k : A -> Proc B) : Proc B :=
  match c with
  | (t, inl o) => (t, inl o)
  | (t, inr a) => let '(t', r) := k a in ((t ++ t')%list, r)
  end.

Declare Scope proc_scope.
Delimit Scope proc_scope with proc.
Notation "x <- c ;; k" := (bind c (fun x => k))
  (at level 100, c at next level, right associativity) : proc_scope.
Notation "c ;; k" := (bind c (fun _ => k))
  (at level 100, right associativity) : proc_scope.
Local Open Scope proc_scope.

Definition os_Exit {A} (code : Z) : Proc A := ([], inl (Exited code)).

Definition logger (lvl : LogLevel) (msg : string) : Proc unit :=
  ([Log lvl msg], inr tt).

(** [if err != nil { .. }] *)
Definition if_err (err : option error) (handler : error -> Proc unit)
  : Proc unit :=
  match err with
  | Some e => handler e
  | None => ret tt
  end.

Section Run.
Variable env : Env.

Definition call (c : Call) : Proc (option error) :=
  ([Invoke c], inr (returns env c)).

(** [flag.Parse()] *)
Definition flag_Parse : Proc unit :=
  match command_line env with
  | WellFormed => ret tt
  | AsksUsage => os_Exit 0
  | Malformed => os_Exit 2
  end.

(** [<-sigChan] *)
Definition await_signal : Proc unit :=
  if signalled env then ret tt else ([], inl Running).

(** [validateStateStore]: the deferred [Close] runs on every return
    that follows a successful construction. *)
Definition validateStateStore : Proc (option error) :=
  err <- call validation_NewStateStore ;;
  match err with
  | Some e => ret (Some (wrapf "failed to create state store" e))
  | None =>
      result <-
        (err <- call validation_Set ;;
         match err with
         | Some e => ret (Some (wrapf "failed to set test state" e))
         | None =>
         err <- call validation_Get ;;
         match err with
         | Some e => ret (Some (wrapf "failed to get test state" e))
         | None =>
         err <- call validation_Delete ;;
         match err with
         | Some e => ret (Some (wrapf "failed to delete test state" e))
         | None => ret None
         end end end) ;;
      call validation_Close ;;
      ret result
  end.

Definition validateOTelEndpoint : Proc (option error) :=
  err <- call validation_NewMetricsExporter ;;
  match err with
  | Some e => ret (Some (wrapf "failed to create test exporter" e))
  | None =>
  err <- call validation_Start ;;
  match err with
  | Some e => ret (Some (wrapf "failed to start test exporter" e))
  | None =>
  err <- call validation_Stop ;;
  if_err err (fun _ =>
    logger WARN "Failed to stop test exporter cleanly: %v") ;;
  ret None
  end end.

Definition validateStartup : Proc (option error) :=
  logger INFO "Performing startup validation..." ;;
  logger INFO "Validating state store connection..." ;;
  err <- validateStateStore ;;
  match err with
  | Some e => ret (Some (wrapf "state store validation failed" e))
  | None =>
  logger INFO "State store validation successful" ;;
  logger INFO "Validating OpenTelemetry endpoint connectivity..." ;;
  err <- validateOTelEndpoint ;;
  match err with
  | Some e => ret (Some (wrapf "OTel endpoint validation failed" e))
  | None =>
  logger INFO "OpenTelemetry endpoint validation successful" ;;
  ret None
  end end.

(** One step of [gracefulShutdown]: announce, call, report. *)
Definition stop_step (announce : string) (c : Call)
    (failed stopped : string) : Proc unit :=
  logger INFO announce ;;
  err <- call c ;;
  match err with
  | Some _ => logger ERROR failed
  | None => logger INFO stopped
  end.

Definition gracefulShutdown : Proc unit :=
  call cancel ;;
  stop_step "Stopping HTTP server..." httpServer_Stop
    "Error stopping HTTP server: %v" "HTTP server stopped" ;;
  stop_step "Stopping connection manager..." connManager_Stop
    "Error stopping connection manager: %v" "Connection manager stopped" ;;
  stop_step "Stopping event processor..." eventProcessor_Stop
    "Error stopping event processor: %v" "Event processor stopped" ;;
  stop_step "Flushing and stopping metrics exporter..." metricsExporter_Stop
    "Error stopping metrics exporter: %v" "Metrics exporter stopped" ;;
  stop_step "Closing state store..." stateStore_Close
    "Error closing state store: %v" "State store closed" ;;
  logger INFO "Graceful shutdown completed".

(** The loop that counts the connected instances. *)
Definition activeConnections : Z :=
  fold_left (fun n status => if Connected status then n + 1 else n)
    (GetStatus env) 0.

(** [main]. [os.Exit] does not run deferred calls, so the five deferred
    calls run only when [main] returns, last deferred first. The
    connection manager that [NewConnectionManager] returns is taken to
    be the default one (the type assertion before [SetEventForwarder]
    holds). *)
Definition main : Proc unit :=
  flag_Parse ;;
  if version env then os_Exit 0 else
  if help env then os_Exit 0 else
  err <- call config_Load ;;
  if_err err (fun _ => os_Exit 1) ;;
  logger INFO "FSAgent starting with log level: %s, format: %s" ;;
  logger INFO "Loaded configuration with %d FreeSWITCH instance(s)" ;;
  err <- validateStartup ;;
  if_err err (fun _ =>
    logger ERROR "Startup validation failed: %v" ;; os_Exit 1) ;;
  logger INFO "Startup validation completed successfully" ;;
  logger INFO "Initializing state store: type=%s" ;;
  err <- call store_NewStateStore ;;
  if_err err (fun _ =>
    logger ERROR "Failed to initialize state store: %v" ;; os_Exit 1) ;;
  logger INFO "State store initialized successfully" ;;
  logger INFO "RTCP calculator initialized" ;;
  logger INFO "QoS calculator initialized" ;;
  err <- call exporter_NewMetricsExporter ;;
  if_err err (fun _ =>
    logger ERROR "Failed to initialize metrics exporter: %v" ;; os_Exit 1) ;;
  logger INFO "Metrics exporter initialized: endpoint=%s" ;;
  logger INFO "Event processor initialized: rtcp=%v, qos=%v" ;;
  err <- call eventProcessor_Start ;;
  if_err err (fun _ =>
    logger ERROR "Failed to start event processor: %v" ;; os_Exit 1) ;;
  logger INFO "Event processor started" ;;
  logger INFO "Event processor connected to connection manager" ;;
  err <- call connManager_Start ;;
  if_err err (fun _ =>
    logger WARN "Some connections failed to start: %v") ;;
  (if activeConnections =? 0 then
     logger ERROR "No FreeSWITCH connections established" ;; os_Exit 1
   else ret tt) ;;
  logger INFO "FSAgent started successfully with %d active connection(s)" ;;
  err <- call httpServer_Start ;;
  if_err err (fun _ =>
    logger ERROR "Failed to start HTTP server: %v" ;; os_Exit 1) ;;
  logger INFO "HTTP server started on port %d" ;;
  await_signal ;;
  logger INFO "Shutdown signal received, initiating graceful shutdown..." ;;
  gracefulShutdown ;;
  logger INFO "FSAgent stopped successfully" ;;
  call httpServer_Stop ;;
  call connManager_Stop ;;
  call eventProcessor_Stop ;;
  call stateStore_Close ;;
  call cancel ;;
  ret tt.

End Run.

(** The trace of a computation, its calls alone, and how the process
    stands at its end. *)
Definition trace {A} (c : Proc A) : list Action := fst c.

Definition calls {A} (c : Proc A) : list Call :=
  omap (fun a => match a with Invoke c => Some c | Log _ _ => None end)
    (trace c).

Definition outcome (c : Proc unit) : Outcome :=
  match snd c with
  | inl o => o
  | inr _ => Exited 0
  end.

(** *** Components and what they are built from

    [main] wires the components: the calculators and the processor get the
    state store, the processor also the exporter, the connection manager
    forwards to the processor, the HTTP server reads the connection
    manager. *)
Inductive Component :=
  HTTPServer | ConnectionManager | EventProcessor | MetricsExporter
| StateStore.

Inductive depends_on : Component -> Component -> Prop :=
| http_on_manager : depends_on HTTPServer ConnectionManager
| manager_on_processor : depends_on ConnectionManager EventProcessor
| processor_on_exporter : depends_on EventProcessor MetricsExporter
| processor_on_store : depends_on EventProcessor StateStore.

(** A component relies on whatever it depends on, directly or through
    others. *)
Inductive relies_on : Component -> Component -> Prop :=
| relies_direct c d : depends_on c d -> relies_on c d
| relies_through c d e : depends_on c d -> relies_on d e -> relies_on c e.

(** The component a call tears down. *)
Definition teardown_of (c : Call) : option Component :=
  match c with
  | httpServer_Stop => Some HTTPServer
  | connManager_Stop => Some ConnectionManager
  | eventProcessor_Stop => Some EventProcessor
  | metricsExporter_Stop => Some MetricsExporter
  | stateStore_Close => Some StateStore
  | _ => None
  end.

(** The step of [gracefulShutdown] ("Step 1" to "Step 5" in its comments)
    at which a component is stopped. *)
Definition shutdown_step (c : Component) : nat :=
  match c with
  | HTTPServer => 1
  | ConnectionManager => 2
  | EventProcessor => 3
  | MetricsExporter => 4
  | StateStore => 5
  end.

(** *** The errors that end the process

    [failed env c]: the call [c] returns a non-nil error. The calls whose
    error makes [validateStartup] return an error, and the conditions
    under which [main] reaches an [os.Exit(1)]. *)
Definition failed (env : Env) (c : Call) : bool :=
  match returns env c with
  | Some _ => true
  | None => false
  end.

Definition validation_fails (env : Env) : bool :=
  failed env validation_NewStateStore
  || failed env validation_Set
  || failed env validation_Get
  || failed env validation_Delete
  || failed env validation_NewMetricsExporter
  || failed env validation_Start.

Definition fatal (env : Env) : bool :=
  failed env config_Load
  || validation_fails env
  || failed env store_NewStateStore
  || failed env exporter_NewMetricsExporter
  || failed env eventProcessor_Start
  || (activeConnections env =? 0)
  || failed env httpServer_Start.

(** The runs that come to [gracefulShutdown]: nothing ends the process
    before, and a signal arrives. *)
Definition shuts_down (env : Env) : bool :=
  match command_line env with
  | WellFormed =>
      negb (version env || help env) && negb (fatal env) && signalled env
  | AsksUsage | Malformed => false
  end.

End Main.

(* ================================================================== *)
(** ** Concrete events and stores *)

Module Scenario.
Import Connection Calculator.

Definition event_of (headers : list (string * string)) : FSEvent :=
  {| Headers := list_to_map headers |}.

(** The state an early-call event with [Unique-ID=U1],
    [variable_sip_call_id=C1], [variable_domain_name=d.com] leaves. *)
Definition state_U1 : Store.ChannelState :=
  {| Store.ChannelID := "U1"; Store.CorrelationID := "C1";
     Store.DomainName := "d.com"; Store.InstanceName := "fs1";
     Store.CreatedAt := 0; Store.UpdatedAt := 0 |}.

(** An in-process store at time 10, empty, and after the early-call event
    has stored [state_U1] for 24 hours (in seconds). *)
Definition memory_empty : Store.MemoryStore :=
  {| Store.entries := ∅; Store.clock := 10 |}.

Definition memory_U1 : Store.MemoryStore :=
  fst (Store.mem_Put memory_empty "U1" state_U1 86400).

(** The same store two days later. *)
Definition memory_U1_late : Store.MemoryStore :=
  {| Store.entries := Store.entries memory_U1; Store.clock := 172810 |}.

(** A networked store with the same content whose second request fails,
    and one whose first request fails. *)
Definition remote_U1 : Store.RemoteStore :=
  {| Store.server := memory_U1; Store.outages := [false; true] |}.

Definition remote_down : Store.RemoteStore :=
  {| Store.server := memory_U1; Store.outages := [true] |}.

(** The termination event of scenario A. *)
Definition termination_U1 : FSEvent :=
  event_of
    [("Unique-ID", "U1");
     ("variable_rtp_use_codec_rate", "8000");
     ("variable_rtp_audio_in_mos", "4.2");
     ("variable_rtp_audio_in_jitter_min_variance", "1.0");
     ("variable_rtp_audio_in_jitter_max_variance", "3.0")].

(** The same call leg ending without a negotiated codec. *)
Definition termination_U1_no_codec : FSEvent :=
  event_of [("Unique-ID", "U1")].

(** A termination event without [Unique-ID]. *)
Definition termination_anonymous : FSEvent :=
  event_of [("variable_rtp_use_codec_rate", "8000")].

(** A termination event for a leg the store never saw. *)
Definition termination_U2 : FSEvent :=
  event_of
    [("Unique-ID", "U2");
     ("Other-Leg-Unique-ID", "X");
     ("variable_sip_call_id", "Y");
     ("variable_sip_from_host", "a.com");
     ("variable_rtp_use_codec_rate", "8000")].

(** A termination event whose inbound packet count is not a number. *)
Definition termination_garbled : FSEvent :=
  event_of
    [("Unique-ID", "U3");
     ("variable_rtp_use_codec_rate", "8000");
     ("variable_rtp_audio_in_mos", "n/a");
     ("variable_rtp_audio_in_packet_count", "abc");
     ("variable_rtp_audio_out_packet_count", "5")].

Definition world {S} (s : S) : World S := {| store := s; logs := [] |}.

(** A registry in use: constructed, then asked a few things. The struct
    is the first one allocated, at address 1. *)
Definition registry_calls : list Metrics.Call :=
  [Metrics.CallIncrementEventsReceived 1%positive "fs1" "CHANNEL_CREATE";
   Metrics.CallIncrementEventsReceived 1%positive "fs1" "CHANNEL_DESTROY";
   Metrics.CallIncrementEventsReceived 1%positive "fs1" "CHANNEL_DESTROY";
   Metrics.CallIncrementQoSMessagesGenerated 1%positive "fs1";
   Metrics.CallSetFSConnectionStatus 1%positive "fs1" true].

Definition registry_state : Metrics.State :=
  default Metrics.init
    (Metrics.run registry_calls (snd (Metrics.GetMetrics Metrics.init))).

(** Runs of the process: everything succeeds and a signal arrives; the
    command line is malformed; everything succeeds except that the metrics
    exporter cannot be constructed. *)
Definition healthy_env : Main.Env :=
  {| Main.command_line := Main.WellFormed;
     Main.version := false; Main.help := false;
     Main.returns := fun _ => None;
     Main.GetStatus := [{| Main.Connected := true |}];
     Main.signalled := true |}.

(** A run started with a flag that [main.go] does not define. *)
Definition malformed_env : Main.Env :=
  {| Main.command_line := Main.Malformed;
     Main.version := false; Main.help := false;
     Main.returns := fun _ => None;
     Main.GetStatus := [{| Main.Connected := true |}];
     Main.signalled := true |}.

Definition exporter_down_env : Main.Env :=
  {| Main.command_line := Main.WellFormed;
     Main.version := false; Main.help := false;
     Main.returns := fun c =>
       match c with
       | Main.exporter_NewMetricsExporter => Some "connection refused"
       | _ => None
       end;
     Main.GetStatus := [{| Main.Connected := true |}];
     Main.signalled := true |}.

End Scenario.

(* ================================================================== *)
(** ** Devices for stating properties

    Equality of calls is decidable; a store that records what it is asked;
    the calls of the logger that the calculator makes; the counter a call of
    the registry writes. *)

#[global] Instance Main_Call_eq_dec : EqDecision Main.Call.
Proof. solve_decision. Defined.

Module Recorder.

(** The requests of the [StateStore] interface, by method and key. *)
Inductive Request :=
| AskGet (key : string)
| AskPut (key : string)
| AskDelete (key : string).

(** A store of any kind together with the requests made to it so far. The
    answers are those of the store inside. *)
Record Recording (S : Type) := { inside : S; asked : list Request }.
Arguments inside {S} _.
Arguments asked {S} _.

Definition record {S A} (r : Recording S) (q : Request) (answer : S * A)
  : Recording S * A :=
  ({| inside := fst answer; asked := (asked r ++ [q])%list |}, snd answer).

#[global] Instance recording {S} `{Store.StateStore S}
  : Store.StateStore (Recording S) :=
  {| Store.Get := fun r key =>
       record r (AskGet key) (Store.Get (inside r) key);
     Store.Put := fun r key st ttl =>
       record r (AskPut key) (Store.Put (inside r) key st ttl);
     Store.Delete := fun r key =>
       record r (AskDelete key) (Store.Delete (inside r) key) |}.

End Recorder.

Module Reported.

(** The two calls of package [logger] that [CalculateMetrics] comes to
    make, as they are recorded: the warning of [extractStateAndDomain]
    when [Delete] fails, and the closing [DebugWithFields]. *)
Definition delete_failed : LogEntry :=
  {| log_level := WARN;
     log_message := "Failed to delete channel state after QoS calculation" |}.

Definition calculated : LogEntry :=
  {| log_level := DEBUG;
     log_message := "QoS metrics calculated successfully" |}.

End Reported.

Module Registry.
Import Metrics.

(** The struct and the counter that a call writes; [GetMetrics] writes
    none. *)
Definition target (call : Call) : option (ptr * Counter) :=
  match call with
  | CallGetMetrics => None
  | CallIncrementEventsReceived m i e => Some (m, Counter2 EventsReceived i e)
  | CallIncrementEventsProcessed m i e =>
      Some (m, Counter2 EventsProcessed i e)
  | CallIncrementRTCPMessagesProcessed m i d =>
      Some (m, Counter2 RTCPMessagesProcessed i d)
  | CallIncrementQoSMessagesGenerated m i =>
      Some (m, Counter1 QoSMessagesGenerated i)
  | CallIncrementStorageOperations m o st =>
      Some (m, Counter2 StorageOperations o st)
  | CallSetFSConnectionStatus m i _ => Some (m, Counter1 FSConnections i)
  end.

(** What the call writes there, given what the counter read before
    ([None]: there was no such counter). *)
Definition writes (call : Call) (before : option Z) : Z :=
  match call with
  | CallSetFSConnectionStatus _ _ connected => if connected then 1 else 0
  | _ => add64 (default 0 before) 1
  end.

(** The calls that count: all but [GetMetrics] and the gauge. *)
Definition is_increment (call : Call) : bool :=
  match call with
  | CallGetMetrics | CallSetFSConnectionStatus _ _ _ => false
  | _ => true
  end.

(** The same call repeated. *)
Fixpoint repeat_call (call : Call) (n : nat) (s : State) : option State :=
  match n with
  | O => Some s
  | Datatypes.S n => s' ← step call s; repeat_call call n s'
  end.

(** The gauges hold 0 or 1. *)
Definition gauges_are_flags (s : State) : Prop :=
  forall m instance v,
    value s m (Counter1 FSConnections instance) = Some v -> v = 0 \/ v = 1.

End Registry.

(* ================================================================== *)
(** ** Package [logger]: [logger.go] *)

Module Logger.

(** [type LogLevel int] and its four constants. *)
Definition LogLevel : Type := Z.
Definition DEBUG : LogLevel := 0.
Definition INFO : LogLevel := 1.
Definition WARN : LogLevel := 2.
Definition ERROR : LogLevel := 3.

(** The method [String] of [LogLevel]. *)
Definition LogLevel_String (l : LogLevel) : string :=
  if l =? DEBUG then "DEBUG"
  else if l =? INFO then "INFO"
  else if l =? WARN then "WARN"
  else if l =? ERROR then "ERROR"
  else "UNKNOWN".

(** [ParseLogLevel]. [strings.ToUpper] belongs to Go's standard library
    and is an argument. *)
Definition ParseLogLevel (ToUpper : string -> string) (level : string)
  : LogLevel :=
  let upper := ToUpper level in
  if String.eqb upper "DEBUG" then DEBUG
  else if String.eqb upper "INFO" then INFO
  else if String.eqb upper "WARN" || String.eqb upper "WARNING" then WARN
  else if String.eqb upper "ERROR" then ERROR
  else INFO.

(** Upper-casing of the letters a to z, byte by byte: what
    [strings.ToUpper] does to a string of ASCII characters. Used to run
    [ParseLogLevel] on concrete strings. *)
Definition upper_ascii (c : ascii) : ascii :=
  let n := nat_of_ascii c in
  if (97 <=? n)%nat && (n <=? 122)%nat then ascii_of_nat (n - 32) else c.

Fixpoint ToUpperASCII (s : string) : string :=
  match s with
  | EmptyString => EmptyString
  | String c rest => String (upper_ascii c) (ToUpperASCII rest)
  end.

(** *** zerolog

    The library is outside the repository. Of a [zerolog.Logger] the
    package uses the writer it was made with (console or JSON) and the
    minimum level set by [Level]; by the library's documentation an event
    below the minimum level is discarded and [Msg] writes the others.
    [zerolog_rank] gives the library's order of the four levels used
    here. *)
Inductive ZerologLevel := DebugLevel | InfoLevel | WarnLevel | ErrorLevel.

Definition zerolog_rank (l : ZerologLevel) : Z :=
  match l with
  | DebugLevel => 0
  | InfoLevel => 1
  | WarnLevel => 2
  | ErrorLevel => 3
  end.

Record ZerologLogger := { console : bool; minimum : ZerologLevel }.

(** A line handed to the output: its level, whether it goes through the
    console writer, its structured fields (as rendered) and its message. *)
Record Line := {
  line_level : ZerologLevel;
  line_console : bool;
  line_fields : gmap string string;
  line_message : string
}.

(** [zlogger.Debug()..Msg(message)] and its three siblings, with the
    fields added in between by [logWithFields]. *)
Definition zerolog_Msg (z : ZerologLogger) (l : ZerologLevel)
    (fields : gmap string string) (message : string) (out : list Line)
  : list Line :=
  if zerolog_rank (minimum z) <=? zerolog_rank l
  then (out ++ [{| line_level := l; line_console := console z;
                   line_fields := fields; line_message := message |}])%list
  else out.

Definition toZerologLevel (level : LogLevel) : ZerologLevel :=
  if level =? DEBUG then DebugLevel
  else if level =? INFO then InfoLevel
  else if level =? WARN then WarnLevel
  else if level =? ERROR then ErrorLevel
  else InfoLevel.

(** *** The logger and the package state *)

Record Logger := {
  level : LogLevel;
  format : string;
  zlogger : ZerologLogger
}.

(** The package variables [defaultLogger] and [once], and what has been
    written to standard output. Only one [Logger] is ever allocated, so
    the struct is kept where the pointer is. *)
Record State := {
  defaultLogger : option Logger;
  once : bool;
  written : list Line
}.

Definition init : State :=
  {| defaultLogger := None; once := false; written := [] |}.

Definition newLogger (level : LogLevel) (format : string) : Logger :=
  {| level := level;
     format := format;
     zlogger := {| console := String.eqb format "text";
                   minimum := toZerologLevel level |} |}.

Definition InitWithFormat (level : LogLevel) (format : string) (s : State)
  : State :=
  if once s then s
  else {| defaultLogger := Some (newLogger level format);
          once := true;
          written := written s |}.

Definition Init (level : LogLevel) (s : State) : State :=
  InitWithFormat level "json" s.

(** [if defaultLogger == nil { Init(INFO) }] *)
Definition ensure (s : State) : State :=
  match defaultLogger s with
  | None => Init INFO s
  | Some _ => s
  end.

(** [SetLevel] and [GetLevel]; [None] is the panic on a nil
    [defaultLogger]. *)
Definition SetLevel (lvl : LogLevel) (s : State) : option State :=
  let s := ensure s in
  l ← defaultLogger s;
  Some {| defaultLogger :=
            Some {| level := lvl;
                    format := format l;
                    zlogger := {| console := console (zlogger l);
                                  minimum := toZerologLevel lvl |} |};
          once := once s;
          written := written s |}.

Definition GetLevel (s : State) : option (LogLevel * State) :=
  let s := ensure s in
  l ← defaultLogger s;
  Some (level l, s).

(** The methods [log] and [logWithFields]: the [switch] on the level
    hands the message to zerolog at the matching level, and does nothing
    for a level that is none of the four. *)
Definition logWithFields (l : Logger) (lvl : LogLevel)
    (fields : gmap string string) (message : string) (out : list Line)
  : list Line :=
  if lvl =? DEBUG then zerolog_Msg (zlogger l) DebugLevel fields message out
  else if lvl =? INFO then zerolog_Msg (zlogger l) InfoLevel fields message out
  else if lvl =? WARN then zerolog_Msg (zlogger l) WarnLevel fields message out
  else if lvl =? ERROR then
    zerolog_Msg (zlogger l) ErrorLevel fields message out
  else out.

Definition log (l : Logger) (lvl : LogLevel) (message : string)
    (out : list Line) : list Line :=
  logWithFields l lvl ∅ message out.

(** The body shared by [Debug], [Info], [Warn], [Error] and their
    [..WithFields] variants: make sure there is a logger, then log.
    [message] is the result of [fmt.Sprintf(format, args...)]. *)
Definition emit (lvl : LogLevel) (fields : gmap string string)
    (message : string) (s : State) : option State :=
  let s := ensure s in
  l ← defaultLogger s;
  Some {| defaultLogger := defaultLogger s;
          once := once s;
          written := logWithFields l lvl fields message (written s) |}.

Definition Debug (message : string) : State -> option State :=
  emit DEBUG ∅ message.
Definition Info (message : string) : State -> option State :=
  emit INFO ∅ message.
Definition Warn (message : string) : State -> option State :=
  emit WARN ∅ message.
Definition Error (message : string) : State -> option State :=
  emit ERROR ∅ message.

Definition DebugWithFields (fields : gmap string string) (message : string)
  : State -> option State := emit DEBUG fields message.
Definition InfoWithFields (fields : gmap string string) (message : string)
  : State -> option State := emit INFO fields message.
Definition WarnWithFields (fields : gmap string string) (message : string)
  : State -> option State := emit WARN fields message.
Definition ErrorWithFields (fields : gmap string string) (message : string)
  : State -> option State := emit ERROR fields message.

(** The calls of the package, and running a sequence of them. *)
Inductive Call :=
| CallInitWithFormat (lvl : LogLevel) (format : string)
| CallInit (lvl : LogLevel)
| CallSetLevel (lvl : LogLevel)
| CallGetLevel
| CallEmit (lvl : LogLevel) (fields : gmap string string) (message : string).

Definition step (c : Call) (s : State) : option State :=
  match c with
  | CallInitWithFormat lvl fmt => Some (InitWithFormat lvl fmt s)
  | CallInit lvl => Some (Init lvl s)
  | CallSetLevel lvl => SetLevel lvl s
  | CallGetLevel => snd <$> GetLevel s
  | CallEmit lvl fields message => emit lvl fields message s
  end.

Fixpoint run (calls : list Call) (s : State) : option State :=
  match calls with
  | [] => Some s
  | c :: rest => s' ← step c s; run rest s'
  end.

(** The level and the format that a first call into the package gives
    the logger: those passed to [InitWithFormat] or [Init], and otherwise
    INFO and JSON, before the call does anything else. *)
Definition first_logger (c : Call) : Logger :=
  match c with
  | CallInitWithFormat lvl fmt => newLogger lvl fmt
  | CallInit lvl => newLogger lvl "json"
  | _ => newLogger INFO "json"
  end.

Definition is_SetLevel (c : Call) : bool :=
  match c with
  | CallSetLevel _ => true
  | _ => false
  end.

(** The invariant of the package state: [once] has been used exactly when
    there is a logger, and the minimum level of the zerolog logger is the
    image of the logger's level. *)
Record wf (s : State) : Prop := {
  wf_once : once s = true <-> is_Some (defaultLogger s);
  wf_level : forall l,
    defaultLogger s = Some l ->
    minimum (zlogger l) = toZerologLevel (level l);
  wf_console : forall l,
    defaultLogger s = Some l ->
    console (zlogger l) = String.eqb (format l) "text"
}.

End Logger.

(** ** From the calls of the logger to the lines it writes *)

Module Logged.

(** The level of the logging function that an entry records. *)
Definition level_of (lvl : LogLevel) : Logger.LogLevel :=
  match lvl with
  | DEBUG => Logger.DEBUG
  | INFO => Logger.INFO
  | WARN => Logger.WARN
  | ERROR => Logger.ERROR
  end.

(** The call that an entry records. An entry does not keep the fields of
    the call: [fields] supplies them. *)
Definition call_of (fields : LogEntry -> gmap string string) (e : LogEntry)
  : Logger.Call :=
  Logger.CallEmit (level_of (log_level e)) (fields e) (log_message e).

(** The recorded calls made, in order, on a state of package [logger];
    [None] is a panic. *)
Definition replay (fields : LogEntry -> gmap string string)
    (entries : list LogEntry) (s : Logger.State) : option Logger.State :=
  Logger.run (call_of fields <$> entries) s.

(** The logger that a logging call goes through: the default logger, or
    the one that the call itself makes, by [Init(INFO)], when there is
    none yet. *)
Definition logger_of (s : Logger.State) : Logger.Logger :=
  default (Logger.newLogger Logger.INFO "json") (Logger.defaultLogger s).

(** The line of an entry. *)
Definition line (l : Logger.Logger) (fields : LogEntry -> gmap string string)
    (e : LogEntry) : Logger.Line :=
  {| Logger.line_level := Logger.toZerologLevel (level_of (log_level e));
     Logger.line_console := Logger.console (Logger.zlogger l);
     Logger.line_fields := fields e;
     Logger.line_message := log_message e |}.

(** Whether the logger writes the line of an entry: not when the level of
    the entry is below the minimum level of the logger. *)
Definition writes (l : Logger.Logger) (e : LogEntry) : bool :=
  Logger.zerolog_rank (Logger.minimum (Logger.zlogger l))
  <=? level_of (log_level e).

(** The lines of the entries that the logger writes. *)
Definition lines (l : Logger.Logger) (fields : LogEntry -> gmap string string)
    (entries : list LogEntry) : list Logger.Line :=
  line l fields <$> filter (fun e => writes l e = true) entries.

End Logged.

(* ================================================================== *)
(** ** [GetPrometheusMetrics]: the text exposition of the registry *)

Module Exposition.
Import Metrics.

(** Iterating over a map. Go leaves the order in which [range] visits the
    keys of a map unspecified, and two loops over the same map may take
    different orders. [range site m] is the order that the loop [site]
    takes over [m]: [site] names the map field the loops are about, and,
    for an inner loop, the key the outer loop stands at. The one law is
    that each entry is visited once. *)
Class MapRange := {
  range : forall {V : Type}, list string -> gmap string V -> list (string * V);
  range_visits : forall (V : Type) site (m : gmap string V),
    range site m ≡ₚ map_to_list m
}.

(** The order of the keys, for running the model. *)
Definition key_order : MapRange :=
  {| range := fun V _ m => map_to_list m;
     range_visits := fun V _ m => reflexivity (map_to_list m) |}.

(** The opposite order, as an example of another one. *)
Definition reverse_key_order : MapRange :=
  {| range := fun V _ m => reverse (map_to_list m);
     range_visits := fun V _ m => reverse_Permutation (map_to_list m) |}.

(** The characters that Go writes with a backslash. *)
Definition quote : string := String (ascii_of_nat 34) "".
Definition newline : string := String (ascii_of_nat 10) "".

(** [atomic.LoadInt64(p)]; [None] is the panic on a pointer to nothing. *)
Definition LoadInt64 (p : ptr) (cs : gmap ptr Z) : option Z := cs !! p.

(** The comment lines of the six families. *)
Definition HELP_events_received : string :=
  "# HELP fsagent_events_received_total Total number of events received from FreeSWITCH"
  +:+ newline.
Definition TYPE_events_received : string :=
  "# TYPE fsagent_events_received_total counter" +:+ newline.
Definition HELP_events_processed : string :=
  "# HELP fsagent_events_processed_total Total number of events processed successfully"
  +:+ newline.
Definition TYPE_events_processed : string :=
  "# TYPE fsagent_events_processed_total counter" +:+ newline.
Definition HELP_rtcp_messages_processed : string :=
  "# HELP fsagent_rtcp_messages_processed_total Total number of RTCP messages processed"
  +:+ newline.
Definition TYPE_rtcp_messages_processed : string :=
  "# TYPE fsagent_rtcp_messages_processed_total counter" +:+ newline.
Definition HELP_qos_messages_generated : string :=
  "# HELP fsagent_qos_messages_generated_total Total number of QoS messages generated"
  +:+ newline.
Definition TYPE_qos_messages_generated : string :=
  "# TYPE fsagent_qos_messages_generated_total counter" +:+ newline.
Definition HELP_storage_operations : string :=
  "# HELP fsagent_storage_operations_total Total number of storage operations"
  +:+ newline.
Definition TYPE_storage_operations : string :=
  "# TYPE fsagent_storage_operations_total counter" +:+ newline.
Definition HELP_fs_connections : string :=
  "# HELP fsagent_fs_connections FreeSWITCH connection status (1=connected, 0=disconnected)"
  +:+ newline.
Definition TYPE_fs_connections : string :=
  "# TYPE fsagent_fs_connections gauge" +:+ newline.

(** The six calls of [fmt.Sprintf]. The verb [%s] copies a string as it
    is, without escaping; [%d] writes an [int64] in decimal. *)
Definition events_received_sample (instance eventType : string) (count : Z)
  : string :=
  "fsagent_events_received_total{instance=" +:+ quote +:+ instance +:+ quote
  +:+ ",event_type=" +:+ quote +:+ eventType +:+ quote
  +:+ "} " +:+ pretty count +:+ newline.

Definition events_processed_sample (instance eventType : string) (count : Z)
  : string :=
  "fsagent_events_processed_total{instance=" +:+ quote +:+ instance +:+ quote
  +:+ ",event_type=" +:+ quote +:+ eventType +:+ quote
  +:+ "} " +:+ pretty count +:+ newline.

Definition rtcp_messages_processed_sample (instance direction : string)
    (count : Z) : string :=
  "fsagent_rtcp_messages_processed_total{instance=" +:+ quote +:+ instance
  +:+ quote +:+ ",direction=" +:+ quote +:+ direction +:+ quote
  +:+ "} " +:+ pretty count +:+ newline.

Definition qos_messages_generated_sample (instance : string) (count : Z)
  : string :=
  "fsagent_qos_messages_generated_total{instance=" +:+ quote +:+ instance
  +:+ quote +:+ "} " +:+ pretty count +:+ newline.

Definition storage_operations_sample (operation status : string) (count : Z)
  : string :=
  "fsagent_storage_operations_total{operation=" +:+ quote +:+ operation
  +:+ quote +:+ ",status=" +:+ quote +:+ status +:+ quote
  +:+ "} " +:+ pretty count +:+ newline.

Definition fs_connections_sample (instance : string) (statusValue : Z)
  : string :=
  let statusLabel :=
    if statusValue =? 1 then "connected" else "disconnected" in
  "fsagent_fs_connections{instance=" +:+ quote +:+ instance +:+ quote
  +:+ ",status=" +:+ quote +:+ statusLabel +:+ quote
  +:+ "} " +:+ pretty statusValue +:+ newline.

(** [for k, counter := range m { count := atomic.LoadInt64(counter);
    output += sample(k, count) }], on the entries in the order the loop
    takes them. *)
Fixpoint each_counter (sample : string -> Z -> string)
    (entries : list (string * ptr)) (cs : gmap ptr Z) (output : string)
  : option string :=
  match entries with
  | [] => Some output
  | (k, counter) :: rest =>
      count ← LoadInt64 counter cs;
      each_counter sample rest cs (output +:+ sample k count)
  end.

(** [for k1, m2 := range m { for k2, counter := range m2 { .. } }] *)
Fixpoint each_map `{MapRange} (site : list string)
    (sample : string -> string -> Z -> string)
    (entries : list (string * gmap string ptr)) (cs : gmap ptr Z)
    (output : string) : option string :=
  match entries with
  | [] => Some output
  | (k1, m2) :: rest =>
      output ←
        each_counter (sample k1) (range (site ++ [k1]) m2) cs output;
      each_map site sample rest cs output
  end.

Definition range1 `{MapRange} (site : string)
    (sample : string -> Z -> string) (fam : gmap string ptr)
    (cs : gmap ptr Z) (output : string) : option string :=
  each_counter sample (range [site] fam) cs output.

Definition range2 `{MapRange} (site : string)
    (sample : string -> string -> Z -> string)
    (fam : gmap string (gmap string ptr)) (cs : gmap ptr Z)
    (output : string) : option string :=
  each_map [site] sample (range [site] fam) cs output.

(** The method. It holds the read lock for its whole body and writes
    nothing: a call is one step that returns the text. [None] is a
    panic. *)
Definition GetPrometheusMetrics `{MapRange} (m : ptr) (s : State)
  : option string :=
  reg ← objects s !! m;
  let cs := cells s in
  let output := "" in
  let output := output +:+ HELP_events_received in
  let output := output +:+ TYPE_events_received in
  output ← range2 "eventsReceived" events_received_sample
             (eventsReceived reg) cs output;
  let output := output +:+ HELP_events_processed in
  let output := output +:+ TYPE_events_processed in
  output ← range2 "eventsProcessed" events_processed_sample
             (eventsProcessed reg) cs output;
  let output := output +:+ HELP_rtcp_messages_processed in
  let output := output +:+ TYPE_rtcp_messages_processed in
  output ← range2 "rtcpMessagesProcessed" rtcp_messages_processed_sample
             (rtcpMessagesProcessed reg) cs output;
  let output := output +:+ HELP_qos_messages_generated in
  let output := output +:+ TYPE_qos_messages_generated in
  output ← range1 "qosMessagesGenerated" qos_messages_generated_sample
             (qosMessagesGenerated reg) cs output;
  let output := output +:+ HELP_storage_operations in
  let output := output +:+ TYPE_storage_operations in
  output ← range2 "storageOperations" storage_operations_sample
             (storageOperations reg) cs output;
  let output := output +:+ HELP_fs_connections in
  let output := output +:+ TYPE_fs_connections in
  output ← range1 "fsConnections" fs_connections_sample
             (fsConnections reg) cs output;
  Some output.

(** *** Reading the text

    The line of a counter that holds [v], and what it means for a line to
    show a counter of the struct at [m]. *)
Definition sample2 (f : Family2) : string -> string -> Z -> string :=
  match f with
  | EventsReceived => events_received_sample
  | EventsProcessed => events_processed_sample
  | RTCPMessagesProcessed => rtcp_messages_processed_sample
  | StorageOperations => storage_operations_sample
  end.

Definition sample1 (f : Family1) : string -> Z -> string :=
  match f with
  | QoSMessagesGenerated => qos_messages_generated_sample
  | FSConnections => fs_connections_sample
  end.

Definition sample (c : Counter) (v : Z) : string :=
  match c with
  | Counter2 f k1 k2 => sample2 f k1 k2 v
  | Counter1 f k => sample1 f k v
  end.

Definition shows (s : State) (m : ptr) (c : Counter) (line : string) : Prop :=
  exists v, value s m c = Some v /\ line = sample c v.

(** The family of a counter. *)
Definition in_family2 (f : Family2) (c : Counter) : Prop :=
  exists k1 k2, c = Counter2 f k1 k2.

Definition in_family1 (f : Family1) (c : Counter) : Prop :=
  exists k, c = Counter1 f k.

(** Lines one after the other. *)
Definition join (lines : list string) : string :=
  foldr String.append "" lines.

(** The text made of the twelve comment lines and the sample lines
    [block2 f] and [block1 f] of each family. *)
Definition layout (block2 : Family2 -> list string)
    (block1 : Family1 -> list string) : string :=
  join ([HELP_events_received; TYPE_events_received]
        ++ block2 EventsReceived
        ++ [HELP_events_processed; TYPE_events_processed]
        ++ block2 EventsProcessed
        ++ [HELP_rtcp_messages_processed; TYPE_rtcp_messages_processed]
        ++ block2 RTCPMessagesProcessed
        ++ [HELP_qos_messages_generated; TYPE_qos_messages_generated]
        ++ block1 QoSMessagesGenerated
        ++ [HELP_storage_operations; TYPE_storage_operations]
        ++ block2 StorageOperations
        ++ [HELP_fs_connections; TYPE_fs_connections]
        ++ block1 FSConnections)%list.

(** The map field that holds a family. *)
Definition field2 (f : Family2) : string :=
  match f with
  | EventsReceived => "eventsReceived"
  | EventsProcessed => "eventsProcessed"
  | RTCPMessagesProcessed => "rtcpMessagesProcessed"
  | StorageOperations => "storageOperations"
  end.

Definition field1 (f : Family1) : string :=
  match f with
  | QoSMessagesGenerated => "qosMessagesGenerated"
  | FSConnections => "fsConnections"
  end.

(** The counters of a family with their pointers, in the order in which
    the loops over the family come to them. *)
Definition visit_entries `{MapRange} (site : list string) (f : Family2)
    (entries : list (string * gmap string ptr)) : list (Counter * ptr) :=
  '(k1, m2) ← entries;
  (fun e => (Counter2 f k1 e.1, e.2)) <$> range (site ++ [k1]) m2.

Definition visit2 `{MapRange} (f : Family2) (reg : InternalMetrics)
  : list (Counter * ptr) :=
  visit_entries [field2 f] f (range [field2 f] (family2 f reg)).

Definition visit1 `{MapRange} (f : Family1) (reg : InternalMetrics)
  : list (Counter * ptr) :=
  (fun e => (Counter1 f e.1, e.2)) <$> range [field1 f] (family1 f reg).

(** The lines of counters at given pointers. *)
Definition lines_of (cs : gmap ptr Z) (visited : list (Counter * ptr))
  : list string :=
  (fun e => sample e.1 (default 0 (cs !! e.2))) <$> visited.

End Exposition.

(* ================================================================== *)
(** * Properties *)

(** ** The logger *)

Section LoggerFacts.
Import Logger.

Implicit Types (s : State) (l : Logger) (lvl k : LogLevel).

(** X16. A level parsed from a string is always one of the four, whatever
    the string. For an upper-casing function that leaves the five names
    that [String] can return as they are, parsing the name of one of the
    four levels gives that level back, while any other level does not
    survive: its name is UNKNOWN, which parses as INFO. *)
Theorem X16_ParseLogLevel_inverts_String
    (ToUpper : string -> string) lvl :
  (forall x, ToUpper (LogLevel_String x) = LogLevel_String x) ->
  (forall text, DEBUG <= ParseLogLevel ToUpper text <= ERROR) /\
  (DEBUG <= lvl <= ERROR ->
   ParseLogLevel ToUpper (LogLevel_String lvl) = lvl) /\
  (~ DEBUG <= lvl <= ERROR ->
   ParseLogLevel ToUpper (LogLevel_String lvl) = INFO).
Proof.
  intros Hupper. split; [| split].
  - intros text. unfold ParseLogLevel, DEBUG, INFO, WARN, ERROR.
    repeat (destruct (_ : bool); try lia).
  - intros Hrange. unfold ParseLogLevel. rewrite Hupper.
    unfold DEBUG, INFO, WARN, ERROR in *.
    assert (Hcases : lvl = 0 \/ lvl = 1 \/ lvl = 2 \/ lvl = 3) by lia.
    destruct Hcases as [-> | [-> | [-> | ->]]]; reflexivity.
  - intros Hrange. unfold ParseLogLevel. rewrite Hupper.
    unfold LogLevel_String, DEBUG, INFO, WARN, ERROR in *.
    destruct (Z.eqb_spec lvl 0); [lia |].
    destruct (Z.eqb_spec lvl 1); [lia |].
    destruct (Z.eqb_spec lvl 2); [lia |].
    destruct (Z.eqb_spec lvl 3); [lia |].
    reflexivity.
Qed.

Lemma logger_init_wf : wf init.
Proof.
  constructor; cbn; try discriminate.
  split; [discriminate | intros [? ?]; discriminate].
Qed.

Lemma ensure_wf s :
  wf s ->
  wf (ensure s) /\
  defaultLogger (ensure s) =
    Some (default (newLogger INFO "json") (defaultLogger s)) /\
  written (ensure s) = written s.
Proof.
  intros Hwf. unfold ensure.
  destruct (defaultLogger s) as [l |] eqn:Hl; [now rewrite Hl |].
  unfold Init, InitWithFormat.
  destruct (once s) eqn:Honce.
  { apply (wf_once s Hwf) in Honce as [l Hl']. congruence. }
  cbn. split; [| auto].
  constructor; cbn.
  - split; eauto.
  - now intros l [= <-].
  - now intros l [= <-].
Qed.

Lemma InitWithFormat_wf lvl fmt s : wf s -> wf (InitWithFormat lvl fmt s).
Proof.
  intros Hwf. unfold InitWithFormat. destruct (once s); [assumption |].
  constructor; cbn.
  - split; eauto.
  - now intros l [= <-].
  - now intros l [= <-].
Qed.

Lemma InitWithFormat_late lvl fmt s l :
  wf s -> defaultLogger s = Some l -> InitWithFormat lvl fmt s = s.
Proof.
  intros Hwf Hl. unfold InitWithFormat.
  assert (Honce : once s = true) by (apply (wf_once s Hwf); eauto).
  now rewrite Honce.
Qed.

Lemma InitWithFormat_first lvl fmt s :
  wf s -> defaultLogger s = None ->
  defaultLogger (InitWithFormat lvl fmt s) = Some (newLogger lvl fmt) /\
  written (InitWithFormat lvl fmt s) = written s.
Proof.
  intros Hwf Hl. unfold InitWithFormat.
  destruct (once s) eqn:Honce; [| auto].
  apply (wf_once s Hwf) in Honce as [l Hl']. congruence.
Qed.

Lemma rank_toZerologLevel k :
  DEBUG <= k <= ERROR -> zerolog_rank (toZerologLevel k) = k.
Proof.
  unfold DEBUG, ERROR. intros Hk.
  assert (Hcases : k = 0 \/ k = 1 \/ k = 2 \/ k = 3) by lia.
  destruct Hcases as [-> | [-> | [-> | ->]]]; reflexivity.
Qed.

Lemma logWithFields_spec l k fields message out :
  logWithFields l k fields message out =
    (out ++
     if (DEBUG <=? k) && (k <=? ERROR)
        && (zerolog_rank (minimum (zlogger l)) <=? k)
     then [{| line_level := toZerologLevel k;
              line_console := console (zlogger l);
              line_fields := fields;
              line_message := message |}]
     else [])%list.
Proof.
  unfold logWithFields, toZerologLevel, zerolog_Msg, DEBUG, INFO, WARN, ERROR.
  destruct (Z.eqb_spec k 0) as [-> | ?];
    [cbn; destruct (_ <=? _); now rewrite ?app_nil_r |].
  destruct (Z.eqb_spec k 1) as [-> | ?];
    [cbn; destruct (_ <=? _); now rewrite ?app_nil_r |].
  destruct (Z.eqb_spec k 2) as [-> | ?];
    [cbn; destruct (_ <=? _); now rewrite ?app_nil_r |].
  destruct (Z.eqb_spec k 3) as [-> | ?];
    [cbn; destruct (_ <=? _); now rewrite ?app_nil_r |].
  replace ((0 <=? k) && (k <=? 3)) with false by lia.
  now rewrite app_nil_r.
Qed.

(** X17. The level is a threshold. On a package state of the invariant,
    [SetLevel(lvl)] followed by a log call at level [k] never panics and
    writes exactly one line, carrying the message, its fields and the
    level [k], when [k] is one of the four levels and not below the
    threshold; it writes nothing when [k] is below it or is not one of the
    four levels. The threshold is [lvl], or INFO when [lvl] is not one of
    the four. [GetLevel] afterwards returns [lvl] as it was given. *)
Theorem X17_level_is_a_threshold lvl k fields message s :
  wf s ->
  exists s1 s2,
    SetLevel lvl s = Some s1 /\
    emit k fields message s1 = Some s2 /\
    wf s2 /\
    GetLevel s2 = Some (lvl, s2) /\
    written s2 =
      (written s ++
       if (DEBUG <=? k) && (k <=? ERROR)
          && (zerolog_rank (toZerologLevel lvl) <=? k)
       then [{| line_level := toZerologLevel k;
                line_console :=
                  match defaultLogger s with
                  | Some l => console (zlogger l)
                  | None => false
                  end;
                line_fields := fields;
                line_message := message |}]
       else [])%list.
Proof.
  intros Hwf.
  destruct (ensure_wf s Hwf) as (Hwfe & Hle & Hwe).
  unfold SetLevel. cbv zeta. rewrite Hle. cbn [mbind option_bind].
  set (l1 := {| level := lvl;
                format := format (default (newLogger INFO "json")
                                    (defaultLogger s));
                zlogger :=
                  {| console := console (zlogger
                                  (default (newLogger INFO "json")
                                     (defaultLogger s)));
                     minimum := toZerologLevel lvl |} |}).
  set (s1 := {| defaultLogger := Some l1; once := once (ensure s);
                written := written (ensure s) |}).
  assert (Hs1 : ensure s1 = s1) by reflexivity.
  exists s1. eexists. split; [reflexivity |].
  unfold emit. cbv zeta. rewrite Hs1. cbn [s1 defaultLogger mbind option_bind].
  split; [reflexivity |].
  split; [| split].
  - constructor; cbn.
    + rewrite (wf_once _ Hwfe), Hle. split; eauto.
    + now intros l [= <-].
    + intros l [= <-]. cbn.
      destruct (defaultLogger s) as [l0 |] eqn:Hl0; cbn.
      * now apply (wf_console s Hwf).
      * reflexivity.
  - reflexivity.
  - cbn [written once]. rewrite logWithFields_spec.
    change (written s1) with (written (ensure s)). rewrite Hwe. cbn.
    destruct (defaultLogger s); reflexivity.
Qed.

(** What a run keeps, from a state in which the logger exists. *)
Lemma step_keeps call s l :
  wf s -> defaultLogger s = Some l ->
  exists s' l' new,
    step call s = Some s' /\
    wf s' /\
    defaultLogger s' = Some l' /\
    format l' = format l /\
    (is_SetLevel call = false -> level l' = level l) /\
    written s' = (written s ++ new)%list /\
    Forall (fun line => line_console line = String.eqb (format l) "text")
      new.
Proof.
  intros Hwf Hl.
  assert (Hensure : ensure s = s) by (unfold ensure; now rewrite Hl).
  destruct call; cbn [step is_SetLevel].
  - rewrite (InitWithFormat_late lvl format0 s l Hwf Hl).
    exists s, l, []. rewrite app_nil_r. auto 10.
  - unfold Init. rewrite (InitWithFormat_late lvl "json" s l Hwf Hl).
    exists s, l, []. rewrite app_nil_r. auto 10.
  - unfold SetLevel. rewrite Hensure, Hl. cbn.
    eexists _, _, []. split; [reflexivity |].
    split.
    { constructor; cbn.
      - rewrite (wf_once s Hwf), Hl. split; eauto.
      - now intros l' [= <-].
      - intros l' [= <-]. cbn. now apply (wf_console s Hwf). }
    split; [reflexivity |]. cbn. rewrite app_nil_r.
    split; [reflexivity |]. split; [discriminate |]. auto.
  - unfold GetLevel. rewrite Hensure, Hl. cbn.
    exists s, l, []. rewrite app_nil_r. auto 10.
  - unfold emit. rewrite Hensure, Hl. cbn.
    rewrite logWithFields_spec.
    eexists _, l, _. split; [reflexivity |].
    split.
    { constructor; cbn.
      - rewrite <- Hl. apply (wf_once s Hwf).
      - intros l' [= <-]. now apply (wf_level s Hwf).
      - intros l' [= <-]. now apply (wf_console s Hwf). }
    cbn. split; [reflexivity |]. split; [reflexivity |].
    split; [reflexivity |]. split; [reflexivity |].
    destruct (_ && _); repeat constructor. cbn.
    now apply (wf_console s Hwf).
Qed.

Lemma run_keeps calls s l :
  wf s -> defaultLogger s = Some l ->
  exists s' l' new,
    run calls s = Some s' /\
    wf s' /\
    defaultLogger s' = Some l' /\
    format l' = format l /\
    (forallb (fun c => negb (is_SetLevel c)) calls = true ->
     level l' = level l) /\
    written s' = (written s ++ new)%list /\
    Forall (fun line => line_console line = String.eqb (format l) "text")
      new.
Proof.
  revert s l. induction calls as [| call rest IH]; intros s l Hwf Hl.
  - exists s, l, []. cbn. rewrite app_nil_r. auto 10.
  - destruct (step_keeps call s l Hwf Hl)
      as (s1 & l1 & new1 & Hstep & Hwf1 & Hl1 & Hfmt1 & Hlvl1 & Hout1 & Hnew1).
    destruct (IH s1 l1 Hwf1 Hl1)
      as (s' & l' & new & Hrun & Hwf' & Hl' & Hfmt' & Hlvl' & Hout' & Hnew').
    exists s', l', (new1 ++ new)%list. cbn [run]. rewrite Hstep. cbn.
    split; [assumption |]. split; [assumption |]. split; [assumption |].
    split; [congruence |].
    split.
    { intros Hno. apply andb_prop in Hno as [Hc Hrest].
      rewrite (Hlvl' Hrest). apply Hlvl1.
      now destruct (is_SetLevel call). }
    split; [now rewrite Hout', Hout1, app_assoc |].
    apply Forall_app. split; [assumption |].
    now rewrite <- Hfmt1.
Qed.

(** X18. Once the logger exists, no sequence of calls into the package
    panics or changes its format, a later [InitWithFormat] or [Init]
    included; only [SetLevel] changes its level; and lines are only ever
    appended, every one through the writer (console or JSON) that the
    format chose. *)
Theorem X18_logger_format_is_fixed_once_initialised calls s l :
  wf s ->
  defaultLogger s = Some l ->
  exists s' l' new,
    run calls s = Some s' /\
    wf s' /\
    defaultLogger s' = Some l' /\
    format l' = format l /\
    (forallb (fun c => negb (is_SetLevel c)) calls = true ->
     level l' = level l) /\
    written s' = (written s ++ new)%list /\
    Forall (fun line => line_console line = String.eqb (format l) "text")
      new.
Proof. apply run_keeps. Qed.

Lemma step_first call s :
  wf s -> defaultLogger s = None ->
  exists s1 l1,
    step call s = Some s1 /\ wf s1 /\
    defaultLogger s1 = Some l1 /\
    format l1 = format (first_logger call) /\
    (is_SetLevel call = false -> level l1 = level (first_logger call)).
Proof.
  intros Hwf Hnone.
  destruct (ensure_wf s Hwf) as (Hwfe & Hle & Hwe).
  rewrite Hnone in Hle. cbn [default] in Hle.
  destruct call; cbn [step first_logger is_SetLevel].
  - destruct (InitWithFormat_first lvl format0 s Hwf Hnone) as [Hl _].
    exists (InitWithFormat lvl format0 s), (newLogger lvl format0).
    split; [reflexivity |].
    split; [now apply InitWithFormat_wf |]. auto.
  - destruct (InitWithFormat_first lvl "json" s Hwf Hnone) as [Hl _].
    exists (Init lvl s), (newLogger lvl "json").
    split; [reflexivity |].
    split; [now apply InitWithFormat_wf |]. auto.
  - unfold SetLevel. cbv zeta. rewrite Hle. cbn [mbind option_bind].
    eexists _, _. split; [reflexivity |].
    split.
    { constructor; cbn.
      - rewrite (wf_once _ Hwfe), Hle. split; eauto.
      - now intros l [= <-].
      - now intros l [= <-]. }
    cbn. split; [reflexivity |]. split; [reflexivity | discriminate].
  - unfold GetLevel. cbv zeta. rewrite Hle. cbn [mbind option_bind fst snd].
    exists (ensure s), (newLogger INFO "json").
    split; [reflexivity |]. split; [assumption |].
    split; [assumption |]. cbn. auto.
  - unfold emit. cbv zeta. rewrite Hle. cbn [mbind option_bind].
    eexists _, _. split; [reflexivity |].
    split.
    { constructor; cbn [defaultLogger once written].
      - rewrite <- Hle. apply (wf_once _ Hwfe).
      - rewrite <- Hle. apply (wf_level _ Hwfe).
      - rewrite <- Hle. apply (wf_console _ Hwfe). }
    cbn. auto.
Qed.

(** X19. The first call into the package decides: starting from program
    start, whatever the first call is, the logger it leaves has the format
    passed to that call if it is [InitWithFormat], and JSON otherwise, and
    keeps it through every later call; it has the level passed to that
    call if it is [InitWithFormat] or [Init], and INFO otherwise, until
    [SetLevel] is called. So a level and format configured through
    [InitWithFormat] take effect only if nothing was logged before. *)
Theorem X19_first_call_decides_format_and_level first rest :
  exists s' l',
    run (first :: rest) init = Some s' /\
    defaultLogger s' = Some l' /\
    format l' = format (first_logger first) /\
    (forallb (fun c => negb (is_SetLevel c)) (first :: rest) = true ->
     level l' = level (first_logger first)).
Proof.
  destruct (step_first first init logger_init_wf eq_refl)
    as (s1 & l1 & Hstep & Hwf1 & Hl1 & Hfmt1 & Hlvl1).
  destruct (run_keeps rest s1 l1 Hwf1 Hl1)
    as (s' & l' & new & Hrun & _ & Hl' & Hfmt' & Hlvl' & _).
  exists s', l'. cbn [run]. rewrite Hstep. cbn [mbind option_bind].
  split; [assumption |]. split; [assumption |].
  split; [congruence |].
  intros Hno. cbn [forallb] in Hno. apply andb_prop in Hno as [Hc Hrest].
  rewrite (Hlvl' Hrest). apply Hlvl1. now destruct (is_SetLevel first).
Qed.

End LoggerFacts.

Section LoggedFacts.

(** A logging call on a package state of the invariant: it goes through
    the logger there is, or the one it makes, and writes its line or
    nothing. *)
Lemma emit_spec k fields message s :
  Logger.wf s ->
  exists s',
    Logger.emit k fields message s = Some s' /\
    Logger.wf s' /\
    Logger.defaultLogger s' = Some (Logged.logger_of s) /\
    Logger.written s' =
      Logger.logWithFields (Logged.logger_of s) k fields message
        (Logger.written s).
Proof.
  intros Hwf.
  destruct (ensure_wf s Hwf) as (Hwfe & Hle & Hwe).
  unfold Logger.emit. cbv zeta. rewrite Hle. cbn [mbind option_bind].
  eexists. split; [reflexivity |].
  cbn [Logger.defaultLogger Logger.written]. rewrite Hwe.
  split; [| split; reflexivity].
  constructor; cbn [Logger.defaultLogger Logger.once Logger.written].
  - rewrite <- Hle. apply (Logger.wf_once _ Hwfe).
  - rewrite <- Hle. apply (Logger.wf_level _ Hwfe).
  - rewrite <- Hle. apply (Logger.wf_console _ Hwfe).
Qed.

(** What the logger writes for a sequence of recorded calls: the lines of
    those that are not below its level, in order. *)
Lemma replay_spec fields entries s :
  Logger.wf s ->
  exists s',
    Logged.replay fields entries s = Some s' /\
    Logger.wf s' /\
    Logger.written s' =
      (Logger.written s
       ++ Logged.lines (Logged.logger_of s) fields entries)%list.
Proof.
  revert s. induction entries as [| e rest IH]; intros s Hwf.
  - exists s. cbn. now rewrite app_nil_r.
  - destruct (emit_spec (Logged.level_of (log_level e)) (fields e)
                (log_message e) s Hwf)
      as (s1 & Hemit & Hwf1 & Hl1 & Hout1).
    destruct (IH s1 Hwf1) as (s' & Hrun & Hwf' & Hout').
    exists s'. unfold Logged.replay in *.
    cbn [fmap list_fmap Logger.run Logged.call_of Logger.step].
    rewrite Hemit. cbn [mbind option_bind].
    split; [exact Hrun |]. split; [assumption |].
    rewrite Hout', Hout1, logWithFields_spec.
    assert (Hsame : Logged.logger_of s1 = Logged.logger_of s).
    { unfold Logged.logger_of at 1. now rewrite Hl1. }
    rewrite Hsame.
    assert (Hrange :
              (Logger.DEBUG <=? Logged.level_of (log_level e))
              && (Logged.level_of (log_level e) <=? Logger.ERROR) = true)
      by (now destruct (log_level e)).
    rewrite Hrange. cbn [andb].
    change (Logger.zerolog_rank
              (Logger.minimum (Logger.zlogger (Logged.logger_of s)))
            <=? Logged.level_of (log_level e))
      with (Logged.writes (Logged.logger_of s) e).
    unfold Logged.lines. rewrite filter_cons.
    destruct (Logged.writes (Logged.logger_of s) e) eqn:Hw;
      case_decide; try congruence.
    + rewrite <- app_assoc. reflexivity.
    + now rewrite app_nil_r.
Qed.

End LoggedFacts.

Section LoggerRuns.
Import Logger.

(** ASCII upper-casing leaves the names of the levels as they are. *)
Lemma ToUpperASCII_names x :
  ToUpperASCII (LogLevel_String x) = LogLevel_String x.
Proof.
  unfold LogLevel_String.
  repeat (destruct (_ =? _); [reflexivity |]). reflexivity.
Qed.

Lemma X16_witness :
  (forall text, DEBUG <= ParseLogLevel ToUpperASCII text <= ERROR) /\
  (DEBUG <= WARN <= ERROR ->
   ParseLogLevel ToUpperASCII (LogLevel_String WARN) = WARN) /\
  (~ DEBUG <= WARN <= ERROR ->
   ParseLogLevel ToUpperASCII (LogLevel_String WARN) = INFO).
Proof.
  apply (X16_ParseLogLevel_inverts_String ToUpperASCII WARN).
  exact ToUpperASCII_names.
Defined.

Lemma X17_witness :
  exists s1 s2,
    SetLevel WARN init = Some s1 /\
    emit INFO ∅ "connected" s1 = Some s2 /\
    wf s2 /\
    GetLevel s2 = Some (WARN, s2) /\
    written s2 =
      (written init ++
       if (DEBUG <=? INFO) && (INFO <=? ERROR)
          && (zerolog_rank (toZerologLevel WARN) <=? INFO)
       then [{| line_level := toZerologLevel INFO;
                line_console :=
                  match defaultLogger init with
                  | Some l => console (zlogger l)
                  | None => false
                  end;
                line_fields := ∅;
                line_message := "connected" |}]
       else [])%list.
Proof.
  apply (X17_level_is_a_threshold WARN INFO ∅ "connected" init).
  exact logger_init_wf.
Defined.

Lemma X18_witness :
  exists s' l' new,
    run [CallInit ERROR; CallEmit WARN ∅ "late"]
      (InitWithFormat DEBUG "text" init) = Some s' /\
    wf s' /\
    defaultLogger s' = Some l' /\
    format l' = format (newLogger DEBUG "text") /\
    (forallb (fun c => negb (is_SetLevel c))
       [CallInit ERROR; CallEmit WARN ∅ "late"] = true ->
     level l' = level (newLogger DEBUG "text")) /\
    written s' = (written (InitWithFormat DEBUG "text" init) ++ new)%list /\
    Forall
      (fun line =>
         line_console line = String.eqb (format (newLogger DEBUG "text")) "text")
      new.
Proof.
  apply (X18_logger_format_is_fixed_once_initialised
           [CallInit ERROR; CallEmit WARN ∅ "late"]
           (InitWithFormat DEBUG "text" init) (newLogger DEBUG "text")).
  - apply InitWithFormat_wf. exact logger_init_wf.
  - reflexivity.
Defined.

End LoggerRuns.

(** ** The QoS calculator *)

Section CalculatorFacts.
Import Connection Strconv Calculator.

Context {P : Parsers} {S : Type} {SS : Store.StateStore S}.

Implicit Types (event : FSEvent) (metrics m : QoSMetrics) (w : World S).

Lemma nonempty_true (s : string) : nonempty s = true <-> s <> "".
Proof.
  unfold nonempty. destruct (String.eqb_spec s ""); simpl; split; congruence.
Qed.

Lemma nonempty_false (s : string) : nonempty s = false <-> s = "".
Proof.
  unfold nonempty. destruct (String.eqb_spec s ""); simpl; split; congruence.
Qed.

Lemma GetHeader_absent event name :
  Headers event !! name = None -> GetHeader event name = "".
Proof. unfold GetHeader. now intros ->. Qed.

Lemma GetHeader_present event name v :
  Headers event !! name = Some v -> GetHeader event name = v.
Proof. unfold GetHeader. now intros ->. Qed.

(** *** Assignments through [assign] *)

Lemma assign_other {A B} (field : QoSMetrics -> B)
    (set : A -> QoSMetrics -> QoSMetrics) (v : option A) m :
  (forall a m', field (set a m') = field m') ->
  field (assign set v m) = field m.
Proof. intros Hset. destruct v; simpl; auto. Qed.

Lemma assign_same {A} (field : QoSMetrics -> A)
    (set : A -> QoSMetrics -> QoSMetrics) (v : option A) m :
  (forall a m', field (set a m') = a) ->
  field (assign set v m) = default (field m) v.
Proof. intros Hset. destruct v; simpl; auto. Qed.

Lemma header_value_unparsed {A} event name (parse : string -> option A) :
  parse (GetHeader event name) = None -> header_value event name parse = None.
Proof. unfold header_value. intros ->. now destruct (nonempty _). Qed.

Lemma header_value_parsed {A} event name (parse : string -> option A) s :
  GetHeader event name = s -> s <> "" ->
  header_value event name parse = parse s.
Proof.
  unfold header_value. intros -> Hs.
  apply nonempty_true in Hs. now rewrite Hs.
Qed.

(** *** The extraction helpers never report an error *)

Lemma extractQualityMetrics_nil event m :
  snd (extractQualityMetrics event m) = None.
Proof. reflexivity. Qed.

Lemma extractTrafficMetrics_nil event m :
  snd (extractTrafficMetrics event m) = None.
Proof. reflexivity. Qed.

Lemma extractCodecInfo_nil event m :
  snd (extractCodecInfo event m) = None.
Proof. reflexivity. Qed.

Lemma extractStateAndDomain_nil w event m :
  snd (extractStateAndDomain w event m) = None.
Proof.
  unfold extractStateAndDomain.
  destruct (Store.Get _ _) as [s1 [state | err]]; [| reflexivity].
  now destruct (Store.Delete _ _).
Qed.

(** *** [extractStateAndDomain], case by case *)


Lemma extractStateAndDomain_fallback w event m s1 err :
  Store.Get (store w) (ChannelID m) = (s1, inr err) ->
  CorrelationID m = "" -> DomainName m = "" ->
  exists m',
    extractStateAndDomain w event m =
      ({| store := s1; logs := logs w |}, m', None) /\
    CorrelationID m' =
      first_non_empty (map (GetHeader event) correlation_headers) /\
    DomainName m' =
      first_non_empty (map (GetHeader event) domain_headers) /\
    ChannelID m' = ChannelID m.
Proof.
  intros HGet HC HD. unfold extractStateAndDomain. rewrite HGet.
  cbv iota beta zeta. eexists. split; [reflexivity |].
  unfold correlation_headers, domain_headers. cbn [map first_non_empty].
  repeat match goal with
         | |- context [nonempty (GetHeader event ?name)] =>
             destruct (nonempty (GetHeader event name))
         end; cbn; auto.
Qed.

(** *** [CalculateMetrics] past its two guards *)

Lemma CalculateMetrics_proceeds w now event instanceName :
  GetHeader event "variable_rtp_use_codec_rate" <> "" ->
  GetHeader event "Unique-ID" <> "" ->
  CalculateMetrics w now event instanceName =
    let m0 := newQoSMetrics now instanceName (GetHeader event "Unique-ID") in
    let m1 := fst (extractQualityMetrics event m0) in
    let m2 := fst (extractTrafficMetrics event m1) in
    let m3 := fst (extractCodecInfo event m2) in
    let r := extractStateAndDomain w event m3 in
    (log DEBUG "QoS metrics calculated successfully" (fst (fst r)),
     (Some (snd (fst r)), None)).
Proof.
  intros Hmarker Huid. unfold CalculateMetrics.
  destruct (String.eqb_spec (GetHeader event "variable_rtp_use_codec_rate") "");
    [contradiction |].
  destruct (String.eqb_spec (GetHeader event "Unique-ID") "");
    [contradiction |].
  cbv zeta.
  change (extractQualityMetrics event ?m)
    with (fst (extractQualityMetrics event m), @None error).
  cbv iota beta.
  change (extractTrafficMetrics event ?m)
    with (fst (extractTrafficMetrics event m), @None error).
  cbv iota beta.
  change (extractCodecInfo event ?m)
    with (fst (extractCodecInfo event m), @None error).
  cbv iota beta.
  pose proof (extractStateAndDomain_nil w event
    (fst (extractCodecInfo event (fst (extractTrafficMetrics event
      (fst (extractQualityMetrics event
        (newQoSMetrics now instanceName (GetHeader event "Unique-ID"))))))))) as Hnil.
  destruct (extractStateAndDomain _ _ _) as [[w' m'] e'].
  simpl in Hnil. subst e'. reflexivity.
Qed.

End CalculatorFacts.

Section CalculatorTheorems.
Import Connection Strconv Calculator.

Context {P : Parsers} {S : Type} {SS : Store.StateStore S}.

Implicit Types (event : FSEvent) (metrics m : QoSMetrics) (w : World S).

(** *** The helpers as field updates

    Each helper overwrites a fixed set of fields; [assign] with nothing to
    assign writes the old value back. *)

Lemma assign_default {A} (field : QoSMetrics -> A)
    (set : A -> QoSMetrics -> QoSMetrics) (v : option A) m :
  (forall m', set (field m') m' = m') ->
  assign set v m = set (default (field m) v) m.
Proof. intros Heta. destruct v; simpl; [reflexivity | now rewrite Heta]. Qed.

Lemma assign_port (field : QoSMetrics -> Z)
    (set : Z -> QoSMetrics -> QoSMetrics) (v : option Z) m :
  (forall m', set (field m') m' = m') ->
  assign (fun port => set (to_uint16 port)) v m =
    set (default (field m) (to_uint16 <$> v)) m.
Proof. intros Heta. destruct v; simpl; [reflexivity | now rewrite Heta]. Qed.

Ltac eta := intros []; reflexivity.

Lemma extractQualityMetrics_eq event m :
  extractQualityMetrics event m =
    let float_header name fallback :=
      default fallback (header_value event name (fun s => ParseFloat s 64)) in
    let mos := float_header "variable_rtp_audio_in_mos" (MOSScore m) in
    let minJitter :=
      float_header "variable_rtp_audio_in_jitter_min_variance" (MinJitter m) in
    let maxJitter :=
      float_header "variable_rtp_audio_in_jitter_max_variance" (MaxJitter m) in
    let avgJitter :=
      if PrimFloat.ltb 0 minJitter || PrimFloat.ltb 0 maxJitter
      then PrimFloat.div (PrimFloat.add minJitter maxJitter) 2
      else AvgJitter m in
    let delta := float_header "variable_rtp_audio_in_mean_interval" (Delta m) in
    (set_Delta delta
       (set_AvgJitter avgJitter
          (set_MaxJitter maxJitter
             (set_MinJitter minJitter (set_MOSScore mos m)))),
     None).
Proof.
  unfold extractQualityMetrics. cbv zeta.
  rewrite (assign_default MOSScore set_MOSScore) by eta.
  rewrite (assign_default MinJitter set_MinJitter) by eta.
  rewrite (assign_default MaxJitter set_MaxJitter) by eta.
  rewrite (assign_default Delta set_Delta) by eta.
  cbn [MinJitter MaxJitter Delta AvgJitter set_MOSScore set_MinJitter
       set_MaxJitter].
  destruct (_ || _); [reflexivity |].
  destruct m; reflexivity.
Qed.

Lemma extractCodecInfo_eq event m :
  extractCodecInfo event m =
    let string_header name fallback :=
      default fallback (header_value event name Some) in
    let int_header name fallback :=
      default fallback (header_value event name Atoi) in
    let port_header name fallback :=
      default fallback
        (to_uint16 <$> header_value event name (fun s => ParseUint s 10 16)) in
    (set_ReportTimestamp
       (default (ReportTimestamp m)
          (header_value event "Event-Date-Timestamp"
             (fun s => ParseInt s 10 64)))
    (set_DstPort (port_header "variable_remote_media_port" (DstPort m))
    (set_DstIP (string_header "variable_remote_media_ip" (DstIP m))
    (set_SrcPort (port_header "variable_local_media_port" (SrcPort m))
    (set_SrcIP (string_header "variable_local_media_ip" (SrcIP m))
    (set_ClockRate (int_header "variable_rtp_use_codec_rate" (ClockRate m))
    (set_PTime (int_header "variable_rtp_use_codec_ptime" (PTime m))
    (set_CodecPT (int_header "variable_rtp_use_codec_pt" (CodecPT m))
    (set_CodecName (string_header "variable_rtp_use_codec_name" (CodecName m))
       m)))))))),
     None).
Proof.
  unfold extractCodecInfo. cbv zeta.
  rewrite (assign_default CodecName set_CodecName) by eta.
  rewrite (assign_default CodecPT set_CodecPT) by eta.
  rewrite (assign_default PTime set_PTime) by eta.
  rewrite (assign_default ClockRate set_ClockRate) by eta.
  rewrite (assign_default SrcIP set_SrcIP) by eta.
  rewrite (assign_default DstIP set_DstIP) by eta.
  rewrite (assign_default ReportTimestamp set_ReportTimestamp) by eta.
  rewrite (assign_port SrcPort set_SrcPort) by eta.
  rewrite (assign_port DstPort set_DstPort) by eta.
  reflexivity.
Qed.

(** *** What [CalculateMetrics] returns past its guards *)

Local Abbreviation measured event m0 :=
  (fst (extractCodecInfo event
     (fst (extractTrafficMetrics event
        (fst (extractQualityMetrics event m0)))))).

Lemma measured_ChannelID event m0 :
  ChannelID (measured event m0) = ChannelID m0.
Proof.
  rewrite extractQualityMetrics_eq. cbv zeta. cbn [fst].
  unfold extractTrafficMetrics. cbv zeta. cbn [fst].
  rewrite extractCodecInfo_eq. reflexivity.
Qed.

Lemma measured_CorrelationID event m0 :
  CorrelationID (measured event m0) = CorrelationID m0.
Proof.
  rewrite extractQualityMetrics_eq. cbv zeta. cbn [fst].
  unfold extractTrafficMetrics. cbv zeta. cbn [fst].
  rewrite extractCodecInfo_eq. reflexivity.
Qed.

Lemma measured_DomainName event m0 :
  DomainName (measured event m0) = DomainName m0.
Proof.
  rewrite extractQualityMetrics_eq. cbv zeta. cbn [fst].
  unfold extractTrafficMetrics. cbv zeta. cbn [fst].
  rewrite extractCodecInfo_eq. reflexivity.
Qed.

(** [extractStateAndDomain] writes [CorrelationID] and [DomainName] and
    nothing else. *)
Lemma extractStateAndDomain_writes w event m :
  exists correlationID domainName,
    snd (fst (extractStateAndDomain w event m)) =
      set_DomainName domainName (set_CorrelationID correlationID m).
Proof.
  unfold extractStateAndDomain.
  destruct (Store.Get _ _) as [s1 [state | err]].
  - destruct (Store.Delete _ _) as [s2 delErr]. cbn. eauto.
  - cbv zeta. cbn [fst snd].
    repeat match goal with
           | |- context [nonempty (GetHeader event ?name)] =>
               destruct (nonempty (GetHeader event name))
           end;
      try (do 2 eexists; reflexivity);
      try (exists (CorrelationID m); eexists; destruct m; reflexivity);
      try (eexists; exists (DomainName m); destruct m; reflexivity);
      try (exists (CorrelationID m), (DomainName m); destruct m; reflexivity).
Qed.

Lemma CalculateMetrics_returns w now event instanceName :
  GetHeader event "variable_rtp_use_codec_rate" <> "" ->
  GetHeader event "Unique-ID" <> "" ->
  exists m w' correlationID domainName,
    CalculateMetrics w now event instanceName = (w', (Some m, None)) /\
    m = set_DomainName domainName
          (set_CorrelationID correlationID
             (measured event
                (newQoSMetrics now instanceName
                   (GetHeader event "Unique-ID")))).
Proof.
  intros Hmarker Huid.
  rewrite CalculateMetrics_proceeds by assumption. cbv zeta.
  destruct (extractStateAndDomain_writes w event
    (measured event
       (newQoSMetrics now instanceName (GetHeader event "Unique-ID"))))
    as (c & d & Heq).
  do 4 eexists. split; [reflexivity | exact Heq].
Qed.

(** C2 (as amended). A termination event without the codec marker
    [variable_rtp_use_codec_rate] (absent, or present and empty) produces
    no metric and leaves the store and the log as they were; the skip is
    reported to the caller as an error value, the one whose message says
    that the calculation is skipped. *)
Theorem C2_marker_absent_is_reported_skip w now event instanceName :
  GetHeader event "variable_rtp_use_codec_rate" = "" ->
  CalculateMetrics w now event instanceName = (w, (None, Some ErrSkip)).
Proof.
  intros Hmarker. unfold CalculateMetrics. now rewrite Hmarker.
Qed.

(** C8. With the codec marker present and [Unique-ID] absent or empty,
    [CalculateMetrics] returns an error and no metric (and touches neither
    the store nor the log). *)
Theorem C8_missing_unique_id_is_error w now event instanceName :
  GetHeader event "variable_rtp_use_codec_rate" <> "" ->
  GetHeader event "Unique-ID" = "" ->
  CalculateMetrics w now event instanceName =
    (w, (None, Some ErrNoUniqueID)).
Proof.
  intros Hmarker Huid. unfold CalculateMetrics.
  destruct (String.eqb_spec (GetHeader event "variable_rtp_use_codec_rate") "");
    [contradiction |].
  now rewrite Huid.
Qed.


(** C3. When the lookup returns no state (whatever the error), the metric
    is still emitted, its [CorrelationID] is the first non-empty of
    [Other-Leg-Unique-ID], [Unique-ID], [variable_sip_call_id],
    [variable_global_call_id], and its [DomainName] the first non-empty of
    [variable_domain_name], [variable_sip_from_host],
    [variable_sip_to_host], else empty. In particular
    [Other-Leg-Unique-ID=X] (a non-empty [X]) wins over
    [variable_sip_call_id=Y], and [variable_sip_from_host=a.com] is taken
    when there is no [variable_domain_name]. *)
Theorem C3_fallback_follows_header_priority
    w now event instanceName s1 err :
  GetHeader event "variable_rtp_use_codec_rate" <> "" ->
  GetHeader event "Unique-ID" <> "" ->
  Store.Get (store w) (GetHeader event "Unique-ID") = (s1, inr err) ->
  exists m w',
    CalculateMetrics w now event instanceName = (w', (Some m, None)) /\
    store w' = s1 /\
    CorrelationID m =
      first_non_empty (map (GetHeader event) correlation_headers) /\
    DomainName m =
      first_non_empty (map (GetHeader event) domain_headers) /\
    (forall X Y,
       X <> "" ->
       Headers event !! "Other-Leg-Unique-ID" = Some X ->
       Headers event !! "variable_sip_call_id" = Some Y ->
       CorrelationID m = X) /\
    (Headers event !! "variable_domain_name" = None ->
     Headers event !! "variable_sip_from_host" = Some "a.com" ->
     DomainName m = "a.com").
Proof.
  intros Hmarker Huid HGet.
  rewrite CalculateMetrics_proceeds by assumption. cbv zeta.
  destruct (extractStateAndDomain_fallback w event
    (measured event
       (newQoSMetrics now instanceName (GetHeader event "Unique-ID")))
    s1 err) as (m' & Heq & HC & HD & _).
  { now rewrite measured_ChannelID. }
  { now rewrite measured_CorrelationID. }
  { now rewrite measured_DomainName. }
  rewrite Heq. cbn [fst snd].
  do 2 eexists. split; [reflexivity |].
  split; [reflexivity |]. split; [exact HC |]. split; [exact HD |].
  split.
  - intros X Y HX HO _. rewrite HC.
    unfold correlation_headers. cbn [map first_non_empty].
    rewrite (GetHeader_present _ _ _ HO).
    apply nonempty_true in HX. now rewrite HX.
  - intros Hdom Hfrom. rewrite HD.
    unfold domain_headers. cbn [map first_non_empty].
    rewrite (GetHeader_absent _ _ Hdom), (GetHeader_present _ _ _ Hfrom).
    reflexivity.
Qed.

(** The measured fields of the metric that [CalculateMetrics] emits. *)
Ltac measure :=
  rewrite extractQualityMetrics_eq; cbv zeta; cbn [fst];
  unfold extractTrafficMetrics; cbv zeta; cbn [fst];
  rewrite extractCodecInfo_eq; cbv zeta; cbn [fst].

(** C5. For a termination event with the codec marker, [Unique-ID=U1],
    [variable_rtp_audio_in_mos=4.2] and jitter variances 1.0 and 3.0, read
    by a parser that maps these three numerals to their binary64 values,
    the metric is emitted with [MOSScore] 4.2 and [AvgJitter] 2.0, the
    latter being (min + max) / 2. *)
Theorem C5_scenario_quality_values w now event instanceName :
  GetHeader event "variable_rtp_use_codec_rate" <> "" ->
  GetHeader event "Unique-ID" = "U1" ->
  GetHeader event "variable_rtp_audio_in_mos" = "4.2" ->
  GetHeader event "variable_rtp_audio_in_jitter_min_variance" = "1.0" ->
  GetHeader event "variable_rtp_audio_in_jitter_max_variance" = "3.0" ->
  ParseFloat "4.2" 64 = Some 0x1.0cccccccccccdp+2%float ->
  ParseFloat "1.0" 64 = Some 1%float ->
  ParseFloat "3.0" 64 = Some 3%float ->
  exists m w',
    CalculateMetrics w now event instanceName = (w', (Some m, None)) /\
    ChannelID m = "U1" /\
    MOSScore m = 0x1.0cccccccccccdp+2%float /\
    MinJitter m = 1%float /\
    MaxJitter m = 3%float /\
    AvgJitter m = 2%float /\
    AvgJitter m = PrimFloat.div (PrimFloat.add (MinJitter m) (MaxJitter m)) 2.
Proof.
  intros Hmarker Huid Hmos Hmin Hmax Pmos Pmin Pmax.
  destruct (CalculateMetrics_returns w now event instanceName)
    as (m & w' & c & d & Heq & Hm); [assumption | now rewrite Huid |].
  exists m, w'. split; [exact Heq |].
  assert (Hvmos : header_value event "variable_rtp_audio_in_mos"
                    (fun s => ParseFloat s 64) = Some 0x1.0cccccccccccdp+2%float).
  { now rewrite (header_value_parsed _ _ _ "4.2"). }
  assert (Hvmin : header_value event "variable_rtp_audio_in_jitter_min_variance"
                    (fun s => ParseFloat s 64) = Some 1%float).
  { now rewrite (header_value_parsed _ _ _ "1.0"). }
  assert (Hvmax : header_value event "variable_rtp_audio_in_jitter_max_variance"
                    (fun s => ParseFloat s 64) = Some 3%float).
  { now rewrite (header_value_parsed _ _ _ "3.0"). }
  subst m. revert Hvmos Hvmin Hvmax. measure. intros Hvmos Hvmin Hvmax.
  cbn [ChannelID MOSScore MinJitter MaxJitter AvgJitter newQoSMetrics
       set_DomainName set_CorrelationID set_ReportTimestamp set_DstPort
       set_DstIP set_SrcPort set_SrcIP set_ClockRate set_PTime set_CodecPT
       set_CodecName set_PacketLoss set_TotalBytes set_TotalPackets
       set_Delta set_AvgJitter set_MaxJitter set_MinJitter set_MOSScore].
  rewrite Hvmos, Hvmin, Hvmax, Huid. cbn [default].
  repeat split; reflexivity.
Qed.

Lemma int64_header_unparsed event name :
  ParseInt (GetHeader event name) 10 64 = None -> int64_header event name = 0.
Proof.
  intros Hfail. unfold int64_header.
  now rewrite (header_value_unparsed event name (fun s => ParseInt s 10 64)).
Qed.

(** C9 (as amended). The three extraction helpers return a nil error on
    every event, so an unparsable number never makes [CalculateMetrics]
    fail: past its two guards it always emits a metric. In that metric a
    field read from a single header keeps its zero value when the header
    does not parse; a total is the [int64] sum of its inbound and outbound
    counts, where a count that does not parse is zero (so the total is then
    the other count, which need not be zero). *)
Theorem C9_unparsable_numbers_never_fail w now event instanceName :
  (forall m0,
     snd (extractQualityMetrics event m0) = None /\
     snd (extractTrafficMetrics event m0) = None /\
     snd (extractCodecInfo event m0) = None) /\
  (GetHeader event "variable_rtp_use_codec_rate" <> "" ->
   GetHeader event "Unique-ID" <> "" ->
   exists m w',
     CalculateMetrics w now event instanceName = (w', (Some m, None)) /\
     Forall (fun '(name, field) =>
               ParseFloat (GetHeader event name) 64 = None ->
               field m = 0%float) float_fields /\
     Forall (fun '(name, parse, field) =>
               parse (GetHeader event name) = None ->
               field m = 0) integer_fields /\
     Forall (fun '(inbound, outbound, field) =>
               field m = add64 (int64_header event inbound)
                               (int64_header event outbound) /\
               (ParseInt (GetHeader event inbound) 10 64 = None ->
                field m = add64 0 (int64_header event outbound)) /\
               (ParseInt (GetHeader event outbound) 10 64 = None ->
                field m = add64 (int64_header event inbound) 0))
            total_fields).
Proof.
  split; [intros m0; repeat split |].
  intros Hmarker Huid.
  destruct (CalculateMetrics_returns w now event instanceName)
    as (m & w' & c & d & Heq & Hm); [assumption | assumption |].
  exists m, w'. split; [exact Heq |].
  subst m. measure.
  split; [| split].
  - repeat constructor; intros Hfail;
      cbn [MOSScore MinJitter MaxJitter Delta newQoSMetrics
           set_DomainName set_CorrelationID set_ReportTimestamp set_DstPort
           set_DstIP set_SrcPort set_SrcIP set_ClockRate set_PTime
           set_CodecPT set_CodecName set_PacketLoss set_TotalBytes
           set_TotalPackets set_Delta set_AvgJitter set_MaxJitter
           set_MinJitter set_MOSScore];
      now rewrite (header_value_unparsed _ _ _ Hfail).
  - repeat constructor; intros Hfail;
      cbn [CodecPT PTime ClockRate SrcPort DstPort ReportTimestamp
           newQoSMetrics
           set_DomainName set_CorrelationID set_ReportTimestamp set_DstPort
           set_DstIP set_SrcPort set_SrcIP set_ClockRate set_PTime
           set_CodecPT set_CodecName set_PacketLoss set_TotalBytes
           set_TotalPackets set_Delta set_AvgJitter set_MaxJitter
           set_MinJitter set_MOSScore];
      now rewrite (header_value_unparsed _ _ _ Hfail).
  - repeat constructor; try intros Hfail;
      cbn [TotalPackets TotalBytes PacketLoss newQoSMetrics
           set_DomainName set_CorrelationID set_ReportTimestamp set_DstPort
           set_DstIP set_SrcPort set_SrcIP set_ClockRate set_PTime
           set_CodecPT set_CodecName set_PacketLoss set_TotalBytes
           set_TotalPackets set_Delta set_AvgJitter set_MaxJitter
           set_MinJitter set_MOSScore];
      try reflexivity;
      now rewrite (int64_header_unparsed _ _ Hfail).
Qed.

End CalculatorTheorems.

(** *** The modelled stores keep the contract *)

Section StoreContract.
Import Store.

#[global] Instance memoryStore_contract : StateStoreContract MemoryStore.
Proof.
  constructor. intros s s' key Hdel.
  cbn in Hdel. unfold mem_Delete in Hdel.
  injection Hdel as <-.
  exists {| entries := delete key (entries s); clock := clock s |}.
  cbn. unfold mem_Get. cbn. now rewrite lookup_delete_eq.
Qed.

Lemma mem_Get_after_Delete s key :
  exists s', mem_Get (fst (mem_Delete s key)) key = (s', inr ErrNotFound).
Proof.
  unfold mem_Delete, mem_Get. cbn. rewrite lookup_delete_eq. eauto.
Qed.

(** The networked store keeps the contract as long as the backend
    answers: after a [Delete] that succeeded, a [Get] of the key answers
    not-found, or fails with the backend's error during an outage; it
    never returns a state. *)
Lemma remote_Get_after_Delete (s s' : RemoteStore) key :
  Delete s key = (s', None) ->
  exists s'',
    Get s' key =
      (s'', inr (match outages s' with
                 | true :: _ => ErrBackend
                 | _ => ErrNotFound
                 end)).
Proof.
  intros Hdel.
  assert (Hsrv : server s' = fst (mem_Delete (server s) key)).
  { cbn in Hdel. unfold request in Hdel.
    destruct (outages s) as [| [|] rest]; cbn in Hdel;
      try discriminate; now injection Hdel as <-. }
  destruct (mem_Get_after_Delete (server s) key) as (m' & Hget).
  cbn. unfold request. rewrite Hsrv.
  destruct (outages s') as [| [|] rest]; rewrite ?Hget; eauto.
Qed.

End StoreContract.

(** *** Runs on concrete events *)

Section CalculatorRuns.
Import Connection Strconv Calculator Scenario.



(** What the logger writes in the two runs, at the level INFO that it has
    when nothing configured it: on the in-process store nothing, the
    closing [DebugWithFields] being below the level; on the networked
    store whose [Delete] fails, the warning alone. *)
Example written_at_default_level :
  (Logger.written <$>
     Logged.replay (fun _ => ∅)
       (logs (fst (CalculateMetrics (P := decimal) (world memory_U1) 20
                     termination_U1 "fs1")))
       Logger.init) = Some [] /\
  (Logger.written <$>
     Logged.replay (fun _ => ∅)
       (logs (fst (CalculateMetrics (P := decimal) (world remote_U1) 20
                     termination_U1 "fs1")))
       Logger.init)
  = Some [Logged.line (Logger.newLogger Logger.INFO "json") (fun _ => ∅)
            Reported.delete_failed].
Proof. split; vm_compute; reflexivity. Qed.

(** C2, counterexample: without the marker the caller receives a non-nil
    error. *)
Lemma C2_counterexample :
  snd (snd (CalculateMetrics (P := decimal) (world memory_U1) 20
              termination_U1_no_codec "fs1"))
  = Some "variable_rtp_use_codec_rate not present, skipping QoS calculation"
  /\ GetHeader termination_U1_no_codec "variable_rtp_use_codec_rate" = "".
Proof. split; reflexivity. Qed.

Lemma C2_witness :
  CalculateMetrics (P := decimal) (world memory_U1) 20
    termination_U1_no_codec "fs1"
  = (world memory_U1, (None, Some ErrSkip)).
Proof.
  apply (C2_marker_absent_is_reported_skip (P := decimal)).
  reflexivity.
Defined.

Lemma C8_witness :
  CalculateMetrics (P := decimal) (world memory_U1) 20
    termination_anonymous "fs1"
  = (world memory_U1, (None, Some ErrNoUniqueID)).
Proof.
  apply (C8_missing_unique_id_is_error (P := decimal)).
  - vm_compute. discriminate.
  - reflexivity.
Defined.

Lemma C3_witness :
  exists m w',
    CalculateMetrics (P := decimal) (world memory_U1) 20 termination_U2 "fs1"
      = (w', (Some m, None)) /\
    store w' = memory_U1 /\
    CorrelationID m =
      first_non_empty (map (GetHeader termination_U2) correlation_headers) /\
    DomainName m =
      first_non_empty (map (GetHeader termination_U2) domain_headers) /\
    (forall X Y,
       X <> "" ->
       Headers termination_U2 !! "Other-Leg-Unique-ID" = Some X ->
       Headers termination_U2 !! "variable_sip_call_id" = Some Y ->
       CorrelationID m = X) /\
    (Headers termination_U2 !! "variable_domain_name" = None ->
     Headers termination_U2 !! "variable_sip_from_host" = Some "a.com" ->
     DomainName m = "a.com").
Proof.
  apply (C3_fallback_follows_header_priority (P := decimal)
           (world memory_U1) 20 termination_U2 "fs1"
           memory_U1 Store.ErrNotFound).
  - vm_compute. discriminate.
  - vm_compute. discriminate.
  - reflexivity.
Defined.

Lemma C5_witness :
  exists m w',
    CalculateMetrics (P := decimal) (world memory_U1) 20 termination_U1 "fs1"
      = (w', (Some m, None)) /\
    ChannelID m = "U1" /\
    MOSScore m = 0x1.0cccccccccccdp+2%float /\
    MinJitter m = 1%float /\
    MaxJitter m = 3%float /\
    AvgJitter m = 2%float /\
    AvgJitter m = PrimFloat.div (PrimFloat.add (MinJitter m) (MaxJitter m)) 2.
Proof.
  apply (C5_scenario_quality_values (P := decimal)).
  - vm_compute. discriminate.
  - reflexivity.
  - reflexivity.
  - reflexivity.
  - reflexivity.
  - reflexivity.
  - reflexivity.
  - reflexivity.
Defined.

(** C9, counterexample: the inbound packet count does not parse, the
    outbound one is 5; the metric is emitted and [TotalPackets] is 5, not
    its zero value. *)
Lemma C9_counterexample :
  ParseInt (Parsers := decimal)
    (GetHeader termination_garbled "variable_rtp_audio_in_packet_count")
    10 64 = None /\
  exists m w',
    CalculateMetrics (P := decimal) (world memory_empty) 20
      termination_garbled "fs1" = (w', (Some m, None)) /\
    TotalPackets m = 5 /\ TotalPackets m <> 0.
Proof.
  split; [reflexivity |].
  do 2 eexists. split; [vm_compute; reflexivity |].
  split; [reflexivity | discriminate].
Qed.

(** The other two ways of finding no state: the entry has expired (and is
    dropped by the read), or the store cannot be reached. The termination
    event of scenario A then yields its own [Unique-ID] as [CorrelationID]
    and an empty [DomainName]. *)
Example fallback_on_expiry_and_outage :
  (exists m w',
     CalculateMetrics (P := decimal) (world memory_U1_late) 20
       termination_U1 "fs1" = (w', (Some m, None)) /\
     CorrelationID m = "U1" /\ DomainName m = "" /\
     Store.entries (store w') = ∅) /\
  (exists m w',
     CalculateMetrics (P := decimal) (world remote_down) 20
       termination_U1 "fs1" = (w', (Some m, None)) /\
     CorrelationID m = "U1" /\ DomainName m = "" /\
     Store.server (store w') = memory_U1).
Proof.
  split; (do 2 eexists; split; [vm_compute; reflexivity |]);
    repeat split; vm_compute; reflexivity.
Qed.

End CalculatorRuns.

(** ** The stats registry *)

Section MetricsFacts.
Import Metrics.

Implicit Types (s : State) (reg : InternalMetrics) (c : Counter)
  (fam : gmap string (gmap string ptr)) (cs : gmap ptr Z) (p q m : ptr).

Lemma wrap64_range z : min_int64 <= wrap64 z <= max_int64.
Proof.
  unfold wrap64, min_int64, max_int64.
  pose proof (Z.mod_pos_bound (z + 2 ^ 63) (2 ^ 64)). lia.
Qed.

Lemma wrap64_small z : min_int64 <= z <= max_int64 -> wrap64 z = z.
Proof.
  unfold wrap64, min_int64, max_int64. intros Hz.
  rewrite Z.mod_small; lia.
Qed.

(** *** Maps of maps *)

Lemma inner_insert fam k1 (x : gmap string ptr) j1 :
  inner (<[k1 := x]> fam) j1 = if decide (k1 = j1) then x else inner fam j1.
Proof. unfold inner. rewrite lookup_insert. now case_decide. Qed.

Lemma inner_ensure_map fam k1 j1 : inner (ensure_map fam k1) j1 = inner fam j1.
Proof.
  unfold ensure_map. destruct (fam !! k1) eqn:Hk1; [reflexivity |].
  rewrite inner_insert. case_decide; [subst |]; [| reflexivity].
  unfold inner. now rewrite Hk1.
Qed.

Lemma fresh_cell cs : cs !! fresh (dom cs) = None.
Proof. apply not_elem_of_dom, is_fresh. Qed.

(** What [increment2] does to the map and to the cells: the counter of
    [(k1, k2)] has an address afterwards, the cell there holds one more
    than before (counting from zero when the counter is new), and no other
    key changes its address. *)
Lemma increment2_spec fam k1 k2 cs :
  (forall q, inner fam k1 !! k2 = Some q -> is_Some (cs !! q)) ->
  exists fam' p,
    increment2 fam k1 k2 cs =
      Some (fam',
            <[p := add64 (default 0 (inner fam k1 !! k2 ≫= (cs !!.))) 1]> cs) /\
    inner fam' k1 !! k2 = Some p /\
    (forall j1 j2, (j1, j2) <> (k1, k2) ->
                   inner fam' j1 !! j2 = inner fam j1 !! j2) /\
    (inner fam k1 !! k2 = Some p \/
     (inner fam k1 !! k2 = None /\ cs !! p = None)).
Proof.
  intros Halloc. unfold increment2, ensure_cell2, new_cell.
  rewrite inner_ensure_map.
  destruct (inner fam k1 !! k2) as [q |] eqn:Hq.
  - destruct (Halloc q eq_refl) as [v Hv].
    rewrite inner_ensure_map, Hq. cbn. rewrite Hv. cbn.
    exists (ensure_map fam k1), q. split; [reflexivity |].
    split; [now rewrite inner_ensure_map |].
    split; [intros; now rewrite inner_ensure_map | now left].
  - set (p := fresh (dom cs)).
    rewrite inner_insert, decide_True by reflexivity.
    rewrite lookup_insert_eq. cbn. rewrite lookup_insert_eq. cbn.
    rewrite insert_insert_eq.
    eexists _, p. split; [reflexivity |].
    rewrite inner_insert, decide_True by reflexivity.
    split; [apply lookup_insert_eq |].
    split; [| right; split; [reflexivity | apply fresh_cell]].
    intros j1 j2 Hne. rewrite inner_insert. case_decide as Hk.
    + subst j1. rewrite lookup_insert_ne by congruence.
      now rewrite ?inner_ensure_map.
    + now rewrite inner_ensure_map.
Qed.

Lemma ensure_cell1_spec (fam1 : gmap string ptr) k cs :
  exists p,
    fst (ensure_cell1 fam1 k cs) !! k = Some p /\
    (forall j, j <> k -> fst (ensure_cell1 fam1 k cs) !! j = fam1 !! j) /\
    ((fam1 !! k = Some p /\ snd (ensure_cell1 fam1 k cs) = cs) \/
     (fam1 !! k = None /\ cs !! p = None /\
      snd (ensure_cell1 fam1 k cs) = <[p := 0]> cs)).
Proof.
  unfold ensure_cell1, new_cell. destruct (fam1 !! k) as [q |] eqn:Hq.
  - exists q. cbn. auto.
  - exists (fresh (dom cs)). cbn. rewrite lookup_insert_eq.
    split; [reflexivity |].
    split; [intros; now apply lookup_insert_ne |].
    right. auto using fresh_cell.
Qed.

(** *** One counter written, the rest framed

    Every method of the registry ends by writing one cell through one
    counter of one struct. [reg'] is the struct after the method, [c0] the
    counter, [p] its address and [v'] the value written. *)
Lemma update_spec s m reg reg' c0 p v' :
  wf s ->
  objects s !! m = Some reg ->
  min_int64 <= v' <= max_int64 ->
  address reg' c0 = Some p ->
  (forall c, c <> c0 -> address reg' c = address reg c) ->
  (address reg c0 = Some p \/ (address reg c0 = None /\ cells s !! p = None)) ->
  let s' := update m reg' (<[p := v']> (cells s)) s in
  wf s' /\
  value s' m c0 = Some v' /\
  others_unchanged s s' m c0.
Proof.
  intros Hwf Hm Hv' Hp Hother Hold s'.
  (* any other counter was there before, at an address other than [p] *)
  assert (Hframe : forall m' reg1 c' q,
            objects s' !! m' = Some reg1 -> address reg1 c' = Some q ->
            (m', c') <> (m, c0) ->
            q <> p /\ exists reg0,
              objects s !! m' = Some reg0 /\ address reg0 c' = Some q).
  { intros m' reg1 c' q Hobj Haddr Hne. cbn in Hobj.
    assert (Hwas : exists reg0,
              objects s !! m' = Some reg0 /\ address reg0 c' = Some q).
    { destruct (decide (m = m')) as [<- | Hmm'].
      - rewrite lookup_insert_eq in Hobj. injection Hobj as <-.
        exists reg. split; [assumption |].
        rewrite <- Hother; [assumption | congruence].
      - rewrite lookup_insert_ne in Hobj by assumption. eauto. }
    split; [| exact Hwas].
    destruct Hwas as (reg0 & Hobj0 & Haddr0). intros ->.
    destruct Hold as [Hold | [_ Hnew]].
    - destruct (wf_separate s Hwf _ _ _ _ _ _ _ Hobj0 Haddr0 Hm Hold).
      congruence.
    - destruct (wf_allocated s Hwf _ _ _ _ Hobj0 Haddr0) as [v Hv].
      congruence. }
  assert (Hhere : objects s' !! m = Some reg')
    by (cbn; apply lookup_insert_eq).
  split; [constructor |].
  - (* allocated *)
    intros m' reg1 c' q Hobj Haddr. cbn [s' cells update].
    destruct (decide ((m', c') = (m, c0))) as [Heq | Hne].
    + injection Heq as -> ->. rewrite Hhere in Hobj. injection Hobj as <-.
      rewrite Hp in Haddr. injection Haddr as <-.
      rewrite lookup_insert_eq. eauto.
    + destruct (Hframe _ _ _ _ Hobj Haddr Hne) as (Hq & reg0 & Hobj0 & Haddr0).
      rewrite lookup_insert_ne by congruence.
      eapply wf_allocated; eassumption.
  - (* separate *)
    intros m1 reg1 c1 m2 reg2 c2 q Hobj1 Haddr1 Hobj2 Haddr2.
    destruct (decide ((m1, c1) = (m, c0))) as [Heq1 | Hne1];
      destruct (decide ((m2, c2) = (m, c0))) as [Heq2 | Hne2].
    + injection Heq1 as -> ->. injection Heq2 as -> ->. auto.
    + injection Heq1 as -> ->. rewrite Hhere in Hobj1. injection Hobj1 as <-.
      rewrite Hp in Haddr1. injection Haddr1 as <-.
      destruct (Hframe _ _ _ _ Hobj2 Haddr2 Hne2) as [Hq _]. congruence.
    + injection Heq2 as -> ->. rewrite Hhere in Hobj2. injection Hobj2 as <-.
      rewrite Hp in Haddr2. injection Haddr2 as <-.
      destruct (Hframe _ _ _ _ Hobj1 Haddr1 Hne1) as [Hq _]. congruence.
    + destruct (Hframe _ _ _ _ Hobj1 Haddr1 Hne1) as (_ & r1 & Ho1 & Ha1).
      destruct (Hframe _ _ _ _ Hobj2 Haddr2 Hne2) as (_ & r2 & Ho2 & Ha2).
      eapply wf_separate; eassumption.
  - (* int64 *)
    intros q v. cbn [s' cells update]. rewrite lookup_insert.
    case_decide; [intros [= <-]; assumption | apply (wf_int64 s Hwf)].
  - (* global *)
    intros g Hg. cbn in *. rewrite lookup_insert. case_decide; [eauto |].
    now apply (wf_global s Hwf).
  - (* single *)
    intros m' Hm'. cbn in *. rewrite lookup_insert in Hm'.
    case_decide; [subst m' |]; apply (wf_single s Hwf); eauto.
  - (* once *)
    exact (wf_once s Hwf).
  - split.
    + unfold value. rewrite Hhere. cbn. rewrite Hp. cbn.
      apply lookup_insert_eq.
    + intros m' c' Hne. unfold value.
      destruct (objects s' !! m') as [reg1 |] eqn:Hobj; cbn.
      * destruct (address reg1 c') as [q |] eqn:Haddr; cbn.
        -- destruct (Hframe _ _ _ _ Hobj Haddr Hne)
             as (Hq & reg0 & Hobj0 & Haddr0).
           rewrite Hobj0. cbn. rewrite Haddr0. cbn.
           now rewrite lookup_insert_ne by congruence.
        -- cbn in Hobj. destruct (decide (m = m')) as [<- | Hmm'].
           ++ rewrite lookup_insert_eq in Hobj. injection Hobj as <-.
              rewrite Hm. cbn.
              rewrite <- Hother by congruence. now rewrite Haddr.
           ++ rewrite lookup_insert_ne in Hobj by assumption.
              rewrite Hobj. cbn. now rewrite Haddr.
      * cbn in Hobj. rewrite lookup_insert in Hobj.
        case_decide; [discriminate |]. now rewrite Hobj.
Qed.

(** *** The two-level methods *)

Lemma two_level_spec f k1 k2 s m reg
    (rebuild : gmap string (gmap string ptr) -> InternalMetrics) :
  wf s ->
  objects s !! m = Some reg ->
  (forall fam', family2 f (rebuild fam') = fam') ->
  (forall fam' f', f' <> f -> family2 f' (rebuild fam') = family2 f' reg) ->
  (forall fam' f1, family1 f1 (rebuild fam') = family1 f1 reg) ->
  exists s',
    ('(fam, cs) ← increment2 (family2 f reg) k1 k2 (cells s);
     Some (update m (rebuild fam) cs s)) = Some s' /\
    wf s' /\
    value s' m (Counter2 f k1 k2) =
      Some (add64 (default 0 (value s m (Counter2 f k1 k2))) 1) /\
    others_unchanged s s' m (Counter2 f k1 k2).
Proof.
  intros Hwf Hm Hsame Hfam2 Hfam1.
  destruct (increment2_spec (family2 f reg) k1 k2 (cells s))
    as (fam' & p & Hinc & Hp & Hothers & Hold).
  { intros q Hq.
    exact (wf_allocated s Hwf m reg (Counter2 f k1 k2) q Hm Hq). }
  rewrite Hinc. cbn [mbind option_bind].
  eexists. split; [reflexivity |].
  replace (inner (family2 f reg) k1 !! k2 ≫= (cells s !!.))
    with (value s m (Counter2 f k1 k2))
    by (unfold value; rewrite Hm; reflexivity).
  apply (update_spec s m reg); try assumption.
  - apply wrap64_range.
  - cbn. now rewrite Hsame.
  - intros [f' j1 j2 | f1 j] Hne; cbn.
    + destruct (decide (f' = f)) as [-> | Hf].
      * rewrite Hsame. apply Hothers. congruence.
      * now rewrite Hfam2.
    + now rewrite Hfam1.
Qed.

Ltac two_level f :=
  intros Hwf Hm;
  match goal with
  | |- context [?method ?m ?k1 ?k2 ?s = Some _] =>
      unfold method; rewrite Hm; cbn [mbind option_bind];
      apply (two_level_spec f k1 k2 s m);
      [ assumption | assumption | reflexivity
      | intros fam' [] Hne; try reflexivity; congruence
      | intros fam' []; reflexivity ]
  end.

Lemma IncrementEventsReceived_spec s m reg instance eventType :
  wf s -> objects s !! m = Some reg ->
  exists s',
    IncrementEventsReceived m instance eventType s = Some s' /\
    wf s' /\
    value s' m (Counter2 EventsReceived instance eventType) =
      Some (add64 (default 0
              (value s m (Counter2 EventsReceived instance eventType))) 1) /\
    others_unchanged s s' m (Counter2 EventsReceived instance eventType).
Proof. two_level EventsReceived. Qed.

Lemma IncrementEventsProcessed_spec s m reg instance eventType :
  wf s -> objects s !! m = Some reg ->
  exists s',
    IncrementEventsProcessed m instance eventType s = Some s' /\
    wf s' /\
    value s' m (Counter2 EventsProcessed instance eventType) =
      Some (add64 (default 0
              (value s m (Counter2 EventsProcessed instance eventType))) 1) /\
    others_unchanged s s' m (Counter2 EventsProcessed instance eventType).
Proof. two_level EventsProcessed. Qed.

Lemma IncrementRTCPMessagesProcessed_spec s m reg instance direction :
  wf s -> objects s !! m = Some reg ->
  exists s',
    IncrementRTCPMessagesProcessed m instance direction s = Some s' /\
    wf s' /\
    value s' m (Counter2 RTCPMessagesProcessed instance direction) =
      Some (add64 (default 0
              (value s m (Counter2 RTCPMessagesProcessed instance direction))) 1) /\
    others_unchanged s s' m (Counter2 RTCPMessagesProcessed instance direction).
Proof. two_level RTCPMessagesProcessed. Qed.

Lemma IncrementStorageOperations_spec s m reg operation status :
  wf s -> objects s !! m = Some reg ->
  exists s',
    IncrementStorageOperations m operation status s = Some s' /\
    wf s' /\
    value s' m (Counter2 StorageOperations operation status) =
      Some (add64 (default 0
              (value s m (Counter2 StorageOperations operation status))) 1) /\
    others_unchanged s s' m (Counter2 StorageOperations operation status).
Proof. two_level StorageOperations. Qed.

(** *** The one-level methods *)

Lemma one_level_spec f k s m reg
    (rebuild : gmap string ptr -> InternalMetrics)
    (write : option ptr -> gmap ptr Z -> option (gmap ptr Z))
    (written : Z -> Z) :
  (forall p cs v, cs !! p = Some v ->
                  write (Some p) cs = Some (<[p := written v]> cs)) ->
  (forall v, min_int64 <= written v <= max_int64) ->
  wf s ->
  objects s !! m = Some reg ->
  (forall x, family1 f (rebuild x) = x) ->
  (forall x f', f' <> f -> family1 f' (rebuild x) = family1 f' reg) ->
  (forall x f2, family2 f2 (rebuild x) = family2 f2 reg) ->
  exists s',
    (let '(x, cs) := ensure_cell1 (family1 f reg) k (cells s) in
     cs ← write (x !! k) cs; Some (update m (rebuild x) cs s)) = Some s' /\
    wf s' /\
    value s' m (Counter1 f k) =
      Some (written (default 0 (value s m (Counter1 f k)))) /\
    others_unchanged s s' m (Counter1 f k).
Proof.
  intros Hwrite Hrange Hwf Hm Hsame Hfam1 Hfam2.
  destruct (ensure_cell1_spec (family1 f reg) k (cells s))
    as (p & Hp & Hothers & Hcase).
  destruct (ensure_cell1 (family1 f reg) k (cells s)) as [x cs1].
  cbn [fst snd] in *. rewrite Hp.
  assert (Hval : value s m (Counter1 f k) = family1 f reg !! k ≫= (cells s !!.))
    by (unfold value; rewrite Hm; reflexivity).
  assert (Hsteps : exists v0,
            cs1 !! p = Some v0 /\
            <[p := written v0]> cs1 =
              <[p := written (default 0 (value s m (Counter1 f k)))]> (cells s) /\
            (address reg (Counter1 f k) = Some p \/
             (address reg (Counter1 f k) = None /\ cells s !! p = None))).
  { destruct Hcase as [[Hold ->] | (Hnone & Hfresh & ->)].
    - destruct (wf_allocated s Hwf m reg (Counter1 f k) p Hm Hold) as [v Hv].
      exists v. rewrite Hval, Hold. cbn. rewrite Hv. auto.
    - exists 0. rewrite Hval, Hnone. cbn.
      rewrite lookup_insert_eq, insert_insert_eq. auto. }
  destruct Hsteps as (v0 & Hv0 & Hcells & Hold).
  rewrite (Hwrite p cs1 v0 Hv0). cbn [mbind option_bind]. rewrite Hcells.
  eexists. split; [reflexivity |].
  apply (update_spec s m reg); try assumption.
  - apply Hrange.
  - cbn. now rewrite Hsame.
  - intros [f2 j1 j2 | f' j] Hne; cbn.
    + now rewrite Hfam2.
    + destruct (decide (f' = f)) as [-> | Hf].
      * rewrite Hsame. apply Hothers. congruence.
      * now rewrite Hfam1.
Qed.

Lemma AddInt64_Some p delta cs v :
  cs !! p = Some v ->
  AddInt64 (Some p) delta cs = Some (<[p := add64 v delta]> cs).
Proof. intros Hv. unfold AddInt64. cbn. now rewrite Hv. Qed.

Lemma StoreInt64_Some p x cs v :
  cs !! p = Some v -> StoreInt64 (Some p) x cs = Some (<[p := x]> cs).
Proof. intros Hv. unfold StoreInt64. cbn. now rewrite Hv. Qed.

Lemma IncrementQoSMessagesGenerated_spec s m reg instance :
  wf s -> objects s !! m = Some reg ->
  exists s',
    IncrementQoSMessagesGenerated m instance s = Some s' /\
    wf s' /\
    value s' m (Counter1 QoSMessagesGenerated instance) =
      Some (add64 (default 0
              (value s m (Counter1 QoSMessagesGenerated instance))) 1) /\
    others_unchanged s s' m (Counter1 QoSMessagesGenerated instance).
Proof.
  intros Hwf Hm. unfold IncrementQoSMessagesGenerated.
  rewrite Hm. cbn [mbind option_bind].
  apply (one_level_spec QoSMessagesGenerated instance s m reg _
           (fun o cs0 => AddInt64 o 1 cs0) (fun v => add64 v 1));
    try assumption; try reflexivity.
  - intros. now apply AddInt64_Some.
  - intros. apply wrap64_range.
  - intros x [] Hne; try reflexivity; congruence.
Qed.

Lemma SetFSConnectionStatus_spec s m reg instance connected :
  wf s -> objects s !! m = Some reg ->
  exists s',
    SetFSConnectionStatus m instance connected s = Some s' /\
    wf s' /\
    value s' m (Counter1 FSConnections instance) =
      Some (if connected then 1 else 0) /\
    others_unchanged s s' m (Counter1 FSConnections instance).
Proof.
  intros Hwf Hm. unfold SetFSConnectionStatus.
  rewrite Hm. cbn [mbind option_bind].
  destruct connected.
  - apply (one_level_spec FSConnections instance s m reg _
             (fun o cs0 => StoreInt64 o 1 cs0) (fun _ => 1));
      try assumption; try reflexivity.
    + intros. now apply (StoreInt64_Some _ _ _ v).
    + intros. unfold min_int64, max_int64. lia.
    + intros x [] Hne; try reflexivity; congruence.
  - apply (one_level_spec FSConnections instance s m reg _
             (fun o cs0 => StoreInt64 o 0 cs0) (fun _ => 0));
      try assumption; try reflexivity.
    + intros. now apply (StoreInt64_Some _ _ _ v).
    + intros. unfold min_int64, max_int64. lia.
    + intros x [] Hne; try reflexivity; congruence.
Qed.

(** *** [GetMetrics] and the invariant *)

Lemma init_wf : wf init.
Proof.
  constructor; cbn; try (intros; simplify_map_eq; fail).
  - intros m [x Hx]. simplify_map_eq.
  - split; [discriminate | intros [x Hx]; discriminate].
Qed.

Lemma address_new c : address newInternalMetrics c = None.
Proof. destruct c as [[] k1 k2 | [] k]; reflexivity. Qed.

Lemma GetMetrics_used s :
  once s = true -> GetMetrics s = (globalMetrics s, s).
Proof. intros Honce. unfold GetMetrics, once_Do. now rewrite Honce. Qed.

Lemma GetMetrics_uses s : once (snd (GetMetrics s)) = true.
Proof. unfold GetMetrics, once_Do. now destruct (once s) eqn:Honce. Qed.

Lemma GetMetrics_wf s : wf s -> wf (snd (GetMetrics s)).
Proof.
  intros Hwf. destruct (once s) eqn:Honce.
  { now rewrite GetMetrics_used. }
  assert (Hnil : globalMetrics s = None).
  { destruct (globalMetrics s) eqn:Hg; [| reflexivity].
    assert (once s = true) by (apply (wf_once s Hwf); eauto). congruence. }
  assert (Hempty : forall m, objects s !! m = None).
  { intros m. destruct (objects s !! m) eqn:Hm; [| reflexivity].
    assert (globalMetrics s = Some m) by (apply (wf_single s Hwf); eauto).
    congruence. }
  unfold GetMetrics, once_Do. rewrite Honce. cbn.
  set (p := fresh (dom (objects s))).
  assert (Hobj : forall m reg, <[p := newInternalMetrics]> (objects s) !! m = Some reg ->
                               m = p /\ reg = newInternalMetrics).
  { intros m reg. rewrite lookup_insert. case_decide.
    - intros [= <-]. auto.
    - rewrite Hempty. discriminate. }
  constructor; cbn.
  - intros m reg c q Hm Hq. apply Hobj in Hm as [-> ->].
    rewrite address_new in Hq. discriminate.
  - intros m1 reg1 c1 m2 reg2 c2 q Hm1 Hq1. apply Hobj in Hm1 as [-> ->].
    rewrite address_new in Hq1. discriminate.
  - apply (wf_int64 s Hwf).
  - intros g [= <-]. rewrite lookup_insert_eq. eauto.
  - intros m [reg Hm]. apply Hobj in Hm as [-> _]. reflexivity.
  - split; eauto.
Qed.

Lemma GetMetrics_non_nil s :
  wf s -> exists p, fst (GetMetrics s) = Some p.
Proof.
  intros Hwf. destruct (once s) eqn:Honce.
  - rewrite GetMetrics_used by assumption. cbn.
    apply (wf_once s Hwf) in Honce as [p Hp]. eauto.
  - unfold GetMetrics, once_Do. rewrite Honce. cbn. eauto.
Qed.

(** A step from a state of the invariant leads to a state of the
    invariant, and leaves a non-nil [globalMetrics] as it is. *)
Lemma step_wf call s s' :
  wf s -> step call s = Some s' ->
  wf s' /\ (forall p, globalMetrics s = Some p -> globalMetrics s' = Some p).
Proof.
  intros Hwf Hstep. destruct call; cbn [step] in Hstep.
  - injection Hstep as <-. split; [now apply GetMetrics_wf |].
    intros p Hp. change (globalMetrics (snd (GetMetrics s)) = Some p).
    rewrite GetMetrics_used; [assumption |].
    apply (wf_once s Hwf). eauto.
  - destruct (objects s !! m) as [reg |] eqn:Hm;
      [| unfold IncrementEventsReceived in Hstep; rewrite Hm in Hstep;
         discriminate].
    destruct (IncrementEventsReceived_spec s m reg instance eventType Hwf Hm)
      as (s1 & Hs1 & Hwf1 & _).
    rewrite Hs1 in Hstep. injection Hstep as <-. split; [assumption |].
    revert Hs1. unfold IncrementEventsReceived. rewrite Hm. cbn.
    destruct (increment2 _ _ _ _) as [[? ?] |]; cbn; [| discriminate].
    now intros [= <-].
  - destruct (objects s !! m) as [reg |] eqn:Hm;
      [| unfold IncrementEventsProcessed in Hstep; rewrite Hm in Hstep;
         discriminate].
    destruct (IncrementEventsProcessed_spec s m reg instance eventType Hwf Hm)
      as (s1 & Hs1 & Hwf1 & _).
    rewrite Hs1 in Hstep. injection Hstep as <-. split; [assumption |].
    revert Hs1. unfold IncrementEventsProcessed. rewrite Hm. cbn.
    destruct (increment2 _ _ _ _) as [[? ?] |]; cbn; [| discriminate].
    now intros [= <-].
  - destruct (objects s !! m) as [reg |] eqn:Hm;
      [| unfold IncrementRTCPMessagesProcessed in Hstep; rewrite Hm in Hstep;
         discriminate].
    destruct (IncrementRTCPMessagesProcessed_spec s m reg instance direction
                Hwf Hm) as (s1 & Hs1 & Hwf1 & _).
    rewrite Hs1 in Hstep. injection Hstep as <-. split; [assumption |].
    revert Hs1. unfold IncrementRTCPMessagesProcessed. rewrite Hm. cbn.
    destruct (increment2 _ _ _ _) as [[? ?] |]; cbn; [| discriminate].
    now intros [= <-].
  - destruct (objects s !! m) as [reg |] eqn:Hm;
      [| unfold IncrementQoSMessagesGenerated in Hstep; rewrite Hm in Hstep;
         discriminate].
    destruct (IncrementQoSMessagesGenerated_spec s m reg instance Hwf Hm)
      as (s1 & Hs1 & Hwf1 & _).
    rewrite Hs1 in Hstep. injection Hstep as <-. split; [assumption |].
    revert Hs1. unfold IncrementQoSMessagesGenerated. rewrite Hm. cbn.
    destruct (ensure_cell1 _ _ _) as [? ?].
    destruct (AddInt64 _ _ _); cbn; [| discriminate].
    now intros [= <-].
  - destruct (objects s !! m) as [reg |] eqn:Hm;
      [| unfold IncrementStorageOperations in Hstep; rewrite Hm in Hstep;
         discriminate].
    destruct (IncrementStorageOperations_spec s m reg operation status Hwf Hm)
      as (s1 & Hs1 & Hwf1 & _).
    rewrite Hs1 in Hstep. injection Hstep as <-. split; [assumption |].
    revert Hs1. unfold IncrementStorageOperations. rewrite Hm. cbn.
    destruct (increment2 _ _ _ _) as [[? ?] |]; cbn; [| discriminate].
    now intros [= <-].
  - destruct (objects s !! m) as [reg |] eqn:Hm;
      [| unfold SetFSConnectionStatus in Hstep; rewrite Hm in Hstep;
         discriminate].
    destruct (SetFSConnectionStatus_spec s m reg instance connected Hwf Hm)
      as (s1 & Hs1 & Hwf1 & _).
    rewrite Hs1 in Hstep. injection Hstep as <-. split; [assumption |].
    revert Hs1. unfold SetFSConnectionStatus. rewrite Hm. cbn.
    destruct (ensure_cell1 _ _ _) as [? ?].
    destruct (if connected then _ else _); cbn; [| discriminate].
    now intros [= <-].
Qed.

Lemma run_wf calls s s' :
  wf s -> run calls s = Some s' ->
  wf s' /\ (forall p, globalMetrics s = Some p -> globalMetrics s' = Some p).
Proof.
  revert s. induction calls as [| call rest IH]; intros s Hwf Hrun.
  - injection Hrun as <-. auto.
  - cbn in Hrun. destruct (step call s) as [s1 |] eqn:Hstep;
      [| discriminate].
    cbn in Hrun. destruct (step_wf call s s1 Hwf Hstep) as [Hwf1 Hg1].
    destruct (IH s1 Hwf1 Hrun) as [Hwf' Hg']. auto.
Qed.

(** Every state the package reaches from program start has the
    invariant. *)
Lemma reachable_wf calls s : run calls init = Some s -> wf s.
Proof. intros Hrun. now apply (run_wf calls init s init_wf). Qed.

(** In a state of the invariant whose [globalMetrics] is set, the struct
    it points to is allocated and is the only one. *)
Lemma wf_one_struct s p :
  wf s -> globalMetrics s = Some p -> dom (objects s) = {[p]}.
Proof.
  intros Hwf Hg. apply set_eq. intros m.
  rewrite elem_of_dom, elem_of_singleton. split.
  - intros Hm. apply (wf_single s Hwf) in Hm. congruence.
  - intros ->. now apply (wf_global s Hwf).
Qed.

(** As long as [once] is unused nothing is allocated, and the first call
    of [GetMetrics] allocates the registry with its six maps empty. *)
Lemma GetMetrics_first s p :
  wf s -> once s = false -> fst (GetMetrics s) = Some p ->
  objects s = ∅ /\
  objects (snd (GetMetrics s)) !! p = Some newInternalMetrics.
Proof.
  intros Hwf Honce Hp. split.
  - apply map_empty. intros m.
    destruct (objects s !! m) eqn:Hm; [| reflexivity].
    assert (Hg : globalMetrics s = Some m)
      by (apply (wf_single s Hwf); eauto).
    assert (once s = true) by (apply (wf_once s Hwf); eauto).
    congruence.
  - unfold GetMetrics, once_Do in *. rewrite Honce in *. cbn in *.
    injection Hp as <-. apply lookup_insert_eq.
Qed.

(** C7. The registry is constructed lazily and exactly once, and every
    call of [GetMetrics] returns it. A call in any state the program
    reaches and a later call, whatever the package was asked in between,
    yield the same non-nil pointer; a call right after another changes
    nothing. The struct behind that pointer is allocated, and it is the
    only struct there is, after the first of the two calls and in every
    state after that. If no call had been made before, nothing was
    allocated until then and the call allocates the registry with its
    maps empty; if one had, the call changes nothing. *)
Theorem C7_GetMetrics_returns_one_instance calls1 calls2 s1 s2 :
  run calls1 init = Some s1 ->
  run calls2 (snd (GetMetrics s1)) = Some s2 ->
  exists p,
    fst (GetMetrics s1) = Some p /\
    fst (GetMetrics s2) = Some p /\
    GetMetrics (snd (GetMetrics s1)) = GetMetrics s1 /\
    snd (GetMetrics s2) = s2 /\
    dom (objects (snd (GetMetrics s1))) = {[p]} /\
    dom (objects s2) = {[p]} /\
    (once s1 = false ->
     objects s1 = ∅ /\
     objects (snd (GetMetrics s1)) !! p = Some newInternalMetrics) /\
    (once s1 = true -> snd (GetMetrics s1) = s1).
Proof.
  intros Hrun1 Hrun2.
  pose proof (reachable_wf calls1 s1 Hrun1) as Hwf1.
  pose proof (GetMetrics_wf s1 Hwf1) as Hwf1'.
  destruct (GetMetrics_non_nil s1 Hwf1) as [p Hp]. exists p.
  destruct (run_wf calls2 _ s2 Hwf1' Hrun2) as [Hwf2 Hkeep].
  assert (Hg1 : globalMetrics (snd (GetMetrics s1)) = Some p).
  { rewrite <- Hp. unfold GetMetrics. reflexivity. }
  assert (Hg2 : globalMetrics s2 = Some p) by auto.
  assert (Honce2 : once s2 = true) by (apply (wf_once s2 Hwf2); eauto).
  rewrite (GetMetrics_used s2 Honce2). cbn [fst snd].
  split; [assumption |]. split; [assumption |].
  split.
  { rewrite (GetMetrics_used (snd (GetMetrics s1)) (GetMetrics_uses s1)).
    unfold GetMetrics. reflexivity. }
  split; [reflexivity |].
  split; [now apply wf_one_struct |].
  split; [now apply wf_one_struct |].
  split.
  - intros Honce. now apply GetMetrics_first.
  - intros Honce. now rewrite GetMetrics_used.
Qed.

(** C10. On a registry of the invariant (every registry the program
    reaches), a call of [IncrementEventsReceived(instance, eventType)]
    returns, the counter named by that pair reads one more than before in
    [int64] arithmetic (a counter that did not exist counts from zero),
    which is the previous value plus one unless that was the largest
    [int64]; every other counter of every family, of this registry and of
    any other, reads as before. *)
Theorem C10_IncrementEventsReceived_frame s m reg instance eventType :
  wf s ->
  objects s !! m = Some reg ->
  let counter := Counter2 EventsReceived instance eventType in
  let before := default 0 (value s m counter) in
  exists s',
    IncrementEventsReceived m instance eventType s = Some s' /\
    value s' m counter = Some (add64 before 1) /\
    (before < max_int64 -> value s' m counter = Some (before + 1)) /\
    (forall m' c', (m', c') <> (m, counter) ->
                   value s' m' c' = value s m' c') /\
    wf s'.
Proof.
  intros Hwf Hm counter before.
  destruct (IncrementEventsReceived_spec s m reg instance eventType Hwf Hm)
    as (s' & Hs' & Hwf' & Hval & Hframe).
  exists s'. split; [assumption |].
  split; [assumption |].
  split; [| split; assumption].
  intros Hmax. subst counter. rewrite Hval. fold before.
  f_equal. unfold add64. apply wrap64_small.
  assert (Hmin : min_int64 <= before).
  { subst before.
    destruct (value s m _) as [v |] eqn:Hv; cbn.
    - unfold value in Hv. rewrite Hm in Hv. cbn in Hv.
      destruct (inner (eventsReceived reg) instance !! eventType) as [q |];
        [| discriminate].
      cbn in Hv. now apply (wf_int64 s Hwf q v).
    - unfold min_int64. lia. }
  unfold max_int64, min_int64 in *. lia.
Qed.

End MetricsFacts.

(** *** Runs of the registry *)

Section MetricsRuns.
Import Metrics Scenario.

Lemma C7_witness :
  exists p,
    fst (GetMetrics init) = Some p /\
    fst (GetMetrics registry_state) = Some p /\
    GetMetrics (snd (GetMetrics init)) = GetMetrics init /\
    snd (GetMetrics registry_state) = registry_state /\
    dom (objects (snd (GetMetrics init))) = {[p]} /\
    dom (objects registry_state) = {[p]} /\
    (once init = false ->
     objects init = ∅ /\
     objects (snd (GetMetrics init)) !! p = Some newInternalMetrics) /\
    (once init = true -> snd (GetMetrics init) = init).
Proof.
  apply (C7_GetMetrics_returns_one_instance [] registry_calls init
           registry_state).
  - reflexivity.
  - vm_compute. reflexivity.
Defined.

Lemma C10_witness :
  let counter := Counter2 EventsReceived "fs1" "CHANNEL_DESTROY" in
  let before := default 0 (value registry_state 1%positive counter) in
  exists s',
    IncrementEventsReceived 1%positive "fs1" "CHANNEL_DESTROY" registry_state
      = Some s' /\
    value s' 1%positive counter = Some (add64 before 1) /\
    (before < max_int64 -> value s' 1%positive counter = Some (before + 1)) /\
    (forall m' c', (m', c') <> (1%positive, counter) ->
                   value s' m' c' = value registry_state m' c') /\
    wf s'.
Proof.
  eapply (C10_IncrementEventsReceived_frame registry_state 1%positive _
            "fs1" "CHANNEL_DESTROY").
  - apply (reachable_wf (CallGetMetrics :: registry_calls)).
    vm_compute. reflexivity.
  - vm_compute. reflexivity.
Defined.

(** The counter of the example stood at 2 and reads 3 afterwards; the
    counter of another event type still reads 1. *)
Example registry_increment :
  value registry_state 1%positive
    (Counter2 EventsReceived "fs1" "CHANNEL_DESTROY") = Some 2 /\
  (s' ← IncrementEventsReceived 1%positive "fs1" "CHANNEL_DESTROY"
          registry_state;
   Some (value s' 1%positive (Counter2 EventsReceived "fs1" "CHANNEL_DESTROY"),
         value s' 1%positive (Counter2 EventsReceived "fs1" "CHANNEL_CREATE"),
         value s' 1%positive (Counter1 FSConnections "fs1")))
  = Some (Some 3, Some 1, Some 1).
Proof. split; vm_compute; reflexivity. Qed.

End MetricsRuns.

(** ** The process *)

Section MainFacts.
Import Main.

Local Open Scope proc_scope.

Lemma relies_on_later c d :
  relies_on c d -> (shutdown_step c < shutdown_step d)%nat.
Proof.
  induction 1 as [c d Hdep | c d e Hdep _ IH].
  - destruct Hdep; cbn; lia.
  - assert (shutdown_step c < shutdown_step d)%nat
      by (destruct Hdep; cbn; lia).
    lia.
Qed.

Lemma gracefulShutdown_calls env :
  calls (gracefulShutdown env) =
    [cancel; httpServer_Stop; connManager_Stop; eventProcessor_Stop;
     metricsExporter_Stop; stateStore_Close] /\
  snd (gracefulShutdown env) = inr tt.
Proof.
  unfold gracefulShutdown, stop_step, call, calls, trace.
  destruct (returns env httpServer_Stop), (returns env connManager_Stop),
    (returns env eventProcessor_Stop), (returns env metricsExporter_Stop),
    (returns env stateStore_Close); split; reflexivity.
Qed.

(** How a run ends: as [flag.Parse] ends it, with status 2 on a malformed
    command line and status 0 on [-h]; with status 0 on [-version] or
    [-help]; with status 1 on any of the fatal conditions; otherwise the
    process runs until a signal arrives, shuts down and ends with
    status 0. *)
Lemma main_outcome env :
  outcome (main env) =
    match command_line env with
    | Malformed => Exited 2
    | AsksUsage => Exited 0
    | WellFormed =>
        if version env || help env then Exited 0
        else if fatal env then Exited 1
        else if signalled env then Exited 0
        else Running
    end.
Proof.
  unfold outcome, main, flag_Parse, fatal, validation_fails, failed,
    validateStartup, validateStateStore, validateOTelEndpoint, await_signal.
  destruct (command_line env); [| reflexivity | reflexivity].
  destruct (version env); [reflexivity |].
  destruct (help env); [reflexivity |].
  destruct (gracefulShutdown_calls env) as [_ Hshutdown].
  destruct (gracefulShutdown env) as [t [o | []]]; [discriminate |].
  unfold call.
  destruct (returns env config_Load); [reflexivity |].
  destruct (returns env validation_NewStateStore); [reflexivity |].
  destruct (returns env validation_Set);
    [destruct (returns env validation_Close); reflexivity |].
  destruct (returns env validation_Get);
    [destruct (returns env validation_Close); reflexivity |].
  destruct (returns env validation_Delete);
    [destruct (returns env validation_Close); reflexivity |].
  destruct (returns env validation_Close);
    (destruct (returns env validation_NewMetricsExporter); [reflexivity |];
     destruct (returns env validation_Start); [reflexivity |];
     destruct (returns env validation_Stop);
       (destruct (returns env store_NewStateStore); [reflexivity |];
        destruct (returns env exporter_NewMetricsExporter); [reflexivity |];
        destruct (returns env eventProcessor_Start); [reflexivity |];
        destruct (returns env connManager_Start);
          (destruct (activeConnections env =? 0); [reflexivity |];
           destruct (returns env httpServer_Start); [reflexivity |];
           destruct (signalled env); reflexivity))).
Qed.

(** The calls of a run that [flag.Parse] lets through and that meets no
    fatal condition. *)
Lemma main_calls env :
  command_line env = WellFormed ->
  version env = false ->
  help env = false ->
  fatal env = false ->
  calls (main env) =
    ([config_Load; validation_NewStateStore; validation_Set; validation_Get;
      validation_Delete; validation_Close; validation_NewMetricsExporter;
      validation_Start; validation_Stop; store_NewStateStore;
      exporter_NewMetricsExporter; eventProcessor_Start; connManager_Start;
      httpServer_Start]
     ++ if signalled env
        then [cancel; httpServer_Stop; connManager_Stop; eventProcessor_Stop;
              metricsExporter_Stop; stateStore_Close]
             ++ [httpServer_Stop; connManager_Stop; eventProcessor_Stop;
                 stateStore_Close; cancel]
        else [])%list.
Proof.
  intros Hc Hv Hh Hfatal.
  destruct (gracefulShutdown_calls env) as [Hcalls Hret].
  unfold calls, trace in Hcalls.
  unfold fatal, validation_fails, failed in Hfatal.
  unfold calls, trace, main, flag_Parse, validateStartup,
    validateStateStore, validateOTelEndpoint, await_signal.
  rewrite Hc, Hv, Hh. unfold call.
  destruct (gracefulShutdown env) as [t [o | []]]; [discriminate |].
  cbn [fst] in Hcalls.
  destruct (returns env config_Load); [discriminate |].
  destruct (returns env validation_NewStateStore); [discriminate |].
  destruct (returns env validation_Set); [discriminate |].
  destruct (returns env validation_Get); [discriminate |].
  destruct (returns env validation_Delete); [discriminate |].
  destruct (returns env validation_NewMetricsExporter); [discriminate |].
  destruct (returns env validation_Start); [discriminate |].
  destruct (returns env store_NewStateStore); [discriminate |].
  destruct (returns env exporter_NewMetricsExporter); [discriminate |].
  destruct (returns env eventProcessor_Start); [discriminate |].
  destruct (activeConnections env =? 0); [discriminate |].
  destruct (returns env httpServer_Start); [discriminate |].
  destruct (returns env validation_Close), (returns env validation_Stop),
    (returns env connManager_Start), (signalled env);
    cbn; rewrite ?omap_app, ?Hcalls; reflexivity.
Qed.

(** A run that ends by [os.Exit] with status 1 or 2, or on [-h],
    [-version] or [-help], tears nothing down and does not cancel the
    root context. *)
Lemma main_exit_calls env :
  (command_line env = WellFormed -> version env = false ->
   help env = false -> fatal env = true) ->
  Forall (fun c => teardown_of c = None /\ c <> cancel) (calls (main env)).
Proof.
  intros Hfatal.
  unfold calls, trace, main, flag_Parse, validateStartup,
    validateStateStore, validateOTelEndpoint, await_signal.
  destruct (command_line env); [| constructor | constructor].
  destruct (version env); [constructor |].
  destruct (help env); [constructor |].
  specialize (Hfatal eq_refl eq_refl eq_refl).
  unfold fatal, validation_fails, failed in Hfatal.
  unfold call.
  destruct (returns env config_Load);
    [cbn; repeat constructor; discriminate |].
  destruct (returns env validation_NewStateStore);
    [cbn; repeat constructor; discriminate |].
  destruct (returns env validation_Set);
    [destruct (returns env validation_Close);
     cbn; repeat constructor; discriminate |].
  destruct (returns env validation_Get);
    [destruct (returns env validation_Close);
     cbn; repeat constructor; discriminate |].
  destruct (returns env validation_Delete);
    [destruct (returns env validation_Close);
     cbn; repeat constructor; discriminate |].
  destruct (returns env validation_Close);
    (destruct (returns env validation_NewMetricsExporter);
       [cbn; repeat constructor; discriminate |];
     destruct (returns env validation_Start);
       [cbn; repeat constructor; discriminate |];
     destruct (returns env validation_Stop);
       (destruct (returns env store_NewStateStore);
          [cbn; repeat constructor; discriminate |];
        destruct (returns env exporter_NewMetricsExporter);
          [cbn; repeat constructor; discriminate |];
        destruct (returns env eventProcessor_Start);
          [cbn; repeat constructor; discriminate |];
        destruct (returns env connManager_Start);
          (destruct (activeConnections env =? 0);
             [cbn; repeat constructor; discriminate |];
           destruct (returns env httpServer_Start);
             [cbn; repeat constructor; discriminate | discriminate]))).
Qed.

(** The components torn down in a run, in the order of the calls. *)
Lemma main_teardowns env :
  omap teardown_of (calls (main env)) =
    if shuts_down env
    then [HTTPServer; ConnectionManager; EventProcessor; MetricsExporter;
          StateStore;
          HTTPServer; ConnectionManager; EventProcessor; StateStore]
    else [].
Proof.
  assert (Hnone : forall l : list Call,
            Forall (fun c => teardown_of c = None /\ c <> cancel) l ->
            omap teardown_of l = []).
  { induction 1 as [| c l [Hc _] _ IH]; [reflexivity |].
    cbn. now rewrite Hc. }
  unfold shuts_down.
  destruct (command_line env) eqn:Hc;
    [| apply Hnone, main_exit_calls; congruence
     | apply Hnone, main_exit_calls; congruence].
  destruct (version env) eqn:Hv;
    [apply Hnone, main_exit_calls; congruence |].
  destruct (help env) eqn:Hh;
    [apply Hnone, main_exit_calls; congruence |].
  destruct (fatal env) eqn:Hfatal;
    [apply Hnone, main_exit_calls; congruence |].
  rewrite (main_calls env Hc Hv Hh Hfatal).
  destruct (signalled env); reflexivity.
Qed.

(** C6 (as amended). Whatever errors the components report while
    stopping, [gracefulShutdown] runs to its end and makes exactly these
    calls, in this order: cancel the root context, stop the HTTP server,
    stop the connection manager, stop the event processor, stop the
    metrics exporter, close the state store. Of the four pipeline
    components the connection manager is thus the first and the state
    store the last, and within [gracefulShutdown] no component is stopped
    after one it relies on. In a run of the process nothing is torn down
    before [gracefulShutdown]; after it has returned, the calls deferred in
    [main] stop the HTTP server, the connection manager and the event
    processor and close the state store once more; a run that does not
    come to [gracefulShutdown] tears nothing down. *)
Theorem C6_shutdown_order env :
  calls (gracefulShutdown env) =
    [cancel; httpServer_Stop; connManager_Stop; eventProcessor_Stop;
     metricsExporter_Stop; stateStore_Close] /\
  snd (gracefulShutdown env) = inr tt /\
  omap teardown_of (calls (gracefulShutdown env)) =
    [HTTPServer; ConnectionManager; EventProcessor; MetricsExporter;
     StateStore] /\
  (forall (i j : nat) c d,
     omap teardown_of (calls (gracefulShutdown env)) !! i = Some d ->
     omap teardown_of (calls (gracefulShutdown env)) !! j = Some c ->
     (i < j)%nat ->
     ~ relies_on c d) /\
  omap teardown_of (calls (main env)) =
    (if shuts_down env
     then omap teardown_of (calls (gracefulShutdown env))
          ++ [HTTPServer; ConnectionManager; EventProcessor; StateStore]
     else [])%list.
Proof.
  destruct (gracefulShutdown_calls env) as [Hcalls Hret].
  rewrite main_teardowns.
  rewrite Hcalls. cbn [omap list_omap teardown_of].
  split; [reflexivity |]. split; [assumption |].
  split; [reflexivity |]. split; [| reflexivity].
  assert (Hstep : forall (i : nat) d,
            [HTTPServer; ConnectionManager; EventProcessor; MetricsExporter;
             StateStore] !! i = Some d -> shutdown_step d = Datatypes.S i).
  { intros i d.
    do 5 (destruct i as [| i]; [intros [= <-]; reflexivity |]).
    discriminate. }
  intros i j c d Hd Hc Hij Hrel.
  apply Hstep in Hd, Hc. apply relies_on_later in Hrel. lia.
Qed.

(** C4 (as amended). The process ends with a non-zero status exactly when
    the command line is malformed, which makes [flag.Parse] end it with
    status 2, or one of these happens at startup, which ends it with
    status 1: the configuration cannot be loaded; startup validation fails
    (the validation store cannot be constructed, set, read or deleted
    from, or the validation exporter cannot be constructed or started);
    the state store cannot be constructed; the metrics exporter cannot be
    constructed; the event processor does not start; no connection is
    active once the connection manager has started; the HTTP server does
    not start. No other error ends it: it then runs until a signal arrives
    and ends with status 0. *)
Theorem C4_exits_nonzero_exactly_when_fatal env :
  ((exists code, outcome (main env) = Exited code /\ code <> 0) <->
   (command_line env = Malformed \/
    (command_line env = WellFormed /\ version env = false /\
     help env = false /\ fatal env = true))) /\
  (command_line env = Malformed -> outcome (main env) = Exited 2) /\
  (command_line env = WellFormed /\ version env = false /\
   help env = false /\ fatal env = true ->
   outcome (main env) = Exited 1) /\
  (command_line env = WellFormed /\ version env = false /\
   help env = false /\ fatal env = false ->
   outcome (main env) = if signalled env then Exited 0 else Running).
Proof.
  rewrite main_outcome.
  split; [split | split; [| split]].
  - intros (code & Hcode & Hnz).
    destruct (command_line env); [right | | now left].
    + destruct (version env), (help env); cbn in Hcode;
        try (injection Hcode as <-; congruence).
      destruct (fatal env); [repeat split |].
      destruct (signalled env); [injection Hcode as <-; congruence |].
      discriminate.
    + injection Hcode as <-. congruence.
  - intros [-> | (-> & -> & -> & ->)]; cbn.
    + exists 2. split; [reflexivity | discriminate].
    + exists 1. split; [reflexivity | discriminate].
  - now intros ->.
  - now intros (-> & -> & -> & ->).
  - now intros (-> & -> & -> & ->).
Qed.

End MainFacts.

Section MainRuns.
Import Main Scenario.

(** C4, counterexample: the command line is well formed, the state store
    is constructed (twice) and an instance is connected, yet the process
    ends with status 1, because the metrics exporter cannot be
    constructed. *)
Lemma C4_counterexample :
  outcome (main exporter_down_env) = Exited 1 /\
  command_line exporter_down_env = WellFormed /\
  returns exporter_down_env validation_NewStateStore = None /\
  returns exporter_down_env store_NewStateStore = None /\
  activeConnections exporter_down_env = 1 /\
  calls (main exporter_down_env) =
    [config_Load; validation_NewStateStore; validation_Set; validation_Get;
     validation_Delete; validation_Close; validation_NewMetricsExporter;
     validation_Start; validation_Stop; store_NewStateStore;
     exporter_NewMetricsExporter].
Proof. repeat split. Qed.

(** C6, counterexample: in a healthy run the state store is closed (the
    fifth teardown) and the event processor, which relies on it, is
    invoked after that (the eighth), by the [Stop] deferred in [main]. *)
Lemma C6_counterexample :
  omap teardown_of (calls (main healthy_env)) !! 4%nat = Some StateStore /\
  omap teardown_of (calls (main healthy_env)) !! 7%nat
    = Some EventProcessor /\
  relies_on EventProcessor StateStore.
Proof.
  split; [reflexivity |]. split; [reflexivity |].
  apply relies_direct. constructor.
Qed.

(** A healthy run, for comparison: startup, signal, shutdown, and the
    calls deferred in [main]. *)
Example healthy_run :
  outcome (main healthy_env) = Exited 0 /\
  calls (main healthy_env) =
    [config_Load; validation_NewStateStore; validation_Set; validation_Get;
     validation_Delete; validation_Close; validation_NewMetricsExporter;
     validation_Start; validation_Stop; store_NewStateStore;
     exporter_NewMetricsExporter; eventProcessor_Start; connManager_Start;
     httpServer_Start;
     cancel; httpServer_Stop; connManager_Stop; eventProcessor_Stop;
     metricsExporter_Stop; stateStore_Close;
     httpServer_Stop; connManager_Stop; eventProcessor_Stop;
     stateStore_Close; cancel].
Proof. split; reflexivity. Qed.

(** A run with a malformed command line: [flag.Parse] ends the process
    with status 2 before anything is called. *)
Example malformed_run :
  outcome (main malformed_env) = Exited 2 /\
  calls (main malformed_env) = [].
Proof. split; reflexivity. Qed.

End MainRuns.

(** ** More on the process *)

Section MainMore.
Import Main.

Local Open Scope proc_scope.

Lemma count_connected (statuses : list ConnectionStatus) (n : Z) :
  fold_left (fun n status => if Connected status then n + 1 else n)
    statuses n
  = n + Z.of_nat (length (filter (fun status => Connected status = true)
                            statuses)).
Proof.
  revert n. induction statuses as [| status rest IH]; intros n.
  - cbn. lia.
  - rewrite filter_cons. cbn [fold_left]. rewrite IH.
    destruct (Connected status); case_decide; try congruence;
      cbn [length]; lia.
Qed.

(** X1. The loop of [main] over the connection statuses counts exactly
    the instances that report [Connected]; the count is zero, and the
    process gives up for want of a connection, exactly when no instance
    is connected, which includes the case of no instance at all. *)
Theorem X1_activeConnections_counts_connected env :
  activeConnections env =
    Z.of_nat (length (filter (fun status => Connected status = true)
                        (GetStatus env))) /\
  (activeConnections env = 0 <->
   Forall (fun status => Connected status = false) (GetStatus env)).
Proof.
  unfold activeConnections. rewrite count_connected.
  split; [lia |].
  induction (GetStatus env) as [| status rest IH].
  - split; [constructor | reflexivity].
  - rewrite filter_cons. destruct (Connected status) eqn:Hc;
      case_decide; try congruence.
    + cbn [length]. split; [lia | inversion 1; congruence].
    + rewrite IH. split; [now constructor | now inversion 1].
Qed.

(** X2. [validateStateStore] never ends the process. It reports success
    exactly when constructing the store and the three test requests all
    succeed; and once the store is constructed it is closed exactly once,
    as the last call, whichever request fails (and whatever [Close]
    returns). A store that could not be constructed is not closed. *)
Theorem X2_validateStateStore_closes_what_it_opened env :
  exists result,
    snd (validateStateStore env) = inr result /\
    (result = None <->
     failed env validation_NewStateStore = false /\
     failed env validation_Set = false /\
     failed env validation_Get = false /\
     failed env validation_Delete = false) /\
    head (calls (validateStateStore env)) = Some validation_NewStateStore /\
    (if failed env validation_NewStateStore
     then calls (validateStateStore env) = [validation_NewStateStore]
     else last (calls (validateStateStore env)) = Some validation_Close /\
          length (filter (fun c => c = validation_Close)
                    (calls (validateStateStore env))) = 1%nat).
Proof.
  unfold validateStateStore, failed, call, calls, trace.
  destruct (returns env validation_NewStateStore).
  { eexists. split; [reflexivity |]. cbn.
    repeat split; try discriminate; intros (? & _); discriminate. }
  destruct (returns env validation_Set), (returns env validation_Get),
    (returns env validation_Delete), (returns env validation_Close);
    (eexists; split; [reflexivity |]); cbn;
    repeat split; try discriminate; try reflexivity;
    intros (_ & ? & ? & ?); discriminate.
Qed.

(** X3. A run that [flag.Parse] lets through, without [-version] or
    [-help] and without a fatal condition, makes the same calls in the same
    order whatever the non-fatal errors are (a warning from the connection
    manager, a test exporter or test store that does not stop cleanly, any
    error during shutdown): the fourteen of startup; then, once a signal
    has arrived, the six of [gracefulShutdown] followed by the five calls
    deferred in [main], which stop the HTTP server, the connection manager
    and the event processor and close the state store a second time. *)
Theorem X3_calls_of_a_run_without_fatal_error env :
  command_line env = WellFormed ->
  version env = false ->
  help env = false ->
  fatal env = false ->
  calls (main env) =
    ([config_Load; validation_NewStateStore; validation_Set; validation_Get;
      validation_Delete; validation_Close; validation_NewMetricsExporter;
      validation_Start; validation_Stop; store_NewStateStore;
      exporter_NewMetricsExporter; eventProcessor_Start; connManager_Start;
      httpServer_Start]
     ++ if signalled env
        then [cancel; httpServer_Stop; connManager_Stop; eventProcessor_Stop;
              metricsExporter_Stop; stateStore_Close]
             ++ [httpServer_Stop; connManager_Stop; eventProcessor_Stop;
                 stateStore_Close; cancel]
        else [])%list.
Proof.
  intros Hc Hv Hh Hfatal. now apply main_calls.
Qed.

(** X4. When [main] ends the process with status 1, it has stopped none of
    the components it had started by then and has not cancelled the root
    context: [os.Exit] skips the deferred calls, and [gracefulShutdown] is
    not reached. *)
Theorem X4_fatal_exit_stops_nothing env :
  outcome (main env) = Exited 1 ->
  Forall (fun c => teardown_of c = None /\ c <> cancel) (calls (main env)).
Proof.
  intros Hout. apply main_exit_calls. intros Hc Hv Hh.
  rewrite main_outcome, Hc, Hv, Hh in Hout. cbn [orb] in Hout.
  destruct (fatal env); [reflexivity |].
  destruct (signalled env); discriminate.
Qed.

End MainMore.

Section MainMoreRuns.
Import Main Scenario.

Lemma X3_witness :
  calls (main healthy_env) =
    ([config_Load; validation_NewStateStore; validation_Set; validation_Get;
      validation_Delete; validation_Close; validation_NewMetricsExporter;
      validation_Start; validation_Stop; store_NewStateStore;
      exporter_NewMetricsExporter; eventProcessor_Start; connManager_Start;
      httpServer_Start]
     ++ if signalled healthy_env
        then [cancel; httpServer_Stop; connManager_Stop; eventProcessor_Stop;
              metricsExporter_Stop; stateStore_Close]
             ++ [httpServer_Stop; connManager_Stop; eventProcessor_Stop;
                 stateStore_Close; cancel]
        else [])%list.
Proof.
  apply (X3_calls_of_a_run_without_fatal_error healthy_env); reflexivity.
Defined.

Lemma X4_witness :
  Forall (fun c => teardown_of c = None /\ c <> cancel)
    (calls (main exporter_down_env)).
Proof.
  apply (X4_fatal_exit_stops_nothing exporter_down_env). reflexivity.
Defined.

End MainMoreRuns.

(** ** More on the stats registry *)

Section RegistryMore.
Import Metrics Registry.

Implicit Types (s : State) (reg : InternalMetrics) (c : Counter) (m : ptr).

(** A method that returns has written the struct behind its receiver
    back, and nothing else among the structs. *)
Lemma step_objects call s s' m c :
  step call s = Some s' ->
  target call = Some (m, c) ->
  is_Some (objects s !! m) /\
  exists reg', objects s' = <[m := reg']> (objects s).
Proof.
  intros Hstep Htarget.
  destruct call; cbn [target] in Htarget; try discriminate;
    injection Htarget as <- <-; cbn [step] in Hstep.
  - unfold IncrementEventsReceived in Hstep.
    destruct (objects s !! m0) as [reg |]; [| discriminate]. cbn in Hstep.
    destruct (increment2 _ _ _ _) as [[? ?] |]; [| discriminate].
    injection Hstep as <-. cbn. eauto.
  - unfold IncrementEventsProcessed in Hstep.
    destruct (objects s !! m0) as [reg |]; [| discriminate]. cbn in Hstep.
    destruct (increment2 _ _ _ _) as [[? ?] |]; [| discriminate].
    injection Hstep as <-. cbn. eauto.
  - unfold IncrementRTCPMessagesProcessed in Hstep.
    destruct (objects s !! m0) as [reg |]; [| discriminate]. cbn in Hstep.
    destruct (increment2 _ _ _ _) as [[? ?] |]; [| discriminate].
    injection Hstep as <-. cbn. eauto.
  - unfold IncrementQoSMessagesGenerated in Hstep.
    destruct (objects s !! m0) as [reg |]; [| discriminate]. cbn in Hstep.
    destruct (ensure_cell1 _ _ _) as [? ?].
    destruct (AddInt64 _ _ _); [| discriminate].
    injection Hstep as <-. cbn. eauto.
  - unfold IncrementStorageOperations in Hstep.
    destruct (objects s !! m0) as [reg |]; [| discriminate]. cbn in Hstep.
    destruct (increment2 _ _ _ _) as [[? ?] |]; [| discriminate].
    injection Hstep as <-. cbn. eauto.
  - unfold SetFSConnectionStatus in Hstep.
    destruct (objects s !! m0) as [reg |]; [| discriminate]. cbn in Hstep.
    destruct (ensure_cell1 _ _ _) as [? ?].
    destruct (if connected then _ else _); [| discriminate].
    injection Hstep as <-. cbn. eauto.
Qed.

(** A method called on a registry returns, with the effect its [target]
    and [writes] describe. *)
Lemma step_on_registry call s m c reg :
  wf s ->
  target call = Some (m, c) ->
  objects s !! m = Some reg ->
  exists s',
    step call s = Some s' /\
    wf s' /\
    value s' m c = Some (writes call (value s m c)) /\
    others_unchanged s s' m c.
Proof.
  intros Hwf Htarget Hm.
  destruct call; cbn [target] in Htarget; try discriminate;
    injection Htarget as -> <-; cbn [step writes].
  - now apply (IncrementEventsReceived_spec s m reg).
  - now apply (IncrementEventsProcessed_spec s m reg).
  - now apply (IncrementRTCPMessagesProcessed_spec s m reg).
  - now apply (IncrementQoSMessagesGenerated_spec s m reg).
  - now apply (IncrementStorageOperations_spec s m reg).
  - now apply (SetFSConnectionStatus_spec s m reg).
Qed.

Lemma GetMetrics_values s m c :
  wf s -> value (snd (GetMetrics s)) m c = value s m c.
Proof.
  intros Hwf. destruct (once s) eqn:Honce.
  { now rewrite GetMetrics_used. }
  assert (Hempty : forall m', objects s !! m' = None).
  { intros m'. destruct (objects s !! m') eqn:Hm'; [| reflexivity].
    assert (Hg : globalMetrics s = Some m')
      by (apply (wf_single s Hwf); eauto).
    assert (once s = true) by (apply (wf_once s Hwf); eauto).
    congruence. }
  unfold GetMetrics, once_Do, value. rewrite Honce. cbn.
  rewrite Hempty, lookup_insert. case_decide; [| now rewrite Hempty].
  cbn. now rewrite address_new.
Qed.

(** The effect of any step from a state of the invariant. *)
Lemma step_effect call s s' :
  wf s ->
  step call s = Some s' ->
  wf s' /\
  match target call with
  | None => forall m c, value s' m c = value s m c
  | Some (m, c) =>
      is_Some (objects s !! m) /\
      value s' m c = Some (writes call (value s m c)) /\
      others_unchanged s s' m c
  end.
Proof.
  intros Hwf Hstep. destruct (target call) as [[m c] |] eqn:Htarget.
  - destruct (step_objects call s s' m c Hstep Htarget) as [[reg Hm] _].
    destruct (step_on_registry call s m c reg Hwf Htarget Hm)
      as (s1 & Hs1 & Hwf1 & Hval & Hframe).
    rewrite Hs1 in Hstep. injection Hstep as <-. eauto.
  - destruct call; try discriminate. cbn [step] in Hstep.
    injection Hstep as <-.
    split; [now apply GetMetrics_wf |].
    intros m c. now apply GetMetrics_values.
Qed.

(** X5. Each method of the registry, called on a registry of the
    invariant, returns and writes exactly one counter, the one named by
    its arguments: the four other [Increment..] methods add one in [int64]
    arithmetic (counting from zero for a counter that did not exist), and
    [SetFSConnectionStatus] stores 1 or 0 whatever was there. Every other
    counter, of any family and any registry, reads as before, and
    [GetMetrics] changes no counter at all. A method called through a
    pointer that is no registry does not return. *)
Theorem X5_each_method_writes_its_counter call s :
  wf s ->
  match target call with
  | None =>
      exists s', step call s = Some s' /\ wf s' /\
                 forall m c, value s' m c = value s m c
  | Some (m, c) =>
      (objects s !! m = None -> step call s = None) /\
      (is_Some (objects s !! m) ->
       exists s', step call s = Some s' /\ wf s' /\
                  value s' m c = Some (writes call (value s m c)) /\
                  others_unchanged s s' m c)
  end.
Proof.
  intros Hwf. destruct (target call) as [[m c] |] eqn:Htarget.
  - split.
    + intros Hnone. destruct (step call s) as [s' |] eqn:Hstep;
        [| reflexivity].
      destruct (step_objects call s s' m c Hstep Htarget) as [[reg Hm] _].
      congruence.
    + intros [reg Hm]. now apply (step_on_registry call s m c reg).
  - destruct call; try discriminate. cbn [step].
    eexists. split; [reflexivity |].
    split; [now apply GetMetrics_wf |].
    intros m c. now apply GetMetrics_values.
Qed.

Lemma wrap64_add_l x y : wrap64 (wrap64 x + y) = wrap64 (x + y).
Proof.
  unfold wrap64. f_equal.
  replace ((x + 2 ^ 63) mod 2 ^ 64 - 2 ^ 63 + y + 2 ^ 63)
    with ((x + 2 ^ 63) mod 2 ^ 64 + y) by lia.
  rewrite Z.add_mod_idemp_l by lia. f_equal. lia.
Qed.


(** X6. A counter counts the calls: after [n + 1] calls of the same
    [Increment..] method with the same arguments on a registry of the
    invariant, the counter reads its previous value (zero if it did not
    exist) plus [n + 1], reduced to [int64]; every other counter reads as
    before. *)
Theorem X6_counter_counts_calls call (n : nat) s m c :
  wf s ->
  is_increment call = true ->
  target call = Some (m, c) ->
  is_Some (objects s !! m) ->
  exists s',
    repeat_call call (Datatypes.S n) s = Some s' /\
    wf s' /\
    value s' m c =
      Some (wrap64 (default 0 (value s m c) + Z.of_nat (Datatypes.S n))) /\
    others_unchanged s s' m c.
Proof.
  intros Hwf Hinc Htarget.
  assert (Hwrites : forall before,
            writes call before = add64 (default 0 before) 1)
    by (destruct call; try discriminate; reflexivity).
  revert s Hwf. induction n as [| n IH]; intros s Hwf [reg Hm].
  - destruct (step_on_registry call s m c reg Hwf Htarget Hm)
      as (s1 & Hs1 & Hwf1 & Hval & Hframe).
    exists s1. cbn [repeat_call]. rewrite Hs1. cbn.
    split; [reflexivity |]. split; [assumption |].
    split; [| assumption].
    rewrite Hval, Hwrites. reflexivity.
  - destruct (step_on_registry call s m c reg Hwf Htarget Hm)
      as (s1 & Hs1 & Hwf1 & Hval & Hframe).
    destruct (step_objects call s s1 m c Hs1 Htarget)
      as (_ & reg' & Hobj).
    destruct (IH s1 Hwf1) as (s' & Hs' & Hwf' & Hval' & Hframe').
    { rewrite Hobj, lookup_insert_eq. eauto. }
    exists s'. change (repeat_call call (Datatypes.S (Datatypes.S n)) s)
      with (step call s ≫= repeat_call call (Datatypes.S n)).
    rewrite Hs1. cbn [mbind option_bind].
    split; [assumption |]. split; [assumption |].
    split.
    + rewrite Hval', Hval, Hwrites. cbn [default]. apply (f_equal Some).
      unfold add64, id. rewrite wrap64_add_l. apply (f_equal wrap64). lia.
    + intros m' c' Hne. rewrite (Hframe' m' c' Hne). now apply Hframe.
Qed.

(** X7. Two calls that write different counters commute, as far as any
    reader of the registry can tell: if one order returns, so does the
    other, and every counter reads the same after both orders. *)
Theorem X7_calls_on_different_counters_commute a b ta tb s sab :
  wf s ->
  target a = Some ta ->
  target b = Some tb ->
  ta <> tb ->
  run [a; b] s = Some sab ->
  exists sba,
    run [b; a] s = Some sba /\
    forall m c, value sba m c = value sab m c.
Proof.
  intros Hwf Hta Htb Hne Hrun. destruct ta as [ma ca], tb as [mb cb].
  cbn [run] in Hrun.
  destruct (step a s) as [sa |] eqn:Hsa; [| discriminate].
  cbn [mbind option_bind] in Hrun.
  destruct (step b sa) as [sab' |] eqn:Hsab; [| discriminate].
  cbn in Hrun. injection Hrun as ->.
  destruct (step_effect a s sa Hwf Hsa) as [Hwfa Ha]. rewrite Hta in Ha.
  destruct Ha as ([rega Hma] & Hva & Hfa).
  destruct (step_effect b sa sab Hwfa Hsab) as [Hwfab Hb]. rewrite Htb in Hb.
  destruct Hb as (Hmb & Hvb & Hfb).
  destruct (step_objects a s sa ma ca Hsa Hta) as (_ & rega' & Hobja).
  assert (Hmb0 : is_Some (objects s !! mb)).
  { rewrite Hobja, lookup_insert in Hmb. case_decide; [subst; eauto | assumption]. }
  destruct Hmb0 as [regb Hmb0].
  destruct (step_on_registry b s mb cb regb Hwf Htb Hmb0)
    as (sb & Hsb & Hwfb & Hvb' & Hfb').
  destruct (step_objects b s sb mb cb Hsb Htb) as (_ & regb' & Hobjb).
  assert (Hma' : is_Some (objects sb !! ma)).
  { rewrite Hobjb, lookup_insert. case_decide; eauto. }
  destruct Hma' as [rega2 Hma'].
  destruct (step_on_registry a sb ma ca rega2 Hwfb Hta Hma')
    as (sba & Hsba & Hwfba & Hva' & Hfa').
  exists sba. split.
  { cbn [run]. rewrite Hsb. cbn [mbind option_bind]. rewrite Hsba.
    reflexivity. }
  intros m c.
  destruct (decide ((m, c) = (ma, ca))) as [[= -> ->] | Hnea].
  { rewrite Hva', (Hfb' ma ca) by congruence.
    rewrite (Hfb ma ca) by congruence. now rewrite Hva. }
  destruct (decide ((m, c) = (mb, cb))) as [[= -> ->] | Hneb].
  { rewrite (Hfa' mb cb) by congruence. rewrite Hvb', Hvb.
    now rewrite (Hfa mb cb) by congruence. }
  rewrite (Hfa' m c Hnea), (Hfb' m c Hneb).
  now rewrite (Hfb m c Hneb), (Hfa m c Hnea).
Qed.

(** X8. No call removes a counter: whatever is called on a registry of
    the invariant, a counter that could be read before can be read
    after. *)
Theorem X8_counters_are_never_removed calls s s' m c :
  wf s ->
  run calls s = Some s' ->
  is_Some (value s m c) ->
  is_Some (value s' m c).
Proof.
  revert s. induction calls as [| call rest IH]; intros s Hwf Hrun Hv.
  - now injection Hrun as <-.
  - cbn [run] in Hrun.
    destruct (step call s) as [s1 |] eqn:Hstep; [| discriminate].
    cbn in Hrun.
    destruct (step_effect call s s1 Hwf Hstep) as [Hwf1 Heffect].
    apply (IH s1 Hwf1 Hrun).
    destruct (target call) as [[m0 c0] |].
    + destruct Heffect as (_ & Hval & Hframe).
      destruct (decide ((m, c) = (m0, c0))) as [[= -> ->] | Hne].
      * rewrite Hval. eauto.
      * now rewrite (Hframe m c Hne).
    + now rewrite Heffect.
Qed.

Lemma run_gauges calls s s' :
  wf s -> gauges_are_flags s -> run calls s = Some s' ->
  gauges_are_flags s'.
Proof.
  revert s. induction calls as [| call rest IH]; intros s Hwf Hg Hrun.
  - now injection Hrun as <-.
  - cbn [run] in Hrun.
    destruct (step call s) as [s1 |] eqn:Hstep; [| discriminate].
    cbn in Hrun.
    destruct (step_effect call s s1 Hwf Hstep) as [Hwf1 Heffect].
    apply (IH s1 Hwf1); [| assumption].
    intros m instance v Hv.
    destruct (target call) as [[m0 c0] |] eqn:Htarget.
    + destruct Heffect as (_ & Hval & Hframe).
      destruct (decide ((m, Counter1 FSConnections instance) = (m0, c0)))
        as [[= <- <-] | Hne].
      * rewrite Hval in Hv. injection Hv as <-.
        destruct call; try discriminate. cbn.
        destruct connected; auto.
      * rewrite (Hframe _ _ Hne) in Hv. eauto.
    + rewrite Heffect in Hv. eauto.
Qed.

(** X9. In every state the program reaches, each connection gauge that
    exists holds 0 or 1: only [SetFSConnectionStatus] writes a gauge, and no
    increment ever lands on one. *)
Theorem X9_connection_gauges_hold_0_or_1 calls s m instance v :
  run calls init = Some s ->
  value s m (Counter1 FSConnections instance) = Some v ->
  v = 0 \/ v = 1.
Proof.
  intros Hrun. apply (run_gauges calls init s init_wf); [| assumption].
  intros m' instance' v'. unfold value. cbn. rewrite lookup_empty.
  discriminate.
Qed.

End RegistryMore.

Section RegistryMoreRuns.
Import Metrics Registry Scenario.

Lemma registry_state_wf : wf registry_state.
Proof.
  apply (reachable_wf (CallGetMetrics :: registry_calls)).
  vm_compute. reflexivity.
Qed.

Lemma X5_witness :
  (objects registry_state !! 1%positive = None ->
   step (CallSetFSConnectionStatus 1%positive "fs1" false) registry_state = None) /\
  (is_Some (objects registry_state !! 1%positive) ->
   exists s',
     step (CallSetFSConnectionStatus 1%positive "fs1" false) registry_state
       = Some s' /\
     wf s' /\
     value s' 1%positive (Counter1 FSConnections "fs1") =
       Some (writes (CallSetFSConnectionStatus 1%positive "fs1" false)
               (value registry_state 1%positive
                  (Counter1 FSConnections "fs1"))) /\
     others_unchanged registry_state s' 1%positive
       (Counter1 FSConnections "fs1")).
Proof.
  apply (X5_each_method_writes_its_counter
           (CallSetFSConnectionStatus 1%positive "fs1" false) registry_state).
  exact registry_state_wf.
Defined.

Lemma X6_witness :
  exists s',
    repeat_call (CallIncrementStorageOperations 1%positive "get" "hit") 3
      registry_state = Some s' /\
    wf s' /\
    value s' 1%positive (Counter2 StorageOperations "get" "hit") =
      Some (wrap64 (default 0
                      (value registry_state 1%positive
                         (Counter2 StorageOperations "get" "hit"))
                    + Z.of_nat 3)) /\
    others_unchanged registry_state s' 1%positive
      (Counter2 StorageOperations "get" "hit").
Proof.
  apply (X6_counter_counts_calls
           (CallIncrementStorageOperations 1%positive "get" "hit") 2 registry_state).
  - exact registry_state_wf.
  - reflexivity.
  - reflexivity.
  - vm_compute. eauto.
Defined.

Lemma X7_witness :
  exists sba,
    run [CallIncrementEventsProcessed 1%positive "fs1" "CHANNEL_DESTROY";
         CallIncrementEventsReceived 1%positive "fs1" "CHANNEL_DESTROY"]
      registry_state = Some sba /\
    forall m c,
      value sba m c =
      value (default init
               (run [CallIncrementEventsReceived 1%positive "fs1" "CHANNEL_DESTROY";
                     CallIncrementEventsProcessed 1%positive "fs1" "CHANNEL_DESTROY"]
                  registry_state)) m c.
Proof.
  eapply (X7_calls_on_different_counters_commute
            (CallIncrementEventsReceived 1%positive "fs1" "CHANNEL_DESTROY")
            (CallIncrementEventsProcessed 1%positive "fs1" "CHANNEL_DESTROY")).
  - exact registry_state_wf.
  - reflexivity.
  - reflexivity.
  - discriminate.
  - vm_compute. reflexivity.
Defined.

Lemma X8_witness :
  is_Some (value (default init
                    (run [CallSetFSConnectionStatus 1%positive "fs1" false;
                          CallGetMetrics] registry_state))
             1%positive (Counter2 EventsReceived "fs1" "CHANNEL_CREATE")).
Proof.
  apply (X8_counters_are_never_removed
           [CallSetFSConnectionStatus 1%positive "fs1" false; CallGetMetrics]
           registry_state).
  - exact registry_state_wf.
  - vm_compute. reflexivity.
  - vm_compute. eauto.
Defined.

Lemma X9_witness : 1 = 0 \/ 1 = 1.
Proof.
  apply (X9_connection_gauges_hold_0_or_1
           (CallGetMetrics :: registry_calls) registry_state
           1%positive "fs1" 1).
  - vm_compute. reflexivity.
  - vm_compute. reflexivity.
Defined.

End RegistryMoreRuns.

(** ** More on the QoS calculator *)

Section CalculatorMore.
Import Connection Strconv Calculator.

Context {P : Parsers} {S : Type} {SS : Store.StateStore S}.

Implicit Types (event : FSEvent) (m : QoSMetrics) (w : World S).

(** The two guards of [CalculateMetrics]. *)
Lemma guards_dec event :
  {GetHeader event "variable_rtp_use_codec_rate" <> "" /\
   GetHeader event "Unique-ID" <> ""} +
  {GetHeader event "variable_rtp_use_codec_rate" = "" \/
   GetHeader event "Unique-ID" = ""}.
Proof.
  destruct (string_dec (GetHeader event "variable_rtp_use_codec_rate") "");
    [right; auto |].
  destruct (string_dec (GetHeader event "Unique-ID") "");
    [right; auto | left; auto].
Qed.

Lemma CalculateMetrics_guarded w now event instanceName :
  GetHeader event "variable_rtp_use_codec_rate" = "" \/
  GetHeader event "Unique-ID" = "" ->
  CalculateMetrics w now event instanceName =
    (w, (None,
         Some (if nonempty (GetHeader event "variable_rtp_use_codec_rate")
               then ErrNoUniqueID else ErrSkip))).
Proof.
  intros Hguard. unfold CalculateMetrics, nonempty.
  destruct (String.eqb_spec (GetHeader event "variable_rtp_use_codec_rate") "");
    [reflexivity |].
  destruct Hguard as [? | Huid]; [contradiction |].
  now rewrite Huid.
Qed.

(** X10. [CalculateMetrics] fails at its two guards and nowhere else: it
    returns an error exactly when the codec marker or [Unique-ID] is
    missing or empty, and then it returns no metric and leaves the store
    and the log untouched; otherwise it returns a metric and a nil error.
    It never returns both, nor neither. *)
Theorem X10_CalculateMetrics_fails_only_at_its_guards
    w now event instanceName :
  let result := CalculateMetrics w now event instanceName in
  (is_Some (snd (snd result)) <->
   GetHeader event "variable_rtp_use_codec_rate" = "" \/
   GetHeader event "Unique-ID" = "") /\
  (is_Some (snd (snd result)) ->
   fst (snd result) = None /\ fst result = w) /\
  (snd (snd result) = None -> is_Some (fst (snd result))).
Proof.
  intros result. subst result.
  destruct (guards_dec event) as [[Hmarker Huid] | Hguard].
  - destruct (CalculateMetrics_returns w now event instanceName Hmarker Huid)
      as (m & w' & c & d & Heq & _).
    rewrite Heq. cbn.
    split; [split; [intros [? ?]; discriminate | intros [? | ?]; contradiction] |].
    split; [intros [? ?]; discriminate | eauto].
  - rewrite (CalculateMetrics_guarded w now event instanceName Hguard).
    cbn.
    split; [split; eauto |].
    split; [auto | discriminate].
Qed.

(** X11. The calls of the logger that a call of [CalculateMetrics]
    makes, and the lines they write. The calls: none when a guard fails;
    otherwise the closing [DebugWithFields], preceded by one
    [WarnWithFields] exactly when the state was found and its [Delete]
    failed. No path calls [ErrorWithFields]: the four branches that would
    are never taken. The lines: made on a logger of the invariant, the
    calls do not panic, and each writes its line unless its level is below
    the logger's; so a logger at INFO, the level it has when nothing
    configured it, does not write the closing line, and only a logger at
    DEBUG does. *)
Theorem X11_CalculateMetrics_log_lines w now event instanceName ls fields :
  let key := GetHeader event "Unique-ID" in
  let warning :=
    match Store.Get (store w) key with
    | (s1, inl _) =>
        match snd (Store.Delete s1 key) with
        | Some _ => [Reported.delete_failed]
        | None => []
        end
    | (_, inr _) => []
    end in
  let made :=
    (if nonempty (GetHeader event "variable_rtp_use_codec_rate")
        && nonempty key
     then warning ++ [Reported.calculated]
     else [])%list in
  Logger.wf ls ->
  logs (fst (CalculateMetrics w now event instanceName)) =
    (logs w ++ made)%list /\
  (exists ls',
     Logged.replay fields made ls = Some ls' /\
     Logger.written ls' =
       (Logger.written ls
        ++ Logged.lines (Logged.logger_of ls) fields made)%list) /\
  (forall l,
     (Logged.writes l Reported.calculated = true <->
      Logger.minimum (Logger.zlogger l) = Logger.DebugLevel) /\
     (Logged.writes l Reported.delete_failed = false <->
      Logger.minimum (Logger.zlogger l) = Logger.ErrorLevel)).
Proof.
  intros key warning made Hwf.
  split; [| split].
  - subst key warning made.
    destruct (guards_dec event) as [[Hmarker Huid] | Hguard].
    + rewrite CalculateMetrics_proceeds by assumption.
      apply nonempty_true in Hmarker as Hm'.
      apply nonempty_true in Huid as Hu'.
      rewrite Hm', Hu'. cbv zeta. cbn [andb fst snd].
      unfold extractStateAndDomain.
      rewrite measured_ChannelID. cbn [ChannelID newQoSMetrics].
      destruct (Store.Get (store w) (GetHeader event "Unique-ID"))
        as [s1 [state | err]].
      * destruct (Store.Delete s1 (GetHeader event "Unique-ID"))
          as [s2 [e |]]; cbn; now rewrite <- ?app_assoc.
      * reflexivity.
    + rewrite (CalculateMetrics_guarded w now event instanceName Hguard).
      cbn [fst].
      replace (nonempty (GetHeader event "variable_rtp_use_codec_rate")
               && nonempty (GetHeader event "Unique-ID")) with false.
      * now rewrite app_nil_r.
      * destruct Hguard as [-> | ->]; cbn; [reflexivity |].
        now rewrite andb_false_r.
  - destruct (replay_spec fields made ls Hwf) as (ls' & Hrun & _ & Hout).
    eauto.
  - intros l. unfold Logged.writes. cbn.
    destruct (Logger.minimum (Logger.zlogger l)); cbn;
      (split; split; intros; congruence || lia).
Qed.

Lemma CalculateMetrics_emitted w now event instanceName w' m :
  CalculateMetrics w now event instanceName = (w', (Some m, None)) ->
  GetHeader event "variable_rtp_use_codec_rate" <> "" /\
  GetHeader event "Unique-ID" <> "" /\
  exists correlationID domainName,
    m = set_DomainName domainName
          (set_CorrelationID correlationID
             (fst (extractCodecInfo event
                (fst (extractTrafficMetrics event
                   (fst (extractQualityMetrics event
                      (newQoSMetrics now instanceName
                         (GetHeader event "Unique-ID"))))))))).
Proof.
  intros Hrun.
  destruct (guards_dec event) as [[Hmarker Huid] | Hguard].
  - split; [assumption |]. split; [assumption |].
    destruct (CalculateMetrics_returns w now event instanceName Hmarker Huid)
      as (m1 & w1 & c & d & Heq & Hm).
    rewrite Heq in Hrun. injection Hrun as _ <-. eauto.
  - rewrite (CalculateMetrics_guarded w now event instanceName Hguard)
      in Hrun.
    discriminate.
Qed.

Ltac fields :=
  rewrite extractQualityMetrics_eq; cbv zeta; cbn [fst];
  unfold extractTrafficMetrics; cbv zeta; cbn [fst];
  rewrite extractCodecInfo_eq; cbv zeta; cbn [fst];
  cbn [Timestamp InstanceName ChannelID MOSScore AvgJitter MinJitter
       MaxJitter Delta TotalPackets PacketLoss TotalBytes SrcPort DstPort
       newQoSMetrics
       set_DomainName set_CorrelationID set_ReportTimestamp set_DstPort
       set_DstIP set_SrcPort set_SrcIP set_ClockRate set_PTime set_CodecPT
       set_CodecName set_PacketLoss set_TotalBytes set_TotalPackets
       set_Delta set_AvgJitter set_MaxJitter set_MinJitter set_MOSScore].

(** X12. Every metric that [CalculateMetrics] emits identifies its call
    leg: [ChannelID] is the event's [Unique-ID] and is not empty,
    [InstanceName] is the instance passed in and [Timestamp] the time of
    the call; no extraction step overwrites them. *)
Theorem X12_emitted_metric_is_identified w now event instanceName w' m :
  CalculateMetrics w now event instanceName = (w', (Some m, None)) ->
  ChannelID m = GetHeader event "Unique-ID" /\
  ChannelID m <> "" /\
  InstanceName m = instanceName /\
  Timestamp m = now.
Proof.
  intros Hrun.
  destruct (CalculateMetrics_emitted _ _ _ _ _ _ Hrun)
    as (_ & Huid & c & d & ->).
  fields. auto.
Qed.

(** X13. Every metric that [CalculateMetrics] emits has its numbers in
    range and its average consistent, whatever the headers held:
    [AvgJitter] is (MinJitter + MaxJitter) / 2 when one of the two is
    positive and zero otherwise; the two ports are below 65536 and not
    negative; the three totals are [int64] values. *)
Theorem X13_emitted_metric_is_consistent w now event instanceName w' m :
  CalculateMetrics w now event instanceName = (w', (Some m, None)) ->
  AvgJitter m =
    (if PrimFloat.ltb 0 (MinJitter m) || PrimFloat.ltb 0 (MaxJitter m)
     then PrimFloat.div (PrimFloat.add (MinJitter m) (MaxJitter m)) 2
     else 0%float) /\
  0 <= SrcPort m < 65536 /\
  0 <= DstPort m < 65536 /\
  min_int64 <= TotalPackets m <= max_int64 /\
  min_int64 <= TotalBytes m <= max_int64 /\
  min_int64 <= PacketLoss m <= max_int64.
Proof.
  intros Hrun.
  destruct (CalculateMetrics_emitted _ _ _ _ _ _ Hrun)
    as (_ & _ & c & d & ->).
  fields.
  assert (Hport : forall v : option Z,
            0 <= default 0 (to_uint16 <$> v) < 65536).
  { intros [port |]; cbn; [| lia]. unfold to_uint16.
    pose proof (Z.mod_pos_bound port (2 ^ 16)). lia. }
  repeat split; try apply Hport; try apply wrap64_range; try apply Hport.
Qed.

End CalculatorMore.

(** X14. What the store holds or answers changes two fields of the metric
    and nothing else: run on the same event at the same time, two
    calculators over any two stores (of any kind, in any state) agree on
    whether they fail and with what error, and the metrics they emit are
    equal once [CorrelationID] and [DomainName] are set aside. *)
Theorem X14_store_decides_only_correlation_and_domain
    {P : Strconv.Parsers} {S1 S2 : Type}
    {SS1 : Store.StateStore S1} {SS2 : Store.StateStore S2}
    (w1 : Calculator.World S1) (w2 : Calculator.World S2)
    now event instanceName :
  let blank m :=
    Calculator.set_DomainName "" (Calculator.set_CorrelationID "" m) in
  let result1 := snd (Calculator.CalculateMetrics w1 now event instanceName) in
  let result2 := snd (Calculator.CalculateMetrics w2 now event instanceName) in
  snd result1 = snd result2 /\
  blank <$> fst result1 = blank <$> fst result2.
Proof.
  intros blank result1 result2. subst blank result1 result2.
  destruct (guards_dec event) as [[Hmarker Huid] | Hguard].
  - destruct (CalculateMetrics_returns w1 now event instanceName Hmarker Huid)
      as (m1 & w1' & c1 & d1 & Heq1 & ->).
    destruct (CalculateMetrics_returns w2 now event instanceName Hmarker Huid)
      as (m2 & w2' & c2 & d2 & Heq2 & ->).
    rewrite Heq1, Heq2. split; reflexivity.
  - rewrite (CalculateMetrics_guarded w1 now event instanceName Hguard).
    rewrite (CalculateMetrics_guarded w2 now event instanceName Hguard).
    split; reflexivity.
Qed.


Section CalculatorRequests.
Import Connection Strconv Calculator Recorder.

Context {P : Parsers} {S : Type} {SS : Store.StateStore S}.

(** X15. What [CalculateMetrics] asks of the store, observed through a
    store that records its requests: nothing when a guard fails; otherwise
    one [Get] of the event's [Unique-ID], followed by one [Delete] of the
    same key exactly when the [Get] returned a state. It never writes to
    the store and never touches another key. The recording changes
    nothing: result, log and store are those of the run on the store
    inside. *)
Theorem X15_CalculateMetrics_store_requests
    (w : World (Recording S)) now event instanceName :
  let key := GetHeader event "Unique-ID" in
  let plain := {| store := inside (store w); logs := logs w |} in
  let run := CalculateMetrics w now event instanceName in
  let plain_run := CalculateMetrics plain now event instanceName in
  asked (store (fst run)) =
    (asked (store w) ++
     if nonempty (GetHeader event "variable_rtp_use_codec_rate")
        && nonempty key
     then AskGet key ::
          match snd (Store.Get (inside (store w)) key) with
          | inl _ => [AskDelete key]
          | inr _ => []
          end
     else [])%list /\
  snd run = snd plain_run /\
  inside (store (fst run)) = store (fst plain_run) /\
  logs (fst run) = logs (fst plain_run).
Proof.
  intros key plain run plain_run. subst key plain run plain_run.
  destruct (guards_dec event) as [[Hmarker Huid] | Hguard].
  - rewrite !CalculateMetrics_proceeds by assumption.
    apply nonempty_true in Hmarker as Hm'. apply nonempty_true in Huid as Hu'.
    rewrite Hm', Hu'. cbv zeta. cbn [andb].
    unfold extractStateAndDomain.
    rewrite !measured_ChannelID. cbn [ChannelID newQoSMetrics store logs].
    cbn [Store.Get Store.Delete recording record].
    destruct (Store.Get (inside (store w)) (GetHeader event "Unique-ID"))
      as [s1 [state | err]]; cbn [fst snd inside asked].
    + destruct (Store.Delete s1 (GetHeader event "Unique-ID"))
        as [s2 [e |]]; cbn; rewrite <- ?app_assoc; auto.
    + cbn. auto.
  - rewrite !(CalculateMetrics_guarded _ now event instanceName Hguard).
    cbn [fst snd store logs].
    replace (nonempty (GetHeader event "variable_rtp_use_codec_rate")
             && nonempty (GetHeader event "Unique-ID")) with false.
    + rewrite app_nil_r. auto.
    + destruct Hguard as [-> | ->]; cbn; [reflexivity |].
      now rewrite andb_false_r.
Qed.

End CalculatorRequests.

Section CalculatorMoreRuns.
Import Connection Strconv Calculator Scenario.

Lemma X12_witness :
  ChannelID
    (default (newQoSMetrics 0 "" "")
       (fst (snd (CalculateMetrics (P := decimal) (world memory_U1) 20
                    termination_U1 "fs1"))))
    = GetHeader termination_U1 "Unique-ID" /\
  ChannelID
    (default (newQoSMetrics 0 "" "")
       (fst (snd (CalculateMetrics (P := decimal) (world memory_U1) 20
                    termination_U1 "fs1")))) <> "" /\
  InstanceName
    (default (newQoSMetrics 0 "" "")
       (fst (snd (CalculateMetrics (P := decimal) (world memory_U1) 20
                    termination_U1 "fs1")))) = "fs1" /\
  Timestamp
    (default (newQoSMetrics 0 "" "")
       (fst (snd (CalculateMetrics (P := decimal) (world memory_U1) 20
                    termination_U1 "fs1")))) = 20.
Proof.
  eapply (X12_emitted_metric_is_identified (P := decimal)
            (world memory_U1) 20 termination_U1 "fs1").
  vm_compute. reflexivity.
Defined.

Lemma X13_witness :
  let m :=
    default (newQoSMetrics 0 "" "")
      (fst (snd (CalculateMetrics (P := decimal) (world memory_empty) 20
                   termination_garbled "fs1"))) in
  AvgJitter m =
    (if PrimFloat.ltb 0 (MinJitter m) || PrimFloat.ltb 0 (MaxJitter m)
     then PrimFloat.div (PrimFloat.add (MinJitter m) (MaxJitter m)) 2
     else 0%float) /\
  0 <= SrcPort m < 65536 /\
  0 <= DstPort m < 65536 /\
  min_int64 <= TotalPackets m <= max_int64 /\
  min_int64 <= TotalBytes m <= max_int64 /\
  min_int64 <= PacketLoss m <= max_int64.
Proof.
  eapply (X13_emitted_metric_is_consistent (P := decimal)
            (world memory_empty) 20 termination_garbled "fs1").
  vm_compute. reflexivity.
Defined.

Lemma X11_witness :
  let key := GetHeader termination_U1 "Unique-ID" in
  let warning :=
    match Store.Get (store (world remote_U1)) key with
    | (s1, inl _) =>
        match snd (Store.Delete s1 key) with
        | Some _ => [Reported.delete_failed]
        | None => []
        end
    | (_, inr _) => []
    end in
  let made :=
    (if nonempty (GetHeader termination_U1 "variable_rtp_use_codec_rate")
        && nonempty key
     then warning ++ [Reported.calculated]
     else [])%list in
  logs (fst (CalculateMetrics (P := decimal) (world remote_U1) 20
               termination_U1 "fs1"))
    = (logs (world remote_U1) ++ made)%list /\
  (exists ls',
     Logged.replay (fun _ => ∅) made Logger.init = Some ls' /\
     Logger.written ls' =
       (Logger.written Logger.init
        ++ Logged.lines (Logged.logger_of Logger.init) (fun _ => ∅) made)%list)
  /\
  (forall l,
     (Logged.writes l Reported.calculated = true <->
      Logger.minimum (Logger.zlogger l) = Logger.DebugLevel) /\
     (Logged.writes l Reported.delete_failed = false <->
      Logger.minimum (Logger.zlogger l) = Logger.ErrorLevel)).
Proof.
  apply (X11_CalculateMetrics_log_lines (P := decimal) (world remote_U1) 20
           termination_U1 "fs1" Logger.init (fun _ => ∅)).
  exact logger_init_wf.
Defined.

End CalculatorMoreRuns.

(** ** The exposition of the registry *)

Section ExpositionFacts.
Import Metrics Registry Exposition.

Context `{MapRange}.

Lemma string_append_assoc (a b c : string) : (a +:+ b) +:+ c = a +:+ b +:+ c.
Proof.
  induction a as [| x a IH]; [reflexivity |].
  change (String x ((a +:+ b) +:+ c) = String x (a +:+ b +:+ c)).
  now rewrite IH.
Qed.

Lemma string_append_empty_r (a : string) : a +:+ "" = a.
Proof.
  induction a as [| x a IH]; [reflexivity |].
  change (String x (a +:+ "") = String x a). now rewrite IH.
Qed.

Lemma string_append_empty_l (a : string) : "" +:+ a = a.
Proof. reflexivity. Qed.

Lemma join_app l1 l2 : join (l1 ++ l2) = join l1 +:+ join l2.
Proof.
  induction l1 as [| x l1 IH]; cbn; [reflexivity |].
  fold (join (l1 ++ l2)). fold (join l1).
  now rewrite IH, string_append_assoc.
Qed.

Lemma join_elem x l : x ∈ l -> exists pre post, join l = pre +:+ x +:+ post.
Proof.
  intros (l1 & l2 & ->)%list_elem_of_split.
  exists (join l1), (join l2). now rewrite join_app.
Qed.

(** What the law of [range] gives. *)
Lemma range_elem {V} site (m : gmap string V) k v :
  (k, v) ∈ range site m <-> m !! k = Some v.
Proof. rewrite range_visits. apply elem_of_map_to_list. Qed.

Lemma range_NoDup_keys {V} site (m : gmap string V) :
  NoDup (range site m).*1.
Proof. rewrite range_visits. apply NoDup_fst_map_to_list. Qed.

(** The loops, on cells that are allocated. *)
Lemma each_counter_spec f k1 sample0 entries cs output :
  Forall (fun e => is_Some (cs !! e.2)) entries ->
  (forall k v, sample0 k v = sample (Counter2 f k1 k) v) ->
  each_counter sample0 entries cs output =
    Some (output +:+
          join (lines_of cs ((fun e => (Counter2 f k1 e.1, e.2)) <$> entries))).
Proof.
  intros Hall Hsample. revert output.
  induction Hall as [| [k p] rest [v Hv] _ IH]; intros output.
  - cbn. now rewrite string_append_empty_r.
  - cbn [each_counter]. unfold LoadInt64. cbn in Hv. rewrite Hv.
    cbn [mbind option_bind]. rewrite IH.
    cbn [fmap list_fmap lines_of join foldr fst snd].
    rewrite Hv. cbn [default]. rewrite Hsample.
    now rewrite string_append_assoc.
Qed.

Lemma each_counter1_spec f entries cs output :
  Forall (fun e => is_Some (cs !! e.2)) entries ->
  each_counter (sample1 f) entries cs output =
    Some (output +:+
          join (lines_of cs ((fun e => (Counter1 f e.1, e.2)) <$> entries))).
Proof.
  intros Hall. revert output.
  induction Hall as [| [k p] rest [v Hv] _ IH]; intros output.
  - cbn. now rewrite string_append_empty_r.
  - cbn [each_counter]. unfold LoadInt64. cbn in Hv. rewrite Hv.
    cbn [mbind option_bind]. rewrite IH.
    cbn [fmap list_fmap lines_of join foldr fst snd].
    rewrite Hv. cbn [default sample].
    now rewrite string_append_assoc.
Qed.

Lemma lines_of_app cs l1 l2 :
  lines_of cs (l1 ++ l2) = (lines_of cs l1 ++ lines_of cs l2)%list.
Proof. unfold lines_of. apply fmap_app. Qed.

Lemma each_map_spec site f entries cs output :
  Forall (fun e => is_Some (cs !! e.2)) (visit_entries site f entries) ->
  each_map site (sample2 f) entries cs output =
    Some (output +:+ join (lines_of cs (visit_entries site f entries))).
Proof.
  revert output.
  induction entries as [| [k1 m2] rest IH]; intros output Hall.
  - cbn. now rewrite string_append_empty_r.
  - unfold visit_entries in Hall. cbn [mbind list_bind] in Hall.
    apply Forall_app in Hall as [Hhere Hrest].
    cbn [each_map].
    rewrite (each_counter_spec f k1).
    + cbn [mbind option_bind]. rewrite IH by exact Hrest.
      unfold visit_entries. cbn [mbind list_bind].
      rewrite lines_of_app, join_app.
      now rewrite string_append_assoc.
    + apply Forall_forall. intros [k2 p] Hin.
      rewrite Forall_forall in Hhere.
      apply (Hhere (Counter2 f k1 k2, p)).
      apply list_elem_of_fmap. now exists (k2, p).
    + reflexivity.
Qed.

(** The counters that the loops visit are those of the registry. *)
Lemma inner_lookup fam k1 k2 p :
  inner fam k1 !! k2 = Some p <->
  exists m2, fam !! k1 = Some m2 /\ m2 !! k2 = Some p.
Proof.
  unfold inner. destruct (fam !! k1) as [m2 |]; cbn.
  - split; [eauto | now intros (? & [= <-] & ?)].
  - rewrite lookup_empty. split; [discriminate | now intros (? & ? & ?)].
Qed.

Lemma visit2_elem f reg c p :
  (c, p) ∈ visit2 f reg <-> in_family2 f c /\ address reg c = Some p.
Proof.
  unfold visit2, visit_entries. rewrite list_elem_of_bind. split.
  - intros ([k1 m2] & Hin & Hk1%range_elem).
    apply list_elem_of_fmap in Hin as ([k2 q] & [= -> ->] & Hk2%range_elem).
    split; [now exists k1, k2 |].
    cbn. apply inner_lookup. eauto.
  - intros [(k1 & k2 & ->) Haddr]. cbn in Haddr.
    apply inner_lookup in Haddr as (m2 & Hk1 & Hk2).
    exists (k1, m2). split; [| now apply range_elem].
    apply list_elem_of_fmap. exists (k2, p).
    split; [reflexivity | now apply range_elem].
Qed.

Lemma visit1_elem f reg c p :
  (c, p) ∈ visit1 f reg <-> in_family1 f c /\ address reg c = Some p.
Proof.
  unfold visit1. rewrite list_elem_of_fmap. split.
  - intros ([k q] & [= -> ->] & Hk%range_elem). split; [now exists k | exact Hk].
  - intros [(k & ->) Haddr]. exists (k, p).
    split; [reflexivity | now apply range_elem].
Qed.

Lemma visit2_NoDup f reg : NoDup (visit2 f reg).*1.
Proof.
  unfold visit2, visit_entries.
  set (site := [field2 f]). set (fam := family2 f reg).
  assert (Hkeys := range_NoDup_keys site fam).
  assert (Helem : forall e, e ∈ range site fam -> fam !! e.1 = Some e.2).
  { intros [k m2]. apply range_elem. }
  induction (range site fam) as [| [k1 m2] rest IH]; [constructor |].
  cbn [mbind list_bind]. rewrite fmap_app. apply NoDup_app.
  cbn in Hkeys. apply NoDup_cons in Hkeys as [Hfresh Hkeys].
  split; [| split].
  - rewrite <- list_fmap_compose.
    replace (fst ∘ (fun e : string * ptr => (Counter2 f k1 e.1, e.2)))
      with (Counter2 f k1 ∘ fst (B := ptr)) by reflexivity.
    rewrite list_fmap_compose.
    apply NoDup_fmap; [| apply range_NoDup_keys].
    now intros ? ? [= ->].
  - intros c Hc Hc'.
    apply list_elem_of_fmap in Hc as ([c1 p1] & -> & Hc).
    apply list_elem_of_fmap in Hc as ([k2 q2] & [= -> ->] & _).
    apply list_elem_of_fmap in Hc' as ([c3 p3] & Heq & Hc').
    apply list_elem_of_bind in Hc' as ([k1' m2'] & Hc' & Hin).
    apply list_elem_of_fmap in Hc' as ([k4 q4] & [= -> ->] & _).
    cbn in Heq. injection Heq as -> _.
    apply Hfresh. apply list_elem_of_fmap. now exists (k1', m2').
  - apply IH; [assumption |].
    intros e He. apply Helem. now right.
Qed.

Lemma visit1_NoDup f reg : NoDup (visit1 f reg).*1.
Proof.
  unfold visit1. rewrite <- list_fmap_compose.
  replace (fst ∘ (fun e : string * ptr => (Counter1 f e.1, e.2)))
    with (Counter1 f ∘ fst (B := ptr)) by reflexivity.
  rewrite list_fmap_compose.
  apply NoDup_fmap; [| apply range_NoDup_keys].
  now intros ? ? [= ->].
Qed.

(** On a state of the invariant the visited cells are allocated, and the
    lines written for them show the counters. *)
Lemma visited_allocated s m reg (visited : list (Counter * ptr)) :
  wf s -> objects s !! m = Some reg ->
  (forall c p, (c, p) ∈ visited -> address reg c = Some p) ->
  Forall (fun e => is_Some (cells s !! e.2)) visited /\
  Forall2 (shows s m) visited.*1 (lines_of (cells s) visited).
Proof.
  intros Hwf Hm Haddr.
  assert (Hcell : forall c p, (c, p) ∈ visited ->
            exists v, cells s !! p = Some v /\ value s m c = Some v).
  { intros c p Hin. specialize (Haddr c p Hin).
    destruct (wf_allocated s Hwf m reg c p Hm Haddr) as [v Hv].
    exists v. split; [assumption |].
    unfold value. rewrite Hm. cbn. rewrite Haddr. cbn. exact Hv. }
  clear Haddr. induction visited as [| [c p] rest IH].
  - split; constructor.
  - destruct IH as [IH1 IH2].
    { intros c' p' Hin. apply Hcell. now right. }
    destruct (Hcell c p) as (v & Hv & Hval); [now left |].
    split.
    + constructor; [now exists v | assumption].
    + cbn. constructor; [| exact IH2].
      exists v. rewrite Hv. now split.
Qed.

(** The text, block by block. *)
Lemma exposition_layout s m reg :
  wf s -> objects s !! m = Some reg ->
  GetPrometheusMetrics m s =
    Some (layout (fun f => lines_of (cells s) (visit2 f reg))
                 (fun f => lines_of (cells s) (visit1 f reg))).
Proof.
  intros Hwf Hm.
  assert (H2 : forall f output,
            range2 (field2 f) (sample2 f) (family2 f reg) (cells s) output =
              Some (output +:+ join (lines_of (cells s) (visit2 f reg)))).
  { intros f output. unfold range2. apply each_map_spec.
    apply (visited_allocated s m reg); [assumption | assumption |].
    intros c p Hin. now apply visit2_elem in Hin. }
  assert (H1 : forall f output,
            range1 (field1 f) (sample1 f) (family1 f reg) (cells s) output =
              Some (output +:+ join (lines_of (cells s) (visit1 f reg)))).
  { intros f output. unfold range1. apply each_counter1_spec.
    assert (Hall := visited_allocated s m reg (visit1 f reg) Hwf Hm).
    destruct Hall as [Hall _].
    { intros c p Hin. now apply visit1_elem in Hin. }
    apply Forall_forall. intros [k p] Hin.
    rewrite Forall_forall in Hall.
    apply (Hall (Counter1 f k, p)).
    apply list_elem_of_fmap. now exists (k, p). }
  unfold GetPrometheusMetrics. rewrite Hm. cbn [mbind option_bind].
  cbv zeta.
  rewrite (H2 EventsReceived). cbn [mbind option_bind].
  rewrite (H2 EventsProcessed). cbn [mbind option_bind].
  rewrite (H2 RTCPMessagesProcessed). cbn [mbind option_bind].
  rewrite (H1 QoSMessagesGenerated). cbn [mbind option_bind].
  rewrite (H2 StorageOperations). cbn [mbind option_bind].
  rewrite (H1 FSConnections). cbn [mbind option_bind].
  f_equal. unfold layout.
  rewrite !join_app. cbn [join foldr].
  now rewrite !string_append_assoc, !string_append_empty_l.
Qed.

Lemma value_address s m c v :
  value s m c = Some v <->
  exists reg p,
    objects s !! m = Some reg /\ address reg c = Some p /\
    cells s !! p = Some v.
Proof.
  unfold value. split.
  - destruct (objects s !! m) as [reg |]; [| discriminate]. cbn.
    destruct (address reg c) as [p |] eqn:Haddr; [| discriminate]. cbn.
    intros Hv. now exists reg, p.
  - intros (reg & p & -> & Haddr & Hv). cbn. rewrite Haddr. exact Hv.
Qed.

Lemma exposition_exposes s m c v :
  wf s -> value s m c = Some v ->
  exists pre post,
    GetPrometheusMetrics m s = Some (pre +:+ sample c v +:+ post).
Proof.
  intros Hwf (reg & p & Hm & Haddr & Hv)%value_address.
  rewrite (exposition_layout s m reg Hwf Hm).
  enough (Hin : sample c v ∈
            match c with
            | Counter2 f _ _ => lines_of (cells s) (visit2 f reg)
            | Counter1 f _ => lines_of (cells s) (visit1 f reg)
            end).
  { unfold layout.
    destruct (join_elem (sample c v)
                ([HELP_events_received; TYPE_events_received]
                 ++ lines_of (cells s) (visit2 EventsReceived reg)
                 ++ [HELP_events_processed; TYPE_events_processed]
                 ++ lines_of (cells s) (visit2 EventsProcessed reg)
                 ++ [HELP_rtcp_messages_processed;
                     TYPE_rtcp_messages_processed]
                 ++ lines_of (cells s) (visit2 RTCPMessagesProcessed reg)
                 ++ [HELP_qos_messages_generated;
                     TYPE_qos_messages_generated]
                 ++ lines_of (cells s) (visit1 QoSMessagesGenerated reg)
                 ++ [HELP_storage_operations; TYPE_storage_operations]
                 ++ lines_of (cells s) (visit2 StorageOperations reg)
                 ++ [HELP_fs_connections; TYPE_fs_connections]
                 ++ lines_of (cells s) (visit1 FSConnections reg))%list)
      as (pre & post & Hjoin).
    - destruct c as [[] k1 k2 | [] k];
        repeat first [ apply elem_of_app; left; exact Hin
                     | apply elem_of_app; right ];
        exact Hin.
    - exists pre, post. now rewrite Hjoin. }
  destruct c as [f k1 k2 | f k].
  - apply (list_elem_of_fmap_2' _ _ (Counter2 f k1 k2, p)).
    + apply visit2_elem. split; [now exists k1, k2 | assumption].
    + cbn [fst snd]. now rewrite Hv.
  - apply (list_elem_of_fmap_2' _ _ (Counter1 f k, p)).
    + apply visit1_elem. split; [now exists k | assumption].
    + cbn [fst snd]. now rewrite Hv.
Qed.

(** X20. The text that [GetPrometheusMetrics] returns for a registry of
    the invariant: the method does not panic, and the text is the six
    families in the fixed order received, processed, RTCP, QoS, storage,
    connections; each family is its HELP and TYPE lines followed by one
    sample line for each counter of that family that the registry has,
    each counter once, showing the value the counter holds. The counters
    of a family come in whatever order the map iteration takes. *)
Theorem X20_exposition_lists_each_counter_once s m :
  wf s -> is_Some (objects s !! m) ->
  exists (visited2 : Family2 -> list Counter)
         (visited1 : Family1 -> list Counter)
         (block2 : Family2 -> list string)
         (block1 : Family1 -> list string),
    GetPrometheusMetrics m s = Some (layout block2 block1) /\
    (forall f,
       NoDup (visited2 f) /\
       (forall c, c ∈ visited2 f <->
                  in_family2 f c /\ is_Some (value s m c)) /\
       Forall2 (shows s m) (visited2 f) (block2 f)) /\
    (forall f,
       NoDup (visited1 f) /\
       (forall c, c ∈ visited1 f <->
                  in_family1 f c /\ is_Some (value s m c)) /\
       Forall2 (shows s m) (visited1 f) (block1 f)).
Proof.
  intros Hwf [reg Hm].
  assert (Hhas : forall c, is_Some (value s m c) <-> is_Some (address reg c)).
  { intros c. split.
    - intros [v (reg0 & p & Hm0 & Haddr & _)%value_address].
      rewrite Hm in Hm0. injection Hm0 as <-. eauto.
    - intros [p Haddr].
      destruct (wf_allocated s Hwf m reg c p Hm Haddr) as [v Hv].
      exists v. apply value_address. eauto. }
  exists (fun f => (visit2 f reg).*1), (fun f => (visit1 f reg).*1),
         (fun f => lines_of (cells s) (visit2 f reg)),
         (fun f => lines_of (cells s) (visit1 f reg)).
  split; [now apply exposition_layout |].
  split; intros f.
  - split; [apply visit2_NoDup |]. split.
    + intros c. rewrite Hhas, list_elem_of_fmap. split.
      * intros ([c0 p] & -> & Hin). apply visit2_elem in Hin as [Hf Haddr].
        cbn. eauto.
      * intros [Hf [p Haddr]]. exists (c, p).
        split; [reflexivity |]. now apply visit2_elem.
    + apply (visited_allocated s m reg); [assumption | assumption |].
      intros c p Hin. now apply visit2_elem in Hin.
  - split; [apply visit1_NoDup |]. split.
    + intros c. rewrite Hhas, list_elem_of_fmap. split.
      * intros ([c0 p] & -> & Hin). apply visit1_elem in Hin as [Hf Haddr].
        cbn. eauto.
      * intros [Hf [p Haddr]]. exists (c, p).
        split; [reflexivity |]. now apply visit1_elem.
    + apply (visited_allocated s m reg); [assumption | assumption |].
      intros c p Hin. now apply visit1_elem in Hin.
Qed.

(** X21. Every counter is exposed: on a registry of the invariant, for
    each counter that holds a value the text contains the sample line of
    that counter with that value, in decimal. For a connection gauge the
    line carries the label connected when the value is 1 and disconnected
    otherwise. Labels are copied as they are, without escaping. *)
Theorem X21_every_counter_is_exposed s m c v :
  wf s -> value s m c = Some v ->
  exists pre post,
    GetPrometheusMetrics m s = Some (pre +:+ sample c v +:+ post).
Proof. apply exposition_exposes. Qed.

(** X22. What a method wrote is what the exposition shows next: after any
    call of the registry that writes a counter, made on a registry of the
    invariant, the text contains the line of that counter with the value
    the call wrote, that is the previous value plus one in [int64]
    arithmetic for an increment, and 1 or 0 for the gauge. *)
Theorem X22_exposition_shows_what_a_method_wrote call s s' m c :
  wf s -> target call = Some (m, c) -> step call s = Some s' ->
  exists pre post,
    GetPrometheusMetrics m s' =
      Some (pre +:+ sample c (writes call (value s m c)) +:+ post).
Proof.
  intros Hwf Htarget Hstep.
  destruct (step_effect call s s' Hwf Hstep) as [Hwf' Heffect].
  rewrite Htarget in Heffect. destruct Heffect as (_ & Hval & _).
  now apply exposition_exposes.
Qed.

End ExpositionFacts.

Section ExpositionOrders.
Import Metrics Registry Exposition.

(** X23. The order of map iteration decides nothing but the order of the
    sample lines within a family: for any two iteration orders the two
    texts have the same layout, and the sample lines of each family are
    the same up to their order. *)
Theorem X23_iteration_order_permutes_lines_within_a_family
    (order1 order2 : MapRange) s m :
  wf s -> is_Some (objects s !! m) ->
  exists (a2 b2 : Family2 -> list string) (a1 b1 : Family1 -> list string),
    GetPrometheusMetrics (H := order1) m s = Some (layout a2 a1) /\
    GetPrometheusMetrics (H := order2) m s = Some (layout b2 b1) /\
    (forall f, a2 f ≡ₚ b2 f) /\ (forall f, a1 f ≡ₚ b1 f).
Proof.
  intros Hwf [reg Hm].
  exists (fun f => lines_of (cells s) (visit2 (H := order1) f reg)),
         (fun f => lines_of (cells s) (visit2 (H := order2) f reg)),
         (fun f => lines_of (cells s) (visit1 (H := order1) f reg)),
         (fun f => lines_of (cells s) (visit1 (H := order2) f reg)).
  split; [now apply exposition_layout |].
  split; [now apply exposition_layout |].
  split; intros f; unfold lines_of; apply fmap_Permutation.
  - apply NoDup_Permutation.
    + eapply NoDup_fmap_1, visit2_NoDup.
    + eapply NoDup_fmap_1, visit2_NoDup.
    + intros [c p]. now rewrite !visit2_elem.
  - apply NoDup_Permutation.
    + eapply NoDup_fmap_1, visit1_NoDup.
    + eapply NoDup_fmap_1, visit1_NoDup.
    + intros [c p]. now rewrite !visit1_elem.
Qed.

End ExpositionOrders.

Section ExpositionRuns.
Import Metrics Registry Exposition Scenario.

Lemma X20_witness :
  exists (visited2 : Family2 -> list Counter)
         (visited1 : Family1 -> list Counter)
         (block2 : Family2 -> list string)
         (block1 : Family1 -> list string),
    GetPrometheusMetrics (H := key_order) 1%positive registry_state =
      Some (layout block2 block1) /\
    (forall f,
       NoDup (visited2 f) /\
       (forall c, c ∈ visited2 f <->
                  in_family2 f c /\
                  is_Some (value registry_state 1%positive c)) /\
       Forall2 (shows registry_state 1%positive) (visited2 f) (block2 f)) /\
    (forall f,
       NoDup (visited1 f) /\
       (forall c, c ∈ visited1 f <->
                  in_family1 f c /\
                  is_Some (value registry_state 1%positive c)) /\
       Forall2 (shows registry_state 1%positive) (visited1 f) (block1 f)).
Proof.
  apply (X20_exposition_lists_each_counter_once (H := key_order)
           registry_state 1%positive).
  - exact registry_state_wf.
  - vm_compute. eauto.
Defined.

Lemma X21_witness :
  exists pre post,
    GetPrometheusMetrics (H := key_order) 1%positive registry_state =
      Some (pre
            +:+ sample (Counter2 EventsReceived "fs1" "CHANNEL_DESTROY") 2
            +:+ post).
Proof.
  apply (X21_every_counter_is_exposed (H := key_order) registry_state
           1%positive (Counter2 EventsReceived "fs1" "CHANNEL_DESTROY") 2).
  - exact registry_state_wf.
  - vm_compute. reflexivity.
Defined.

Lemma X22_witness :
  exists pre post,
    GetPrometheusMetrics (H := key_order) 1%positive
      (default init
         (step (CallSetFSConnectionStatus 1%positive "fs1" false)
            registry_state)) =
      Some (pre
            +:+ sample (Counter1 FSConnections "fs1")
                  (writes (CallSetFSConnectionStatus 1%positive "fs1" false)
                     (value registry_state 1%positive
                        (Counter1 FSConnections "fs1")))
            +:+ post).
Proof.
  apply (X22_exposition_shows_what_a_method_wrote (H := key_order)
           (CallSetFSConnectionStatus 1%positive "fs1" false)
           registry_state).
  - exact registry_state_wf.
  - reflexivity.
  - vm_compute. reflexivity.
Defined.

(** The keys in the opposite order: another order a loop may take. *)
Lemma X23_witness :
  exists (a2 b2 : Family2 -> list string) (a1 b1 : Family1 -> list string),
    GetPrometheusMetrics (H := key_order) 1%positive registry_state =
      Some (layout a2 a1) /\
    GetPrometheusMetrics (H := reverse_key_order) 1%positive registry_state =
      Some (layout b2 b1) /\
    (forall f, a2 f ≡ₚ b2 f) /\ (forall f, a1 f ≡ₚ b1 f).
Proof.
  apply (X23_iteration_order_permutes_lines_within_a_family
           key_order reverse_key_order registry_state 1%positive).
  - exact registry_state_wf.
  - vm_compute. eauto.
Defined.

End ExpositionRuns.
